(** * Frame-resource ring and dirty-constant protocol of LitColumnsApp

    A shallow embedding of the per-frame protocol of the two Direct3D 12
    applications of the repository,

      - [Assigment #1/Assigment #1/Project/LitColumnsApp.cpp]  (module [Castle])
      - [Assigment #1/Lab# 5/Project/LitColumnsApp.cpp]        (module [Maze])

    Both share, line for line, [Update], [Draw], [UpdateObjectCBs],
    [UpdateMaterialCBs] and [UpdateMainPassCB]; they differ in the scene that
    [BuildMaterials] and [BuildRenderItems] author.

    Data is kept as the code has it: [int] and [UINT] values are integers in
    [Z] (wrap-around written where the code can reach it), a
    [std::vector] is a list addressed by position, a pointer into a vector is
    the position it points at, the constant buffers are arrays of cells, and
    every call the host issues to the device API is recorded in a log. *)

From Stdlib Require Import ZArith Lia SpecFloat Sorted.
From stdpp Require Import base option list strings relations gmap.

Local Open Scope Z_scope.

(** ** Scalars and matrices

    [float] is an IEEE-754 binary32 datum.  The protocol never computes with
    floats: it loads, transposes and stores them. *)

Definition float : Type := spec_float.

Definition f_zero : float := S754_zero false.
Definition f_one : float := S754_finite false 8388608 (-23).

Record XMFLOAT2 := mkFloat2 { f2x : float; f2y : float }.
Record XMFLOAT3 := mkFloat3 { f3x : float; f3y : float; f3z : float }.
Record XMFLOAT4 := mkFloat4 { f4x : float; f4y : float; f4z : float; f4w : float }.

Record XMFLOAT4X4 := mkFloat4x4 {
  _11 : float; _12 : float; _13 : float; _14 : float;
  _21 : float; _22 : float; _23 : float; _24 : float;
  _31 : float; _32 : float; _33 : float; _34 : float;
  _41 : float; _42 : float; _43 : float; _44 : float }.

(** [MathHelper::Identity4x4]. *)
Definition Identity4x4 : XMFLOAT4X4 :=
  mkFloat4x4 f_one f_zero f_zero f_zero
             f_zero f_one f_zero f_zero
             f_zero f_zero f_one f_zero
             f_zero f_zero f_zero f_one.

(** [XMMatrixScaling] and [XMMatrixTranslation] only place their arguments. *)
Definition XMMatrixScaling (sx sy sz : float) : XMFLOAT4X4 :=
  mkFloat4x4 sx f_zero f_zero f_zero
             f_zero sy f_zero f_zero
             f_zero f_zero sz f_zero
             f_zero f_zero f_zero f_one.

Definition XMMatrixTranslation (x y z : float) : XMFLOAT4X4 :=
  mkFloat4x4 f_one f_zero f_zero f_zero
             f_zero f_one f_zero f_zero
             f_zero f_zero f_one f_zero
             x y z f_one.

(** [XMMatrixTranspose], applied between [XMLoadFloat4x4] and
    [XMStoreFloat4x4], which convert representations without changing values. *)
Definition XMMatrixTranspose (m : XMFLOAT4X4) : XMFLOAT4X4 :=
  mkFloat4x4 (_11 m) (_21 m) (_31 m) (_41 m)
             (_12 m) (_22 m) (_32 m) (_42 m)
             (_13 m) (_23 m) (_33 m) (_43 m)
             (_14 m) (_24 m) (_34 m) (_44 m).

(** ** Constants of the program *)

(** [const int gNumFrameResources = 3;] *)
Definition gNumFrameResources : Z := 3.

Definition UINT_MAX : Z := 4294967295.
Definition wrapUINT (z : Z) : Z := z mod 4294967296.
Definition wrapUINT64 (z : Z) : Z := z mod 18446744073709551616.

(** ** Scene entities *)

(** [struct RenderItem].  [Mat] and [Geo] are non-owning pointers; they are
    the keys of [mMaterials] and [mGeometries] they were taken from.  The
    draw-call parameters (topology, index count, start index, base vertex) are
    read by [DrawRenderItems] only and are left out. *)
Record RenderItem := mkRenderItem {
  World : XMFLOAT4X4;
  TexTransform : XMFLOAT4X4;
  NumFramesDirty : Z;
  ObjCBIndex : Z;
  Mat : option string;
  Geo : option string }.

(** [RenderItem() = default] with the in-class initialisers of lines 29-43;
    [UINT ObjCBIndex = -1] is [UINT_MAX]. *)
Definition RenderItem_default : RenderItem :=
  {| World := Identity4x4;
     TexTransform := Identity4x4;
     NumFramesDirty := gNumFrameResources;
     ObjCBIndex := UINT_MAX;
     Mat := None;
     Geo := None |}.

Definition setItemDirty (n : Z) (e : RenderItem) : RenderItem :=
  {| World := World e; TexTransform := TexTransform e; NumFramesDirty := n;
     ObjCBIndex := ObjCBIndex e; Mat := Mat e; Geo := Geo e |}.

(** Modelled from the spec: [struct Material] is declared in
    [Common/d3dUtil.h], which is not among the sources.  The spec gives a
    material "shading parameters and its own framesDirty counter with the same
    semantics" as a drawable; the fields are the ones [BuildMaterials] and
    [UpdateMaterialCBs] access, and the counter starts at the ring depth as the
    drawable's does. *)
Record Material := mkMaterial {
  Name : string;
  MatCBIndex : Z;
  DiffuseSrvHeapIndex : Z;
  MatNumFramesDirty : Z;
  DiffuseAlbedo : XMFLOAT4;
  FresnelR0 : XMFLOAT3;
  Roughness : float;
  MatTransform : XMFLOAT4X4 }.

Definition setMatDirty (n : Z) (m : Material) : Material :=
  {| Name := Name m; MatCBIndex := MatCBIndex m;
     DiffuseSrvHeapIndex := DiffuseSrvHeapIndex m; MatNumFramesDirty := n;
     DiffuseAlbedo := DiffuseAlbedo m; FresnelR0 := FresnelR0 m;
     Roughness := Roughness m; MatTransform := MatTransform m |}.

(** ** Constant records *)

(** Modelled from the spec: [ObjectConstants], [MaterialConstants] and
    [PassConstants] are declared in [FrameResource.h] and [d3dUtil.h], which
    are not among the sources; a constant record is "a fixed-size record
    (matrices, vectors, scalars)", with the fields the update functions
    store. *)
Record ObjectConstants := mkObjectConstants {
  ocWorld : XMFLOAT4X4;
  ocTexTransform : XMFLOAT4X4 }.

Record MaterialConstants := mkMaterialConstants {
  mcDiffuseAlbedo : XMFLOAT4;
  mcFresnelR0 : XMFLOAT3;
  mcRoughness : float;
  mcMatTransform : XMFLOAT4X4 }.

Record Light := mkLight {
  Strength : XMFLOAT3;
  Direction : XMFLOAT3 }.

Record PassConstants := mkPassConstants {
  View : XMFLOAT4X4; InvView : XMFLOAT4X4;
  Proj : XMFLOAT4X4; InvProj : XMFLOAT4X4;
  ViewProj : XMFLOAT4X4; InvViewProj : XMFLOAT4X4;
  EyePosW : XMFLOAT3;
  RenderTargetSize : XMFLOAT2; InvRenderTargetSize : XMFLOAT2;
  NearZ : float; FarZ : float;
  TotalTime : float; DeltaTime : float;
  AmbientLight : XMFLOAT4;
  Lights : list Light }.

(** The record [UpdateObjectCBs] builds for a render item (lines 366-371). *)
Definition objConstants (e : RenderItem) : ObjectConstants :=
  {| ocWorld := XMMatrixTranspose (World e);
     ocTexTransform := XMMatrixTranspose (TexTransform e) |}.

(** The record [UpdateMaterialCBs] builds for a material (lines 391-397). *)
Definition matConstants (m : Material) : MaterialConstants :=
  {| mcDiffuseAlbedo := DiffuseAlbedo m;
     mcFresnelR0 := FresnelR0 m;
     mcRoughness := Roughness m;
     mcMatTransform := XMMatrixTranspose (MatTransform m) |}.

(** ** Upload buffers *)

(** Modelled from the spec: [UploadBuffer<T>] is defined in
    [Common/UploadBuffer.h], which is not among the sources.  It "owns a
    contiguous array of capacity records"; a cell is [None] until it is first
    written. *)
Abbreviation UploadBuffer T := (list (option T)) (only parsing).

Definition UploadBuffer_create {T : Type} (capacity : Z) : UploadBuffer T :=
  replicate (Z.to_nat capacity) None.

Definition capacity {T : Type} (ub : UploadBuffer T) : Z := Z.of_nat (length ub).

(** Modelled from the spec: "copyData(index, record): requires
    0 <= index < capacity; writes record at index.  Out-of-range index is a
    programming error (fail fast)".  [None] is the failure. *)
Definition CopyData {T : Type} (ub : UploadBuffer T) (elementIndex : Z) (data : T)
  : option (UploadBuffer T) :=
  if (0 <=? elementIndex) && (elementIndex <? capacity ub)
  then Some (<[Z.to_nat elementIndex := Some data]> ub)
  else None.

(** Modelled from the spec: [struct FrameResource] is declared in
    [FrameResource.h], which is not among the sources: "one command-allocator
    handle, one upload ring buffer per constant kind, and lastSubmittedFence
    (0 = never submitted)".  The allocator is an opaque handle; its one
    operation, [Reset], appears in the log. *)
Record FrameResource := mkFrameResource {
  PassCB : UploadBuffer PassConstants;
  MaterialCB : UploadBuffer MaterialConstants;
  ObjectCB : UploadBuffer ObjectConstants;
  Fence : Z }.

(** [FrameResource(device, passCount, objectCount, materialCount)]. *)
Definition FrameResource_create (passCount objectCount materialCount : Z) : FrameResource :=
  {| PassCB := UploadBuffer_create passCount;
     MaterialCB := UploadBuffer_create materialCount;
     ObjectCB := UploadBuffer_create objectCount;
     Fence := 0 |}.

Definition setObjectCB (cb : UploadBuffer ObjectConstants) (fr : FrameResource) :=
  {| PassCB := PassCB fr; MaterialCB := MaterialCB fr; ObjectCB := cb; Fence := Fence fr |}.
Definition setMaterialCB (cb : UploadBuffer MaterialConstants) (fr : FrameResource) :=
  {| PassCB := PassCB fr; MaterialCB := cb; ObjectCB := ObjectCB fr; Fence := Fence fr |}.
Definition setPassCB (cb : UploadBuffer PassConstants) (fr : FrameResource) :=
  {| PassCB := cb; MaterialCB := MaterialCB fr; ObjectCB := ObjectCB fr; Fence := Fence fr |}.
Definition setFence (f : Z) (fr : FrameResource) :=
  {| PassCB := PassCB fr; MaterialCB := MaterialCB fr; ObjectCB := ObjectCB fr; Fence := f |}.

(** ** The log of device-API calls *)

(** A slot is a position in [mFrameResources]; a render item is named by its
    position in [mAllRitems], a material by its position in [mMaterials]. *)
Inductive Event :=
  | EvWait (fence : Z)
      (** [SetEventOnCompletion(fence, h); WaitForSingleObject(h, INFINITE)] *)
  | EvCopyObject (slot item : nat) (index : Z)
      (** [ObjectCB->CopyData(index, _)] of [slot], for render item [item] *)
  | EvCopyMaterial (slot mat : nat) (index : Z)
      (** [MaterialCB->CopyData(index, _)] of [slot], for material [mat] *)
  | EvCopyPass (slot : nat) (index : Z)
      (** [PassCB->CopyData(index, _)] of [slot] *)
  | EvResetAlloc (slot : nat)
      (** [CmdListAlloc->Reset()] of [slot] *)
  | EvExecute (slot : nat)
      (** [ExecuteCommandLists] of the list recorded in [slot]'s allocator *)
  | EvSignal (fence : Z).
      (** [mCommandQueue->Signal(mFence, fence)] *)

Global Instance Event_eq_dec : EqDecision Event.
Proof. solve_decision. Defined.

(** ** Application state *)

(** Where the submitting thread stands in the frame.  [Update] is split at
    its one suspension point, the [WaitForSingleObject] of line 220. *)
Inductive PC :=
  | AtUpdate    (** between frames: about to run [Update] *)
  | InWait      (** inside [Update], suspended in [WaitForSingleObject] *)
  | AtRefresh   (** inside [Update], past the wait: about to refresh constants *)
  | AtDraw.     (** [Update] returned: about to run [Draw] *)

(** The members of [LitColumnsApp] (and of its base [D3DApp]) that the
    protocol reads or writes.  [mCurrFrameResource] is a pointer into
    [mFrameResources] ([None] is [nullptr]); [mMaterials] lists the values of
    the [unordered_map] in its iteration order; [mFence] is the completed
    value of the device fence object, which the device writes. *)
Record App := mkApp {
  mFrameResources : list FrameResource;
  mCurrFrameResource : option nat;
  mCurrFrameResourceIndex : Z;
  mAllRitems : list RenderItem;
  mMaterials : list Material;
  mCurrentFence : Z;
  mFence : Z;
  Log : list Event;
  pc : PC }.

Definition withFrames (frs : list FrameResource) (s : App) : App :=
  mkApp frs (mCurrFrameResource s) (mCurrFrameResourceIndex s) (mAllRitems s)
        (mMaterials s) (mCurrentFence s) (mFence s) (Log s) (pc s).
Definition withCurr (p : option nat) (i : Z) (s : App) : App :=
  mkApp (mFrameResources s) p i (mAllRitems s)
        (mMaterials s) (mCurrentFence s) (mFence s) (Log s) (pc s).
Definition withRitems (l : list RenderItem) (s : App) : App :=
  mkApp (mFrameResources s) (mCurrFrameResource s) (mCurrFrameResourceIndex s) l
        (mMaterials s) (mCurrentFence s) (mFence s) (Log s) (pc s).
Definition withMaterials (l : list Material) (s : App) : App :=
  mkApp (mFrameResources s) (mCurrFrameResource s) (mCurrFrameResourceIndex s) (mAllRitems s)
        l (mCurrentFence s) (mFence s) (Log s) (pc s).
Definition withCurrentFence (f : Z) (s : App) : App :=
  mkApp (mFrameResources s) (mCurrFrameResource s) (mCurrFrameResourceIndex s) (mAllRitems s)
        (mMaterials s) f (mFence s) (Log s) (pc s).
Definition withFence (c : Z) (s : App) : App :=
  mkApp (mFrameResources s) (mCurrFrameResource s) (mCurrFrameResourceIndex s) (mAllRitems s)
        (mMaterials s) (mCurrentFence s) c (Log s) (pc s).
Definition emit (evs : list Event) (s : App) : App :=
  mkApp (mFrameResources s) (mCurrFrameResource s) (mCurrFrameResourceIndex s) (mAllRitems s)
        (mMaterials s) (mCurrentFence s) (mFence s) (Log s ++ evs) (pc s).
Definition goto (p : PC) (s : App) : App :=
  mkApp (mFrameResources s) (mCurrFrameResource s) (mCurrFrameResourceIndex s) (mAllRitems s)
        (mMaterials s) (mCurrentFence s) (mFence s) (Log s) p.

(** [*mCurrFrameResource]: dereferencing [nullptr] or a dangling pointer is
    a failure. *)
Definition currFrameResource (s : App) : option (nat * FrameResource) :=
  k ← mCurrFrameResource s;
  fr ← mFrameResources s !! k;
  Some (k, fr).

(** ** [Update], lines 210-212: cycle through the circular array *)
Definition CycleFrameResource (s : App) : App :=
  let i := Z.rem (mCurrFrameResourceIndex s + 1) gNumFrameResources in
  withCurr (if 0 <=? i then Some (Z.to_nat i) else None) i s.

(** ** [Update], line 216: the condition under which the thread waits *)
Definition MustWait (s : App) : option bool :=
  '(_, fr) ← currFrameResource s;
  Some (negb (Fence fr =? 0) && (mFence s <? Fence fr)).

(** ** [UpdateObjectCBs] *)

(** The body of the loop [for(auto& e : mAllRitems)], for the element at
    position [p].  [NumFramesDirty--] runs only under [NumFramesDirty > 0], so
    the [int] cannot wrap. *)
Definition RefreshObjectAt (p : nat) (s : App) : option App :=
  '(k, fr) ← currFrameResource s;
  e ← mAllRitems s !! p;
  if 0 <? NumFramesDirty e then
    cb ← CopyData (ObjectCB fr) (ObjCBIndex e) (objConstants e);
    Some (emit [EvCopyObject k p (ObjCBIndex e)]
           (withRitems (<[p := setItemDirty (NumFramesDirty e - 1) e]> (mAllRitems s))
             (withFrames (<[k := setObjectCB cb fr]> (mFrameResources s)) s)))
  else Some s.

(** A range-[for] over the positions [ps], stopping at the first failure. *)
Fixpoint forEach (body : nat → App → option App) (ps : list nat) (s : App) : option App :=
  match ps with
  | [] => Some s
  | p :: ps' => s' ← body p s; forEach body ps' s'
  end.

Definition UpdateObjectCBs (s : App) : option App :=
  forEach RefreshObjectAt (seq 0 (length (mAllRitems s))) s.

(** ** [UpdateMaterialCBs] *)

Definition RefreshMaterialAt (p : nat) (s : App) : option App :=
  '(k, fr) ← currFrameResource s;
  mat ← mMaterials s !! p;
  if 0 <? MatNumFramesDirty mat then
    cb ← CopyData (MaterialCB fr) (MatCBIndex mat) (matConstants mat);
    Some (emit [EvCopyMaterial k p (MatCBIndex mat)]
           (withMaterials (<[p := setMatDirty (MatNumFramesDirty mat - 1) mat]> (mMaterials s))
             (withFrames (<[k := setMaterialCB cb fr]> (mFrameResources s)) s)))
  else Some s.

Definition UpdateMaterialCBs (s : App) : option App :=
  forEach RefreshMaterialAt (seq 0 (length (mMaterials s))) s.

(** ** [UpdateMainPassCB]

    Lines 409-436 fill [mMainPassCB] from the camera and the timer in floating
    point; [mainPassCB] is the value they produce this frame.  Line 439 copies
    it, unconditionally, to element 0. *)
Definition UpdateMainPassCB (mainPassCB : PassConstants) (s : App) : option App :=
  '(k, fr) ← currFrameResource s;
  cb ← CopyData (PassCB fr) 0 mainPassCB;
  Some (emit [EvCopyPass k 0]
         (withFrames (<[k := setPassCB cb fr]> (mFrameResources s)) s)).

(** ** [Update], lines 224-227

    [AnimateMaterials] has an empty body in the first application and its call
    is commented out in the second. *)
Definition UpdateConstants (mainPassCB : PassConstants) (s : App) : option App :=
  s1 ← UpdateObjectCBs s;
  s2 ← UpdateMaterialCBs s1;
  UpdateMainPassCB mainPassCB s2.

(** ** [Draw]

    Line 236 resets the allocator of the current frame resource, lines 240-272
    record and submit the command list, line 279 stores [++mCurrentFence]
    (a [UINT64]) in the frame resource and line 284 signals it. *)
Definition Draw (s : App) : option App :=
  '(k, fr) ← currFrameResource s;
  let f := wrapUINT64 (mCurrentFence s + 1) in
  Some (emit [EvResetAlloc k; EvExecute k; EvSignal f]
         (withCurrentFence f
           (withFrames (<[k := setFence f fr]> (mFrameResources s)) s))).

(** ** The submitting thread, one step at a time *)

Inductive Outcome :=
  | Ok (s : App)
  | Blocked     (** suspended: the event has not been signalled *)
  | Fault.      (** fail-fast: a precondition violation *)

Definition cpu_step (mainPassCB : PassConstants) (s : App) : Outcome :=
  match pc s with
  | AtUpdate =>
      let s1 := CycleFrameResource s in
      match currFrameResource s1, MustWait s1 with
      | Some (_, fr), Some true => Ok (goto InWait (emit [EvWait (Fence fr)] s1))
      | Some _, Some false => Ok (goto AtRefresh s1)
      | _, _ => Fault
      end
  | InWait =>
      match currFrameResource s with
      | Some (_, fr) => if Fence fr <=? mFence s then Ok (goto AtRefresh s) else Blocked
      | None => Fault
      end
  | AtRefresh =>
      match UpdateConstants mainPassCB s with
      | Some s' => Ok (goto AtDraw s')
      | None => Fault
      end
  | AtDraw =>
      match Draw s with
      | Some s' => Ok (goto AtUpdate s')
      | None => Fault
      end
  end.

(** The device retires submitted work in order: the completed value of the
    fence only grows, and never passes the last value signalled on the queue. *)
Definition gpu_step (c : Z) (s : App) : option App :=
  if (mFence s <=? c) && (c <=? mCurrentFence s) then Some (withFence c s) else None.

(** One step of the system.  A [Draw] step is taken only while the 64-bit
    fence counter has room: the relation describes runs shorter than 2^64
    frames. *)
Inductive step : App → App → Prop :=
  | step_gpu s c s' :
      gpu_step c s = Some s' → step s s'
  | step_cpu s mainPassCB s' :
      cpu_step mainPassCB s = Ok s' →
      (pc s = AtDraw → mCurrentFence s + 1 < 18446744073709551616) →
      step s s'.

(** ** Initialisation *)

(** [BuildFrameResources]: [gNumFrameResources] frame resources, each with one
    pass record, [(UINT)mAllRitems.size()] object records and
    [(UINT)mMaterials.size()] material records. *)
Definition BuildFrameResources (items : list RenderItem) (mats : list Material)
  : list FrameResource :=
  replicate (Z.to_nat gNumFrameResources)
    (FrameResource_create 1 (wrapUINT (Z.of_nat (length items)))
                            (wrapUINT (Z.of_nat (length mats)))).

(** The state [Initialize] leaves: the scene is built, the frame resources are
    allocated, and line 191 has flushed the command queue, so the device has
    completed everything signalled so far ([f0], the value of [mCurrentFence]
    after the flush). *)
Definition Initialize (items : list RenderItem) (mats : list Material) (f0 : Z) : App :=
  {| mFrameResources := BuildFrameResources items mats;
     mCurrFrameResource := None;
     mCurrFrameResourceIndex := 0;
     mAllRitems := items;
     mMaterials := mats;
     mCurrentFence := f0;
     mFence := f0;
     Log := [];
     pc := AtUpdate |}.

Definition reachable (items : list RenderItem) (mats : list Material) (f0 : Z) (s : App) : Prop :=
  rtc step (Initialize items mats f0) s.

(** ** Scene authoring shared by the two applications *)

(** A render item as every block of [BuildRenderItems] makes it:
    [std::make_unique<RenderItem>()], then stores to [World], [TexTransform],
    [ObjCBIndex], [Mat] and [Geo].  [NumFramesDirty] keeps its initialiser. *)
Definition authoredItem (world tex : XMFLOAT4X4) (objCBIndex : Z) (mat geo : string)
  : RenderItem :=
  {| World := world;
     TexTransform := tex;
     NumFramesDirty := NumFramesDirty RenderItem_default;
     ObjCBIndex := objCBIndex;
     Mat := Some mat;
     Geo := Some geo |}.

(** A material as every block of [BuildMaterials] makes it.  [MatTransform]
    and the dirty counter keep their initialisers. *)
Definition authoredMaterial (name : string) (matCBIndex srvHeapIndex : Z)
    (albedo : XMFLOAT4) (fresnel : XMFLOAT3) (roughness : float) : Material :=
  {| Name := name;
     MatCBIndex := matCBIndex;
     DiffuseSrvHeapIndex := srvHeapIndex;
     MatNumFramesDirty := gNumFrameResources;
     DiffuseAlbedo := albedo;
     FresnelR0 := fresnel;
     Roughness := roughness;
     MatTransform := Identity4x4 |}.

(** The builder's running state: the local [UINT objCBIndex] and
    [mAllRitems]. *)
Definition Builder : Type := Z * list RenderItem.

Section Authoring.
(** The transforms are products of scalings, rotations and translations
    evaluated in floating point; [world n] and [tex n] stand for the values
    stored in the render item that is pushed [n]-th onto [mAllRitems]. *)
Variable world tex : nat → XMFLOAT4X4.

(** An item with an index written in the source, pushed onto [mAllRitems]. *)
Definition pushFixed (objCBIndex : Z) (mat geo : string) (b : Builder) : Builder :=
  (b.1, b.2 ++ [authoredItem (world (length b.2)) (tex (length b.2)) objCBIndex mat geo]).

(** An item that takes [objCBIndex] and post-increments it.  In the loops
    the items are pushed in the order in which they took their indices. *)
Definition pushNext (mat geo : string) (b : Builder) : Builder :=
  (wrapUINT (b.1 + 1),
   b.2 ++ [authoredItem (world (length b.2)) (tex (length b.2)) b.1 mat geo]).

(** [for (int i = 0; i < n; ++i) body]. *)
Fixpoint times (n : nat) (body : Builder → Builder) (b : Builder) : Builder :=
  match n with
  | O => b
  | S n' => times n' body (body b)
  end.

(** The four pyramids of one iteration of the first loop. *)
Definition pyramidRow (mat : string) (b : Builder) : Builder :=
  pushNext mat "shapeGeo" (pushNext mat "shapeGeo"
    (pushNext mat "shapeGeo" (pushNext mat "shapeGeo" b))).

(** The 26 parts of one pair of towers: 8 wedges, 16 spires, 2 cylinders. *)
Definition towerPair (mat : string) (b : Builder) : Builder :=
  times 26 (pushNext mat "shapeGeo") b.
End Authoring.

(** ** First application: the castle *)
Module Castle.
Section Scene.
Variable world tex : nat → XMFLOAT4X4.
Variable albedo : string → XMFLOAT4.
Variable fresnel : string → XMFLOAT3.
Variable roughness : string → float.

Definition mat (name : string) (i : Z) : Material :=
authoredMaterial name i i (albedo name) (fresnel name) (roughness name).

(** [BuildMaterials], lines 826-881: the materials in the order in which
    they are inserted.  The source does not fix the order in which the
    [unordered_map] is walked; it is some permutation of this list. *)
Definition BuildMaterials : list Material :=
[ mat "bricks0" 0; mat "stone0" 1; mat "tile0" 2;
  mat "diamondMat" 3; mat "diamondMatRed" 4; mat "skullMat" 5 ].

(** [BuildRenderItems], lines 883-1450. *)
Definition BuildRenderItems : list RenderItem :=
let push := pushFixed world tex in
let b0 : Builder := (0, []) in
let b1 :=
  push 11 "skullMat" "skullGeo"
  (push 10 "tile0" "shapeGeo"
  (push 9 "diamondMatRed" "shapeGeo"
  (push 8 "diamondMat" "shapeGeo"
  (push 7 "bricks0" "shapeGeo"
  (push 6 "skullMat" "shapeGeo"
  (push 5 "bricks0" "shapeGeo"
  (push 4 "diamondMat" "shapeGeo"
  (push 3 "diamondMatRed" "shapeGeo"
  (push 2 "diamondMat" "shapeGeo"
  (push 1 "stone0" "shapeGeo"
  (push 0 "stone0" "shapeGeo" b0))))))))))) in
let b2 := times 8 (pyramidRow world tex "bricks0") (12, b1.2) in
let b3 := times 2 (towerPair world tex "bricks0") (44, b2.2) in
b3.2.
End Scene.
End Castle.

(** ** Second application: the castle in a maze *)
Module Maze.
Section Scene.
Variable world tex : nat → XMFLOAT4X4.
Variable albedo : string → XMFLOAT4.
Variable fresnel : string → XMFLOAT3.
Variable roughness : string → float.
(** [rand n] is the value the [n]-th call of [rand()] returns. *)
Variable rand : nat → Z.

Definition mat (name : string) (i : Z) : Material :=
authoredMaterial name i i (albedo name) (fresnel name) (roughness name).

(** [BuildMaterials], lines 1181-1256: the materials in the order in which
  they are inserted.  The source does not fix the order in which the
  [unordered_map] is walked; it is some permutation of this list. *)
Definition BuildMaterials : list Material :=
[ mat "bricks0" 0; mat "stone0" 1; mat "tile0" 2;
  mat "grassMat" 3; mat "treeSprites" 4 ].

(** One border iteration pushes two walls, each taking [objCBIndex] and
  incrementing it after the push. *)
Definition borderPair (b : Builder) : Builder :=
pushNext world tex "stone0" "shapeGeo" (pushNext world tex "stone0" "shapeGeo" b).

(** One cell of the nested loop: two draws of [rand() % 5], each pushing a
  wall when the remainder exceeds 1.  The first component counts the calls
  of [rand] made so far. *)
Definition mazeCell (st : nat * Builder) : nat * Builder :=
let '(calls, b) := st in
let b1 := if 1 <? Z.rem (rand calls) 5
          then pushNext world tex "stone0" "shapeGeo" b else b in
let b2 := if 1 <? Z.rem (rand (S calls)) 5
          then pushNext world tex "stone0" "shapeGeo" b1 else b1 in
(S (S calls), b2).

Fixpoint mazeCells (n : nat) (st : nat * Builder) : nat * Builder :=
match n with
| O => st
| S n' => mazeCells n' (mazeCell st)
end.

(** [BuildRenderItems], lines 1258-1947: the castle of the first
  application with other materials, then the border of the maze. *)
Definition castleAndBorder : Builder :=
let push := pushFixed world tex in
let b0 : Builder := (0, []) in
let b1 :=
  push 11 "stone0" "skullGeo"
  (push 10 "bricks0" "shapeGeo"
  (push 9 "tile0" "shapeGeo"
  (push 8 "stone0" "shapeGeo"
  (push 7 "stone0" "shapeGeo"
  (push 6 "stone0" "shapeGeo"
  (push 5 "stone0" "shapeGeo"
  (push 4 "stone0" "shapeGeo"
  (push 3 "stone0" "shapeGeo"
  (push 2 "grassMat" "shapeGeo"
  (push 1 "tile0" "shapeGeo"
  (push 0 "bricks0" "shapeGeo" b0))))))))))) in
let b2 := times 8 (pyramidRow world tex "stone0") (12, b1.2) in
let b3 := times 2 (towerPair world tex "stone0") (44, b2.2) in
let steps := 6%nat in
let b4 := times steps borderPair (44 + 52, b3.2) in
times steps borderPair b4.

(** The tree sprites: [World] is set to the identity, [TexTransform] keeps
  its initialiser, and [ObjCBIndex] is the literal 3. *)
Definition treeSpritesRitem : RenderItem :=
authoredItem Identity4x4 (TexTransform RenderItem_default) 3
             "treeSprites" "treeSpritesGeo".

(** [BuildRenderItems], lines 1258-2021.  After the nested loop of the maze
  the code increments [objCBIndex] once more, and then pushes the tree
  sprites. *)
Definition BuildRenderItems : list RenderItem :=
let steps := 6%nat in
let b6 := (mazeCells (steps * steps) (O, castleAndBorder)).2 in
let objCBIndex := wrapUINT (b6.1 + 1) in
b6.2 ++ [treeSpritesRitem].

(** [AnimateMaterials], lines 393-415 (its call in [Update] is commented
  out).  [tu] and [tv] are the scrolled coordinates the floating-point
  lines 401-408 produce.  [mMaterials["water"]] on a map without that key
  inserts a null pointer, and the stores through it fail. *)
Definition AnimateMaterials (tu tv : float) (s : App) : option App :=
p ← list_find (λ m, Name m = "water") (mMaterials s);
let waterMat := p.2 in
let t := MatTransform waterMat in
let t' := mkFloat4x4 (_11 t) (_12 t) (_13 t) (_14 t)
                     (_21 t) (_22 t) (_23 t) (_24 t)
                     (_31 t) (_32 t) (_33 t) (_34 t)
                     tu tv (_43 t) (_44 t) in
let m' := {| Name := Name waterMat; MatCBIndex := MatCBIndex waterMat;
             DiffuseSrvHeapIndex := DiffuseSrvHeapIndex waterMat;
             MatNumFramesDirty := gNumFrameResources;
             DiffuseAlbedo := DiffuseAlbedo waterMat;
             FresnelR0 := FresnelR0 waterMat;
             Roughness := Roughness waterMat;
             MatTransform := t' |} in
Some (withMaterials (<[p.1 := m']> (mMaterials s)) s).
End Scene.
End Maze.

(** ** Running a schedule *)

(** A schedule interleaves device progress with steps of the submitting
    thread; [run] executes it, and stops with [None] at a step that is not
    enabled. *)
Inductive Action :=
  | Gpu (c : Z)
  | Cpu (mainPassCB : PassConstants).

Definition act (a : Action) (s : App) : option App :=
  match a with
  | Gpu c => gpu_step c s
  | Cpu mainPassCB =>
      match pc s, mCurrentFence s + 1 <? 18446744073709551616 with
      | AtDraw, false => None
      | _, _ => match cpu_step mainPassCB s with Ok s' => Some s' | _ => None end
      end
  end.

Fixpoint run (sched : list Action) (s : App) : option App :=
  match sched with
  | [] => Some s
  | a :: rest => s' ← act a s; run rest s'
  end.

(** [n] frames against a device that retires every frame before the next
    one starts: the device catches up, then the thread acquires, refreshes
    and draws. *)
Definition idleSchedule (f0 : Z) (n : nat) (mainPassCB : PassConstants) : list Action :=
  flat_map (λ j, [Gpu (f0 + Z.of_nat j); Cpu mainPassCB; Cpu mainPassCB; Cpu mainPassCB])
           (seq 0 n).

(** [n] frames against a device that retires nothing. *)
Definition stalledSchedule (n : nat) (mainPassCB : PassConstants) : list Action :=
  flat_map (λ _, [Cpu mainPassCB; Cpu mainPassCB; Cpu mainPassCB]) (seq 0 n).

(** ** Concrete scenes

    The castle and the maze with every authored transform the identity,
    except the one transform of the maze that the source lets us evaluate
    exactly: the cylinder pushed fourth,
    [XMMatrixScaling(50,1,2) * XMMatrixRotationX(0) * XMMatrixTranslation(0,50,0)]. *)
Definition f_two : float := S754_finite false 8388608 (-22).
Definition f_fifty : float := S754_finite false 13107200 (-18).

Definition cylinderWorld : XMFLOAT4X4 :=
  mkFloat4x4 f_fifty f_zero f_zero f_zero
             f_zero f_one f_zero f_zero
             f_zero f_zero f_two f_zero
             f_zero f_fifty f_zero f_one.

Definition plainWorld : nat → XMFLOAT4X4 := λ _, Identity4x4.
Definition mazeWorld : nat → XMFLOAT4X4 :=
  λ n, if (n =? 3)%nat then cylinderWorld else Identity4x4.
Definition plainAlbedo : string → XMFLOAT4 := λ _, mkFloat4 f_one f_one f_one f_one.
Definition plainFresnel : string → XMFLOAT3 := λ _, mkFloat3 f_zero f_zero f_zero.
Definition plainRoughness : string → float := λ _, f_zero.

Definition plainPass : PassConstants :=
  {| View := Identity4x4; InvView := Identity4x4;
     Proj := Identity4x4; InvProj := Identity4x4;
     ViewProj := Identity4x4; InvViewProj := Identity4x4;
     EyePosW := mkFloat3 f_zero f_zero f_zero;
     RenderTargetSize := mkFloat2 f_one f_one;
     InvRenderTargetSize := mkFloat2 f_one f_one;
     NearZ := f_one; FarZ := f_one;
     TotalTime := f_zero; DeltaTime := f_zero;
     AmbientLight := mkFloat4 f_zero f_zero f_zero f_one;
     Lights := [] |}.

Definition castleItems : list RenderItem := Castle.BuildRenderItems plainWorld plainWorld.
Definition castleMats : list Material :=
  Castle.BuildMaterials plainAlbedo plainFresnel plainRoughness.
Definition castle0 : App := Initialize castleItems castleMats 1.

(** The castle after a schedule. *)
Definition castleAfter (sched : list Action) : App := default castle0 (run sched castle0).

Definition mazeItems : list RenderItem :=
  Maze.BuildRenderItems mazeWorld plainWorld (λ n, Z.of_nat n).
Definition mazeMats : list Material :=
  Maze.BuildMaterials plainAlbedo plainFresnel plainRoughness.
Definition maze0 : App := Initialize mazeItems mazeMats 1.
Definition mazeAfter (sched : list Action) : App := default maze0 (run sched maze0).

(** Three frames, each retired before the next begins. *)
Definition threeFrames : list Action := idleSchedule 1 3 plainPass.

(** The castle at some points of a run: the first frame after the acquire,
    after the refresh and after [Draw]; the fourth frame after the acquire;
    and three frames submitted to a device that has retired none. *)
Definition castleAcquired : App := castleAfter [Cpu plainPass].
Definition castleRefreshed : App := castleAfter [Cpu plainPass; Cpu plainPass].
Definition castleDrawn : App := castleAfter [Cpu plainPass; Cpu plainPass; Cpu plainPass].
Definition castleSettled : App := castleAfter (threeFrames ++ [Cpu plainPass]).
Definition castleStalled : App := castleAfter (stalledSchedule 3 plainPass).

Definition castleFirstItem : RenderItem := default RenderItem_default (castleItems !! 0%nat).
Definition castleSlot (s : App) (k : nat) : FrameResource :=
  default (FrameResource_create 1 0 0) (mFrameResources s !! k).

(** A logged copy whose index lies inside the buffer it goes to. *)
Definition call_in_range (nItems nMats : nat) (e : Event) : Prop :=
  match e with
  | EvCopyObject _ _ i => 0 ≤ i < Z.of_nat nItems
  | EvCopyMaterial _ _ i => 0 ≤ i < Z.of_nat nMats
  | EvCopyPass _ i => i = 0
  | _ => True
  end.

(** ** The order the spec gives to a frame

    Within the calls of one frame, every copy into a constant buffer comes
    after a reset of the command allocator of the same slot. *)
Definition copy_slot (e : Event) : option nat :=
  match e with
  | EvCopyObject k _ _ | EvCopyMaterial k _ _ | EvCopyPass k _ => Some k
  | _ => None
  end.

Definition reset_precedes_copies (l : list Event) : Prop :=
  ∀ l1 l2 e k, l = l1 ++ e :: l2 → copy_slot e = Some k → EvResetAlloc k ∈ l1.

(** ** Closed forms of the refresh loops

    [refreshPass] is the loop of [UpdateObjectCBs] and of [UpdateMaterialCBs]
    read as a recursion over the container: it returns the entities after the
    pass, the buffer after the pass, and the calls made.  Lemmas
    [UpdateObjectCBs_closed] and [UpdateMaterialCBs_closed] below show that
    the loops compute exactly this. *)
Section RefreshPass.
Context {E T : Type}.
Variable dirty : E → Z.
Variable setDirty : Z → E → E.
Variable index : E → Z.
Variable record : E → T.
Variable call : nat → Z → Event.

Fixpoint refreshPass (p : nat) (es : list E) (cb : UploadBuffer T)
  : option (list E * UploadBuffer T * list Event) :=
  match es with
  | [] => Some ([], cb, [])
  | e :: rest =>
      if 0 <? dirty e then
        cb1 ← CopyData cb (index e) (record e);
        r ← refreshPass (S p) rest cb1;
        Some (setDirty (dirty e - 1) e :: r.1.1, r.1.2, call p (index e) :: r.2)
      else
        r ← refreshPass (S p) rest cb;
        Some (e :: r.1.1, r.1.2, r.2)
  end.

(** The calls a pass makes when every entity is dirty. *)
Fixpoint copies (p : nat) (es : list E) : list Event :=
  match es with
  | [] => []
  | e :: rest => call p (index e) :: copies (S p) rest
  end.

(** The buffer a pass leaves when every entity is dirty. *)
Fixpoint stores (es : list E) (cb : UploadBuffer T) : UploadBuffer T :=
  match es with
  | [] => cb
  | e :: rest => stores rest (<[Z.to_nat (index e) := Some (record e)]> cb)
  end.
End RefreshPass.

Definition objPass (k : nat) :=
  refreshPass NumFramesDirty setItemDirty ObjCBIndex objConstants (EvCopyObject k).
Definition matPass (k : nat) :=
  refreshPass MatNumFramesDirty setMatDirty MatCBIndex matConstants (EvCopyMaterial k).
Definition objCopies (k : nat) := copies ObjCBIndex (EvCopyObject k) 0.
Definition matCopies (k : nat) := copies MatCBIndex (EvCopyMaterial k) 0.
Definition objStores := stores ObjCBIndex objConstants.
Definition matStores := stores MatCBIndex matConstants.

(** ** The log without the waits *)

Definition is_wait (e : Event) : bool :=
  match e with EvWait _ => true | _ => false end.

Fixpoint hostEvents (l : list Event) : list Event :=
  match l with
  | [] => []
  | e :: rest => if is_wait e then hostEvents rest else e :: hostEvents rest
  end.

(** The fence values signalled, oldest first: one per submitted frame. *)
Fixpoint submitted (l : list Event) : list Z :=
  match l with
  | [] => []
  | EvSignal f :: rest => f :: submitted rest
  | _ :: rest => submitted rest
  end.

(** The submitted frames the device has not retired yet. *)
Definition unretired (s : App) : list Z :=
  List.filter (λ f, mFence s <? f) (submitted (Log s)).

(** How often the constants of render item [p] were copied into slot [k]. *)
Definition is_upload (k p : nat) (e : Event) : bool :=
  match e with
  | EvCopyObject k' p' _ => (k' =? k)%nat && (p' =? p)%nat
  | _ => false
  end.

Definition uploads (k p : nat) (l : list Event) : nat :=
  length (List.filter (is_upload k p) l).

(** What a step appends to the log. *)
Definition emitted (s s' : App) : list Event := drop (length (Log s)) (Log s').

(** A call that records into a slot: a write to one of its buffers, or the
    reset of its command allocator. *)
Definition records_into (k : nat) (e : Event) : Prop :=
  match e with
  | EvCopyObject k' _ _ | EvCopyMaterial k' _ _ | EvCopyPass k' _ | EvResetAlloc k' => k' = k
  | _ => False
  end.

(** ** Well-formed scenes *)

(** What [BuildRenderItems], [BuildMaterials] and [BuildFrameResources]
    establish: every entity carries the initial dirty count, every constant
    index lies inside the buffer sized from the container, and the container
    sizes fit a [UINT]. *)
Record SceneOK (items : list RenderItem) (mats : list Material) : Prop := {
  items_dirty : Forall (λ e, NumFramesDirty e = gNumFrameResources) items;
  items_range : Forall (λ e, 0 ≤ ObjCBIndex e < Z.of_nat (length items)) items;
  mats_dirty : Forall (λ m, MatNumFramesDirty m = gNumFrameResources) mats;
  mats_range : Forall (λ m, 0 ≤ MatCBIndex m < Z.of_nat (length mats)) mats;
  items_fit : Z.of_nat (length items) < 4294967296;
  mats_fit : Z.of_nat (length mats) < 4294967296 }.

Definition sceneOKb (items : list RenderItem) (mats : list Material) : bool :=
  forallb (λ e, (NumFramesDirty e =? gNumFrameResources)
                && (0 <=? ObjCBIndex e) && (ObjCBIndex e <? Z.of_nat (length items))) items
  && forallb (λ m, (MatNumFramesDirty m =? gNumFrameResources)
                && (0 <=? MatCBIndex m) && (MatCBIndex m <? Z.of_nat (length mats))) mats
  && (Z.of_nat (length items) <? 4294967296)
  && (Z.of_nat (length mats) <? 4294967296).

(** The scenes of the repository: what the two applications build, for any
    authored transforms and shading parameters, and any outcome of [rand]. *)
Inductive RepositoryScene : list RenderItem → list Material → Prop :=
  | CastleScene world tex albedo fresnel roughness :
      RepositoryScene (Castle.BuildRenderItems world tex)
                      (Castle.BuildMaterials albedo fresnel roughness)
  | MazeScene world tex albedo fresnel roughness rand :
      RepositoryScene (Maze.BuildRenderItems world tex rand)
                      (Maze.BuildMaterials albedo fresnel roughness).

(** A builder whose running index equals the number of items pushed, that
    many lying between [lo] and [hi], every item carrying the initial dirty
    count and an index below the running one. *)
Definition BuilderOK (lo hi : nat) (b : Builder) : Prop :=
  b.1 = Z.of_nat (length b.2)
  ∧ (lo ≤ length b.2 ≤ hi)%nat
  ∧ Forall (λ e, NumFramesDirty e = gNumFrameResources
                 ∧ 0 ≤ ObjCBIndex e < Z.of_nat (length b.2)) b.2.

Definition builderOKb (n : nat) (b : Builder) : bool :=
  (b.1 =? Z.of_nat (length b.2))
  && (length b.2 =? n)%nat
  && forallb (λ e, (NumFramesDirty e =? gNumFrameResources)
                   && (0 <=? ObjCBIndex e) && (ObjCBIndex e <? Z.of_nat (length b.2))) b.2.

(** ** One refresh over a uniformly dirty scene *)

(** The count after one more pass, the slot after a pass, and the calls of
    a pass, when every entity carries the count [d]. *)
Definition decDirty (d : Z) : Z := if 0 <? d then d - 1 else d.

Definition refreshedSlot (d : Z) (items0 : list RenderItem) (mats0 : list Material)
    (mainPassCB : PassConstants) (fr : FrameResource) : FrameResource :=
  {| PassCB := <[0%nat := Some mainPassCB]> (PassCB fr);
     MaterialCB := if 0 <? d then matStores mats0 (MaterialCB fr) else MaterialCB fr;
     ObjectCB := if 0 <? d then objStores items0 (ObjectCB fr) else ObjectCB fr;
     Fence := Fence fr |}.

Definition refreshCalls (d : Z) (k : nat) (items0 : list RenderItem) (mats0 : list Material)
  : list Event :=
  (if 0 <? d then objCopies k items0 ++ matCopies k mats0 else []) ++ [EvCopyPass k 0].

(** ** The protocol invariant

    [items0], [mats0] and [f0] are the scene and the fence value
    [Initialize] starts from.  Every frame adds one to [mCurrentFence], so
    [framesDone] counts the frames submitted; frame [j] (counted from 1) works
    in slot [j mod 3]. *)
Section Expected.
Variable items0 : list RenderItem.
Variable mats0 : list Material.
Variable f0 : Z.

Definition framesDone (s : App) : Z := mCurrentFence s - f0.

(** Refresh passes run so far: at [AtDraw] the pass of the frame under way
    is done, its submission is not. *)
Definition passesDone (s : App) : Z :=
  framesDone s + match pc s with AtDraw => 1 | _ => 0 end.

(** The dirty count of every entity after [m] refresh passes. *)
Definition dirtyAfter (m : Z) : Z := Z.max 0 (gNumFrameResources - m).

Definition slotOf (j : Z) : nat := Z.to_nat (j mod gNumFrameResources).

(** The fence stored in slot [k] after [n] frames: that of the last frame
    [j <= n] with [j mod 3 = k], or 0 when there is none. *)
Definition slotFence (n k : Z) : Z :=
  let j := n - (n - k) mod gNumFrameResources in
  if 1 <=? j then f0 + j else 0.

(** The frame that first works in slot [k]. *)
Definition firstUse (k : Z) : Z := if k =? 0 then gNumFrameResources else k.

Definition refreshEvents (j : Z) : list Event :=
  (if j <=? gNumFrameResources
   then objCopies (slotOf j) items0 ++ matCopies (slotOf j) mats0
   else [])
  ++ [EvCopyPass (slotOf j) 0].

Definition drawEvents (j : Z) : list Event :=
  [EvResetAlloc (slotOf j); EvExecute (slotOf j); EvSignal (f0 + j)].

Fixpoint framesLog (n : nat) : list Event :=
  match n with
  | O => []
  | S n' => framesLog n' ++ refreshEvents (Z.of_nat (S n')) ++ drawEvents (Z.of_nat (S n'))
  end.

Record SlotOK (n m k : Z) (fr : FrameResource) : Prop := {
  slot_fence : Fence fr = slotFence n k;
  slot_object :
    ObjectCB fr =
      if firstUse k <=? m
      then objStores items0 (UploadBuffer_create (Z.of_nat (length items0)))
      else UploadBuffer_create (Z.of_nat (length items0));
  slot_material :
    MaterialCB fr =
      if firstUse k <=? m
      then matStores mats0 (UploadBuffer_create (Z.of_nat (length mats0)))
      else UploadBuffer_create (Z.of_nat (length mats0));
  slot_pass : length (PassCB fr) = 1%nat }.

Record Inv (s : App) : Prop := {
  inv_fence :
    0 ≤ f0 ∧ f0 ≤ mFence s ∧ mFence s ≤ mCurrentFence s
    ∧ mCurrentFence s < 18446744073709551616;
  inv_items :
    mAllRitems s = map (setItemDirty (dirtyAfter (passesDone s))) items0;
  inv_mats :
    mMaterials s = map (setMatDirty (dirtyAfter (passesDone s))) mats0;
  inv_slots :
    length (mFrameResources s) = 3%nat
    ∧ ∀ k fr, mFrameResources s !! k = Some fr →
              SlotOK (framesDone s) (passesDone s) (Z.of_nat k) fr;
  inv_cursor :
    match pc s with
    | AtUpdate =>
        mCurrFrameResourceIndex s = framesDone s mod gNumFrameResources
        ∧ mCurrFrameResource s =
            (if framesDone s =? 0 then None else Some (slotOf (framesDone s)))
    | _ =>
        mCurrFrameResourceIndex s = (framesDone s + 1) mod gNumFrameResources
        ∧ mCurrFrameResource s = Some (slotOf (framesDone s + 1))
    end;
  inv_retire :
    mCurrentFence s - mFence s ≤ match pc s with AtRefresh | AtDraw => 2 | _ => 3 end;
  inv_log :
    hostEvents (Log s) =
      framesLog (Z.to_nat (framesDone s))
      ++ match pc s with AtDraw => refreshEvents (framesDone s + 1) | _ => [] end }.
End Expected.

(** ** Finishing a frame

    The device retires everything submitted so far, and the submitting thread
    takes the steps that remain of its frame. *)
Definition finishFrame (mainPassCB : PassConstants) (s : App) : list Action :=
  Gpu (mCurrentFence s)
  :: match pc s with
     | AtUpdate | InWait => [Cpu mainPassCB; Cpu mainPassCB; Cpu mainPassCB]
     | AtRefresh => [Cpu mainPassCB; Cpu mainPassCB]
     | AtDraw => [Cpu mainPassCB]
     end.

(** A state in which the device has retired everything submitted, the
    submitting thread being at [p]. *)
Definition caughtUp (items0 : list RenderItem) (mats0 : list Material) (f0 : Z)
    (s : App) (c : Z) (p : PC) : Prop :=
  Inv items0 mats0 f0 s ∧ pc s = p ∧ mCurrentFence s = c ∧ mFence s = c.

(** ** References from render items

    [ri->Mat] is the key of [mMaterials] it was looked up with; it points to
    a material when that key is one of [names]. *)
Definition materialDefinedb (names : list string) (e : RenderItem) : bool :=
  match Mat e with
  | Some n => bool_decide (n ∈ names)
  | None => false
  end.

(** * Geometry

    [BuildShapeGeometry], [BuildSkullGeometry] and [BuildTreeSpritesGeometry]
    fill [mGeometries], the table [BuildRenderItems] reads the draw arguments
    from. *)

(** [UINT] to [int]. *)
Definition toINT (z : Z) : Z :=
  let w := z mod 4294967296 in
  if w <? 2147483648 then w else w - 4294967296.

(** [GeometryGenerator::MeshData] is declared in [Common/GeometryGenerator.h],
    which is not among the sources; these are the two containers the
    applications read. *)
Record MeshData (GV : Type) := mkMeshData {
  Vertices : list GV;
  Indices32 : list Z }.
Arguments mkMeshData {GV} _ _.
Arguments Vertices {GV} _.
Arguments Indices32 {GV} _.

(** [SubmeshGeometry] is declared in [Common/d3dUtil.h], which is not among
    the sources.  The three fields are the ones the applications store and
    load; their types are those of the fields of [RenderItem] they are copied
    to ([UINT], [UINT], [int]). *)
Record SubmeshGeometry := mkSubmesh {
  IndexCount : Z;
  StartIndexLocation : Z;
  BaseVertexLocation : Z }.

Inductive DXGI_FORMAT := DXGI_FORMAT_R16_UINT | DXGI_FORMAT_R32_UINT.

(** [MeshGeometry] ([Common/d3dUtil.h]): the fields the applications store.
    [MeshName] is its [Name]. *)
Record MeshGeometry := mkMeshGeometry {
  MeshName : string;
  VertexByteStride : Z;
  VertexBufferByteSize : Z;
  IndexFormat : DXGI_FORMAT;
  IndexBufferByteSize : Z;
  DrawArgs : gmap string SubmeshGeometry }.

(** ** Memory

    A byte is an integer below 256.  [leBytes width z] is the object
    representation of a [width]-byte integer on the little-endian machines
    Direct3D 12 runs on, [memoryOf bytesOf l] the memory [l.data()] points to,
    element after element. *)
Definition leBytes (width : nat) (z : Z) : list Z :=
  map (λ i, (z / 256 ^ Z.of_nat i) mod 256) (seq 0 width).

Definition memoryOf {A : Type} (bytesOf : A → list Z) (l : list A) : list Z :=
  concat (map bytesOf l).

(** [D3DCreateBlob(n, &blob); CopyMemory(blob->GetBufferPointer(), src, n)]:
    the blob holds the first [n] bytes of the source. *)
Definition CopyMemory (src : list Z) (n : Z) : list Z := take (Z.to_nat n) src.

(** A geometry with the contents of its two system-memory blobs. *)
Record PackedGeometry := mkPacked {
  meshGeometry : MeshGeometry;
  VertexBufferCPU : list Z;
  IndexBufferCPU : list Z }.

Section ShapeGeometry.
(** [GV] is [GeometryGenerator::Vertex] and [V] the [Vertex] of the
    application; [toVertex] is the body of the copy loops (position and
    normal in the first application, and the texture coordinates as well in
    the second); [GetIndices16] is the accessor of [MeshData];
    [vertexBytes] is the object representation of a [Vertex] and
    [sizeofVertex] is [sizeof(Vertex)]. *)
Context {GV V : Type}.
Variable toVertex : GV → V.
Variable GetIndices16 : MeshData GV → list Z.
Variable vertexBytes : V → list Z.
Variable sizeofVertex : Z.

(** [(UINT)c.size()]. *)
Definition sizeUINT {A : Type} (l : list A) : Z := wrapUINT (Z.of_nat (length l)).

(** [BuildShapeGeometry], lines 493-706 of the first application and
    626-848 of the second. *)
Definition BuildShapeGeometry
    (box cylinder diamond cone wedge pyramid torus grid sphere : MeshData GV)
  : PackedGeometry :=
  let boxVertexOffset := 0 in
  let cylinderVertexOffset := sizeUINT (Vertices box) in
  let diamondVertexOffset := wrapUINT (cylinderVertexOffset + sizeUINT (Vertices cylinder)) in
  let coneVertexOffset := wrapUINT (diamondVertexOffset + sizeUINT (Vertices diamond)) in
  let wedgeVertexOffset := wrapUINT (coneVertexOffset + sizeUINT (Vertices cone)) in
  let pyramidVertexOffset := wrapUINT (wedgeVertexOffset + sizeUINT (Vertices wedge)) in
  let torusVertexOffset := wrapUINT (pyramidVertexOffset + sizeUINT (Vertices pyramid)) in
  let gridVertexOffset := wrapUINT (torusVertexOffset + sizeUINT (Vertices torus)) in
  let sphereVertexOffset := wrapUINT (gridVertexOffset + sizeUINT (Vertices grid)) in
  let boxIndexOffset := 0 in
  let cylinderIndexOffset := sizeUINT (Indices32 box) in
  let diamondIndexOffset := wrapUINT (cylinderIndexOffset + sizeUINT (Indices32 cylinder)) in
  let coneIndexOffset := wrapUINT (diamondIndexOffset + sizeUINT (Indices32 diamond)) in
  let wedgeIndexOffset := wrapUINT (coneIndexOffset + sizeUINT (Indices32 cone)) in
  let pyramidIndexOffset := wrapUINT (wedgeIndexOffset + sizeUINT (Indices32 wedge)) in
  let torusIndexOffset := wrapUINT (pyramidIndexOffset + sizeUINT (Indices32 pyramid)) in
  let gridIndexOffset := wrapUINT (torusIndexOffset + sizeUINT (Indices32 torus)) in
  let sphereIndexOffset := wrapUINT (gridIndexOffset + sizeUINT (Indices32 grid)) in
  let submesh (m : MeshData GV) (indexOffset vertexOffset : Z) :=
    {| IndexCount := sizeUINT (Indices32 m);
       StartIndexLocation := indexOffset;
       BaseVertexLocation := toINT vertexOffset |} in
  let boxSubmesh := submesh box boxIndexOffset boxVertexOffset in
  let cylinderSubmesh := submesh cylinder cylinderIndexOffset cylinderVertexOffset in
  let diamondSubmesh := submesh diamond diamondIndexOffset diamondVertexOffset in
  let coneSubmesh := submesh cone coneIndexOffset coneVertexOffset in
  let wedgeSubmesh := submesh wedge wedgeIndexOffset wedgeVertexOffset in
  let pyramidSubmesh := submesh pyramid pyramidIndexOffset pyramidVertexOffset in
  let torusSubmesh := submesh torus torusIndexOffset torusVertexOffset in
  let gridSubmesh := submesh grid gridIndexOffset gridVertexOffset in
  let sphereSubmesh := submesh sphere sphereIndexOffset sphereVertexOffset in
  let vertices :=
    map toVertex (Vertices box) ++ map toVertex (Vertices cylinder)
    ++ map toVertex (Vertices diamond) ++ map toVertex (Vertices cone)
    ++ map toVertex (Vertices wedge) ++ map toVertex (Vertices pyramid)
    ++ map toVertex (Vertices torus) ++ map toVertex (Vertices grid)
    ++ map toVertex (Vertices sphere) in
  let indices :=
    GetIndices16 box ++ GetIndices16 cylinder ++ GetIndices16 diamond ++ GetIndices16 cone
    ++ GetIndices16 wedge ++ GetIndices16 pyramid ++ GetIndices16 torus ++ GetIndices16 grid
    ++ GetIndices16 sphere in
  let vbByteSize := wrapUINT (sizeUINT vertices * sizeofVertex) in
  let ibByteSize := wrapUINT (sizeUINT indices * 2) in
  {| meshGeometry :=
       {| MeshName := "shapeGeo";
          VertexByteStride := sizeofVertex;
          VertexBufferByteSize := vbByteSize;
          IndexFormat := DXGI_FORMAT_R16_UINT;
          IndexBufferByteSize := ibByteSize;
          DrawArgs :=
            <["sphere" := sphereSubmesh]> (<["grid" := gridSubmesh]>
            (<["torus" := torusSubmesh]> (<["pyramid" := pyramidSubmesh]>
            (<["wedge" := wedgeSubmesh]> (<["cone" := coneSubmesh]>
            (<["diamond" := diamondSubmesh]> (<["cylinder" := cylinderSubmesh]>
            (<["box" := boxSubmesh]> ∅)))))))) |};
     VertexBufferCPU := CopyMemory (memoryOf vertexBytes vertices) vbByteSize;
     IndexBufferCPU := CopyMemory (memoryOf (leBytes 2) indices) ibByteSize |}.

(** The shapes by the keys they are registered under. *)
Definition shapeTable
    (box cylinder diamond cone wedge pyramid torus grid sphere : MeshData GV)
  : list (string * MeshData GV) :=
  [("box", box); ("cylinder", cylinder); ("diamond", diamond); ("cone", cone);
   ("wedge", wedge); ("pyramid", pyramid); ("torus", torus); ("grid", grid);
   ("sphere", sphere)].
End ShapeGeometry.

(** The numbers of vertices and of indices of a list of meshes. *)
Definition totalVertices {GV : Type} (meshes : list (MeshData GV)) : Z :=
  Z.of_nat (length (concat (map Vertices meshes))).

Definition totalIndices {GV : Type} (meshes : list (MeshData GV)) : Z :=
  Z.of_nat (length (concat (map Indices32 meshes))).

(** [count] elements of a buffer from position [start] on. *)
Definition slice {A : Type} (start count : Z) (l : list A) : list A :=
  take (Z.to_nat count) (drop (Z.to_nat start) l).

(** ** The skull and the tree sprites *)

(** What [BuildSkullGeometry] has read from [Models/skull.txt] when its two
    loops are over: the two counts of the header, the vertices and the
    indices. *)
Record SkullFile (V : Type) := mkSkullFile {
  vcount : Z;
  tcount : Z;
  skullVertex : nat → V;
  skullIndex : nat → Z }.
Arguments vcount {V} _.
Arguments tcount {V} _.
Arguments skullVertex {V} _ _.
Arguments skullIndex {V} _ _.

(** [mGeometries]. *)
Abbreviation Geometries := (gmap string MeshGeometry) (only parsing).

Section OtherGeometry.
Context {V TV : Type}.
Variable vertexBytes : V → list Z.
Variable sizeofVertex : Z.
Variable treeVertexBytes : TV → list Z.
Variable sizeofTreeSpriteVertex : Z.

(** [BuildSkullGeometry], lines 708-781 (850-923 in the second
    application).  [fin] is [None] when the file cannot be opened: the
    function shows a message box and returns, and [mGeometries] stays as it
    is.  The vector of the indices has [3 * tcount] elements, a [UINT]
    product; where it wraps, the loop over the [tcount] triangles writes past
    the end of the vector, and the result is [None]. *)
Definition BuildSkullGeometry (fin : option (SkullFile V)) (mGeometries : Geometries)
  : option (Geometries * option PackedGeometry) :=
  match fin with
  | None => Some (mGeometries, None)
  | Some f =>
      let vcount := wrapUINT (vcount f) in
      let tcount := wrapUINT (tcount f) in
      let vertices := map (skullVertex f) (seq 0 (Z.to_nat vcount)) in
      if 3 * tcount <? 4294967296 then
        let indices := map (skullIndex f) (seq 0 (Z.to_nat (wrapUINT (3 * tcount)))) in
        let vbByteSize := wrapUINT (sizeUINT vertices * sizeofVertex) in
        let ibByteSize := wrapUINT (sizeUINT indices * 4) in
        let submesh :=
          {| IndexCount := sizeUINT indices;
             StartIndexLocation := 0;
             BaseVertexLocation := 0 |} in
        let geo :=
          {| MeshName := "skullGeo";
             VertexByteStride := sizeofVertex;
             VertexBufferByteSize := vbByteSize;
             IndexFormat := DXGI_FORMAT_R32_UINT;
             IndexBufferByteSize := ibByteSize;
             DrawArgs := <["skull" := submesh]> ∅ |} in
        Some (<["skullGeo" := geo]> mGeometries,
              Some {| meshGeometry := geo;
                      VertexBufferCPU := CopyMemory (memoryOf vertexBytes vertices) vbByteSize;
                      IndexBufferCPU := CopyMemory (memoryOf (leBytes 4) indices) ibByteSize |})
      else None
  end.

(** [BuildTreeSpritesGeometry], lines 925-1007 of the second application.
    [treeVertex i] is the [i]-th vertex, at its random position. *)
Definition BuildTreeSpritesGeometry (treeVertex : nat → TV) (mGeometries : Geometries)
  : Geometries * PackedGeometry :=
  let vertices := map treeVertex (seq 0 16) in
  let indices := [0; 1; 2; 3; 4; 5; 6; 7; 8; 9; 10; 11; 12; 13; 14; 15] in
  let vbByteSize := wrapUINT (sizeUINT vertices * sizeofTreeSpriteVertex) in
  let ibByteSize := wrapUINT (sizeUINT indices * 2) in
  let submesh :=
    {| IndexCount := sizeUINT indices;
       StartIndexLocation := 0;
       BaseVertexLocation := 0 |} in
  let geo :=
    {| MeshName := "treeSpritesGeo";
       VertexByteStride := sizeofTreeSpriteVertex;
       VertexBufferByteSize := vbByteSize;
       IndexFormat := DXGI_FORMAT_R16_UINT;
       IndexBufferByteSize := ibByteSize;
       DrawArgs := <["points" := submesh]> ∅ |} in
  (<["treeSpritesGeo" := geo]> mGeometries,
   {| meshGeometry := geo;
      VertexBufferCPU := CopyMemory (memoryOf treeVertexBytes vertices) vbByteSize;
      IndexBufferCPU := CopyMemory (memoryOf (leBytes 2) indices) ibByteSize |}).
End OtherGeometry.

(** [mGeometries[geo->Name] = std::move(geo)] at the end of
    [BuildShapeGeometry]. *)
Definition registerShapes (shapes : PackedGeometry) (mGeometries : Geometries)
  : Geometries :=
  <[MeshName (meshGeometry shapes) := meshGeometry shapes]> mGeometries.

(** ** [mGeometries] as [Initialize] fills it

    [Initialize] calls [BuildShapeGeometry], [BuildSkullGeometry] and, in the
    second application, [BuildTreeSpritesGeometry], in this order, on the
    empty table. *)
Section InitializeGeometries.
Context {GV V TV : Type}.
Variable toVertex : GV → V.
Variable GetIndices16 : MeshData GV → list Z.
Variable vertexBytes : V → list Z.
Variable sizeofVertex : Z.
Variable treeVertexBytes : TV → list Z.
Variable sizeofTreeSpriteVertex : Z.
Variables box cylinder diamond cone wedge pyramid torus grid sphere : MeshData GV.
Variable fin : option (SkullFile V).
Variable treeVertex : nat → TV.

Definition castleGeometries : option Geometries :=
  let shapes := BuildShapeGeometry toVertex GetIndices16 vertexBytes sizeofVertex
                  box cylinder diamond cone wedge pyramid torus grid sphere in
  r ← BuildSkullGeometry vertexBytes sizeofVertex fin (registerShapes shapes ∅);
  Some r.1.

Definition mazeGeometries : option Geometries :=
  mGeometries ← castleGeometries;
  Some (BuildTreeSpritesGeometry treeVertexBytes sizeofTreeSpriteVertex treeVertex
          mGeometries).1.
End InitializeGeometries.

(** * Render items with their draw arguments *)

Inductive D3D_PRIMITIVE_TOPOLOGY :=
  | D3D11_PRIMITIVE_TOPOLOGY_POINTLIST
  | D3D11_PRIMITIVE_TOPOLOGY_TRIANGLELIST.

Inductive RenderLayer := Opaque | Transparent | AlphaTested | AlphaTestedTreeSprites.

Global Instance RenderLayer_eq_dec : EqDecision RenderLayer.
Proof. solve_decision. Defined.

(** The fields of [struct RenderItem] that [DrawRenderItems] alone reads:
    [PrimitiveType], [IndexCount], [StartIndexLocation] and
    [BaseVertexLocation].  They are set once, by [BuildRenderItems]. *)
Record DrawArguments := mkDrawArguments {
  PrimitiveType : D3D_PRIMITIVE_TOPOLOGY;
  riIndexCount : Z;
  riStartIndexLocation : Z;
  riBaseVertexLocation : Z }.

(** The three loads [ri->Geo->DrawArgs[submesh].IndexCount], ... of a block.
    [ri->Geo] is [mGeometries[geo].get()]: a null pointer when the table has
    no geometry under that key, and the loads through it fail.  A submesh key
    that is missing is default-constructed by [operator[]]. *)
Definition loadDrawArguments (mGeometries : Geometries) (geo submesh : string)
    (topology : D3D_PRIMITIVE_TOPOLOGY) : option DrawArguments :=
  g ← mGeometries !! geo;
  let sm := default (mkSubmesh 0 0 0) (DrawArgs g !! submesh) in
  Some {| PrimitiveType := topology;
          riIndexCount := IndexCount sm;
          riStartIndexLocation := StartIndexLocation sm;
          riBaseVertexLocation := BaseVertexLocation sm |}.

(** What [BuildRenderItems] builds: [mAllRitems] with the running
    [objCBIndex], the draw arguments of each render item, and [mRitemLayer],
    each layer as the positions in [mAllRitems] of the items it points to. *)
Record Scene := mkScene {
  sBuilder : Builder;
  sDrawArgs : list DrawArguments;
  mRitemLayer : RenderLayer → list nat }.

Definition emptyScene : Scene :=
  {| sBuilder := (0, []); sDrawArgs := []; mRitemLayer := λ _, [] |}.

(** [objCBIndex = n;] *)
Definition setObjCBIndex (n : Z) (sc : Scene) : Scene :=
  {| sBuilder := (n, (sBuilder sc).2);
     sDrawArgs := sDrawArgs sc;
     mRitemLayer := mRitemLayer sc |}.

(** [mRitemLayer[layer].push_back(ri.get())], for the item that is pushed
    next onto [mAllRitems]. *)
Definition pushLayer (layer : option RenderLayer) (sc : Scene) : RenderLayer → list nat :=
  match layer with
  | None => mRitemLayer sc
  | Some l =>
      λ l', if decide (l' = l)
            then mRitemLayer sc l' ++ [length (sBuilder sc).2]
            else mRitemLayer sc l'
  end.

(** One block of [BuildRenderItems]: [push] stores the fields of the render
    item the refresh reads and pushes it; the block loads the draw arguments
    first. *)
Definition place (mGeometries : Geometries) (layer : option RenderLayer)
    (geo submesh : string) (topology : D3D_PRIMITIVE_TOPOLOGY)
    (push : Builder → Builder) (sc : Scene) : option Scene :=
  a ← loadDrawArguments mGeometries geo submesh topology;
  Some {| sBuilder := push (sBuilder sc);
          sDrawArgs := sDrawArgs sc ++ [a];
          mRitemLayer := pushLayer layer sc |}.

(** Blocks in sequence, and a counted loop over a body. *)
Fixpoint blocks (bs : list (Scene → option Scene)) (sc : Scene) : option Scene :=
  match bs with
  | [] => Some sc
  | b :: rest => sc' ← b sc; blocks rest sc'
  end.

Fixpoint timesM (n : nat) (body : Scene → option Scene) (sc : Scene) : option Scene :=
  match n with
  | O => Some sc
  | S n' => sc' ← body sc; timesM n' body sc'
  end.

Section AuthoringWithDraw.
Variable world tex : nat → XMFLOAT4X4.
Variable mGeometries : Geometries.

Definition placeFixed (layer : option RenderLayer) (objCBIndex : Z)
    (mat geo submesh : string) : Scene → option Scene :=
  place mGeometries layer geo submesh D3D11_PRIMITIVE_TOPOLOGY_TRIANGLELIST
        (pushFixed world tex objCBIndex mat geo).

Definition placeNext (layer : option RenderLayer) (mat geo submesh : string)
  : Scene → option Scene :=
  place mGeometries layer geo submesh D3D11_PRIMITIVE_TOPOLOGY_TRIANGLELIST
        (pushNext world tex mat geo).

(** One iteration of the loop of the pyramids: left, right, back, front. *)
Definition pyramidRowDraw (layer : option RenderLayer) (mat : string) : Scene → option Scene :=
  timesM 4 (placeNext layer mat "shapeGeo" "pyramid").

(** One iteration of the loop of the towers: eight wedges, sixteen spires
    (boxes) and two cylinders. *)
Definition towerPairDraw (layer : option RenderLayer) (mat : string) (sc : Scene)
  : option Scene :=
  sc1 ← timesM 8 (placeNext layer mat "shapeGeo" "wedge") sc;
  sc2 ← timesM 16 (placeNext layer mat "shapeGeo" "box") sc1;
  timesM 2 (placeNext layer mat "shapeGeo" "cylinder") sc2.
End AuthoringWithDraw.

Module CastleDraw.
Section Scene.
Variable world tex : nat → XMFLOAT4X4.
Variable mGeometries : Geometries.

(** [BuildRenderItems] of the first application, lines 883-1450, with the
    draw arguments.  The last loop makes [mOpaqueRitems] point to every
    render item, in the order of [mAllRitems]. *)
Definition BuildRenderItems : option (Scene * list nat) :=
  let fixed := placeFixed world tex mGeometries None in
  sc1 ← blocks [ fixed 0 "stone0" "shapeGeo" "box";
                 fixed 1 "stone0" "shapeGeo" "cylinder";
                 fixed 2 "diamondMat" "shapeGeo" "diamond";
                 fixed 3 "diamondMatRed" "shapeGeo" "diamond";
                 fixed 4 "diamondMat" "shapeGeo" "cone";
                 fixed 5 "bricks0" "shapeGeo" "cylinder";
                 fixed 6 "skullMat" "shapeGeo" "box";
                 fixed 7 "bricks0" "shapeGeo" "cylinder";
                 fixed 8 "diamondMat" "shapeGeo" "torus";
                 fixed 9 "diamondMatRed" "shapeGeo" "box";
                 fixed 10 "tile0" "shapeGeo" "grid";
                 fixed 11 "skullMat" "skullGeo" "skull" ] emptyScene;
  sc2 ← timesM 8 (pyramidRowDraw world tex mGeometries None "bricks0") (setObjCBIndex 12 sc1);
  sc3 ← timesM 2 (towerPairDraw world tex mGeometries None "bricks0") (setObjCBIndex 44 sc2);
  let mOpaqueRitems := seq 0 (length (sBuilder sc3).2) in
  Some (sc3, mOpaqueRitems).
End Scene.
End CastleDraw.

Module MazeDraw.
Section Scene.
Variable world tex : nat → XMFLOAT4X4.
Variable rand : nat → Z.
Variable mGeometries : Geometries.

Definition wall : Scene → option Scene :=
  placeNext world tex mGeometries (Some Opaque) "stone0" "shapeGeo" "box".

(** One iteration of a border loop: two walls. *)
Definition borderPairDraw : Scene → option Scene := timesM 2 wall.

(** One cell of the nested loop; the first component counts the calls of
    [rand]. *)
Definition mazeCellDraw (st : nat * Scene) : option (nat * Scene) :=
  let '(calls, sc) := st in
  sc1 ← (if 1 <? Z.rem (rand calls) 5 then wall sc else Some sc);
  sc2 ← (if 1 <? Z.rem (rand (S calls)) 5 then wall sc1 else Some sc1);
  Some (S (S calls), sc2).

Fixpoint mazeCellsDraw (n : nat) (st : nat * Scene) : option (nat * Scene) :=
  match n with
  | O => Some st
  | S n' => st' ← mazeCellDraw st; mazeCellsDraw n' st'
  end.

(** The block of the tree sprites, lines 2006-2016. *)
Definition treeSprites : Scene → option Scene :=
  place mGeometries (Some AlphaTestedTreeSprites) "treeSpritesGeo" "points"
        D3D11_PRIMITIVE_TOPOLOGY_POINTLIST
        (λ b, (b.1, b.2 ++ [Maze.treeSpritesRitem])).

(** [BuildRenderItems] of the second application, lines 1258-2021, with the
    draw arguments and the layers. *)
Definition BuildRenderItems : option Scene :=
  let fixed := placeFixed world tex mGeometries in
  sc1 ← blocks [ fixed (Some Opaque) 0 "bricks0" "shapeGeo" "box";
                 fixed (Some AlphaTested) 1 "tile0" "shapeGeo" "torus";
                 fixed (Some Opaque) 2 "grassMat" "shapeGeo" "grid";
                 fixed (Some Opaque) 3 "stone0" "shapeGeo" "cylinder";
                 fixed (Some Opaque) 4 "stone0" "shapeGeo" "diamond";
                 fixed (Some Opaque) 5 "stone0" "shapeGeo" "diamond";
                 fixed (Some Opaque) 6 "stone0" "shapeGeo" "cone";
                 fixed (Some Opaque) 7 "stone0" "shapeGeo" "cylinder";
                 fixed (Some Opaque) 8 "stone0" "shapeGeo" "box";
                 fixed (Some Opaque) 9 "tile0" "shapeGeo" "cylinder";
                 fixed (Some Opaque) 10 "bricks0" "shapeGeo" "box";
                 fixed (Some Opaque) 11 "stone0" "skullGeo" "skull" ] emptyScene;
  sc2 ← timesM 8 (pyramidRowDraw world tex mGeometries (Some Opaque) "stone0")
               (setObjCBIndex 12 sc1);
  sc3 ← timesM 2 (towerPairDraw world tex mGeometries (Some Opaque) "stone0")
               (setObjCBIndex 44 sc2);
  let steps := 6%nat in
  sc4 ← timesM steps borderPairDraw (setObjCBIndex (44 + 52) sc3);
  sc5 ← timesM steps borderPairDraw sc4;
  st6 ← mazeCellsDraw (steps * steps) (O, sc5);
  let sc6 := st6.2 in
  treeSprites (setObjCBIndex (wrapUINT ((sBuilder sc6).1 + 1)) sc6).
End Scene.
End MazeDraw.

(** * The command list of a frame

    The calls [Draw] and [DrawRenderItems] record on [mCommandList], in
    order. *)

Inductive D3D12_RESOURCE_STATES :=
  | D3D12_RESOURCE_STATE_PRESENT
  | D3D12_RESOURCE_STATE_RENDER_TARGET.

Inductive Command :=
  | ResetList (pInitialState : string)
  | RSSetViewports
  | RSSetScissorRects
  | ResourceBarrier (StateBefore StateAfter : D3D12_RESOURCE_STATES)
  | ClearRenderTargetView
  | ClearDepthStencilView
  | OMSetRenderTargets
  | SetDescriptorHeaps
  | SetGraphicsRootSignature
  | SetPipelineState (pso : string)
  | SetGraphicsRootConstantBufferView (RootParameterIndex : Z) (BufferLocation : Z)
  | SetGraphicsRootDescriptorTable (RootParameterIndex : Z) (BaseDescriptor : Z)
  | IASetVertexBuffers (geo : string)
  | IASetIndexBuffer (geo : string)
  | IASetPrimitiveTopology (PrimitiveTopology : D3D_PRIMITIVE_TOPOLOGY)
  | DrawIndexedInstanced (IndexCountPerInstance InstanceCount StartIndexLocation
                          BaseVertexLocation StartInstanceLocation : Z)
  | Close.

(** [ri->Mat]: the material registered under the key the pointer was taken
    from; [None] is the null pointer. *)
Definition materialOf (s : App) (ri : RenderItem) : option Material :=
  key ← Mat ri;
  snd <$> list_find (λ m, Name m = key) (mMaterials s).

Section Drawing.
(** The GPU virtual addresses of the object and material upload buffers of
    each frame resource, and [d3dUtil::CalcConstantBufferByteSize] of the two
    records: values the device and a header outside the sources supply. *)
Variable objectCBAddress matCBAddress : nat → Z.
Variable objCBByteSize matCBByteSize : Z.

(** The two addresses computed in the loop of [DrawRenderItems]: a [UINT]
    product added to a 64-bit address. *)
Definition objCBAddressOf (k : nat) (ri : RenderItem) : Z :=
  wrapUINT64 (objectCBAddress k + wrapUINT (ObjCBIndex ri * objCBByteSize)).

Definition matCBAddressOf (k : nat) (mat : Material) : Z :=
  wrapUINT64 (matCBAddress k + wrapUINT (MatCBIndex mat * matCBByteSize)).

(** [forEachItem body ritems]: the loop of [DrawRenderItems] over the
    pointers [ritems], positions in [mAllRitems]; it stops at the first
    failure. *)
Fixpoint forEachItem (body : nat → option (list Command)) (ritems : list nat)
  : option (list Command) :=
  match ritems with
  | [] => Some []
  | p :: rest => c ← body p; cs ← forEachItem body rest; Some (c ++ cs)
  end.
End Drawing.

Module CastleCommands.
Section Frame.
Variable objectCBAddress matCBAddress passCBAddress : nat → Z.
Variable objCBByteSize matCBByteSize : Z.
Variable drawArgs : list DrawArguments.

(** The body of the loop of [DrawRenderItems], lines 1461-1476. *)
Definition DrawRenderItem (s : App) (k : nat) (p : nat) : option (list Command) :=
  ri ← mAllRitems s !! p;
  a ← drawArgs !! p;
  geo ← Geo ri;
  mat ← materialOf s ri;
  Some [ IASetVertexBuffers geo;
         IASetIndexBuffer geo;
         IASetPrimitiveTopology (PrimitiveType a);
         SetGraphicsRootConstantBufferView 0
           (objCBAddressOf objectCBAddress objCBByteSize k ri);
         SetGraphicsRootConstantBufferView 1
           (matCBAddressOf matCBAddress matCBByteSize k mat);
         DrawIndexedInstanced (riIndexCount a) 1 (riStartIndexLocation a)
                              (riBaseVertexLocation a) 0 ].

Definition DrawRenderItems (s : App) (ritems : list nat) : option (list Command) :=
  '(k, _) ← currFrameResource s;
  forEachItem (DrawRenderItem s k) ritems.

(** What [Draw] records, lines 240-268. *)
Definition DrawCommands (mOpaqueRitems : list nat) (s : App) : option (list Command) :=
  '(k, _) ← currFrameResource s;
  draws ← DrawRenderItems s mOpaqueRitems;
  Some ([ ResetList "opaque";
          RSSetViewports;
          RSSetScissorRects;
          ResourceBarrier D3D12_RESOURCE_STATE_PRESENT D3D12_RESOURCE_STATE_RENDER_TARGET;
          ClearRenderTargetView;
          ClearDepthStencilView;
          OMSetRenderTargets;
          SetGraphicsRootSignature;
          SetGraphicsRootConstantBufferView 2 (passCBAddress k) ]
        ++ draws
        ++ [ ResourceBarrier D3D12_RESOURCE_STATE_RENDER_TARGET D3D12_RESOURCE_STATE_PRESENT;
             Close ]).
End Frame.
End CastleCommands.

Module MazeCommands.
Section Frame.
Variable objectCBAddress matCBAddress passCBAddress : nat → Z.
Variable objCBByteSize matCBByteSize : Z.
Variable srvHeapStart mCbvSrvDescriptorSize : Z.
Variable drawArgs : list DrawArguments.

(** The body of the loop of [DrawRenderItems], lines 2032-2053.  [tex] is
    the handle of the heap start moved on by [DiffuseSrvHeapIndex]
    descriptors. *)
Definition DrawRenderItem (s : App) (k : nat) (p : nat) : option (list Command) :=
  ri ← mAllRitems s !! p;
  a ← drawArgs !! p;
  geo ← Geo ri;
  mat ← materialOf s ri;
  let tex := wrapUINT64 (srvHeapStart + DiffuseSrvHeapIndex mat * mCbvSrvDescriptorSize) in
  Some [ IASetVertexBuffers geo;
         IASetIndexBuffer geo;
         IASetPrimitiveTopology (PrimitiveType a);
         SetGraphicsRootDescriptorTable 0 tex;
         SetGraphicsRootConstantBufferView 1
           (objCBAddressOf objectCBAddress objCBByteSize k ri);
         SetGraphicsRootConstantBufferView 3
           (matCBAddressOf matCBAddress matCBByteSize k mat);
         DrawIndexedInstanced (riIndexCount a) 1 (riStartIndexLocation a)
                              (riBaseVertexLocation a) 0 ].

Definition DrawRenderItems (s : App) (ritems : list nat) : option (list Command) :=
  '(k, _) ← currFrameResource s;
  forEachItem (DrawRenderItem s k) ritems.

(** What [Draw] records, lines 267-308. *)
Definition DrawCommands (mRitemLayer : RenderLayer → list nat) (s : App)
  : option (list Command) :=
  '(k, _) ← currFrameResource s;
  opaque ← DrawRenderItems s (mRitemLayer Opaque);
  alphaTested ← DrawRenderItems s (mRitemLayer AlphaTested);
  treeSprites ← DrawRenderItems s (mRitemLayer AlphaTestedTreeSprites);
  transparent ← DrawRenderItems s (mRitemLayer Transparent);
  Some ([ ResetList "opaque";
          RSSetViewports;
          RSSetScissorRects;
          ResourceBarrier D3D12_RESOURCE_STATE_PRESENT D3D12_RESOURCE_STATE_RENDER_TARGET;
          ClearRenderTargetView;
          ClearDepthStencilView;
          OMSetRenderTargets;
          SetDescriptorHeaps;
          SetGraphicsRootSignature;
          SetGraphicsRootConstantBufferView 2 (passCBAddress k) ]
        ++ opaque
        ++ [SetPipelineState "alphaTested"] ++ alphaTested
        ++ [SetPipelineState "treeSprites"] ++ treeSprites
        ++ [SetPipelineState "transparent"] ++ transparent
        ++ [ ResourceBarrier D3D12_RESOURCE_STATE_RENDER_TARGET D3D12_RESOURCE_STATE_PRESENT;
             Close ]).
End Frame.
End MazeCommands.

(** The draw calls of a command list, in order. *)
Definition is_draw (c : Command) : bool :=
  match c with DrawIndexedInstanced _ _ _ _ _ => true | _ => false end.

Definition drawCallOf (a : DrawArguments) : Command :=
  DrawIndexedInstanced (riIndexCount a) 1 (riStartIndexLocation a) (riBaseVertexLocation a) 0.

(** The switches of the pipeline state, and the draw calls together with
    them, in the order of the command list. *)
Definition is_switch (c : Command) : bool :=
  match c with SetPipelineState _ => true | _ => false end.

Definition drawsAndSwitches (cmds : list Command) : list Command :=
  List.filter (λ c, is_draw c || is_switch c) cmds.

(** The draw arguments of the render items a list of pointers points to. *)
Definition argumentsAt (drawArgs : list DrawArguments) (ritems : list nat)
  : list DrawArguments :=
  omap (λ p, drawArgs !! p) ritems.

(** ** What a built scene satisfies *)

(** The draw arguments are those of the submesh [submesh] of the geometry
    registered under [geo]. *)
Definition argumentsOf (mGeometries : Geometries) (geo submesh : string)
    (a : DrawArguments) : Prop :=
  ∃ g sm, mGeometries !! geo = Some g
          ∧ DrawArgs g !! submesh = Some sm
          ∧ riIndexCount a = IndexCount sm
          ∧ riStartIndexLocation a = StartIndexLocation sm
          ∧ riBaseVertexLocation a = BaseVertexLocation sm.

(** The render item points to a geometry of the table, and its draw
    arguments are those of a submesh of that geometry; the item is a point
    list exactly when the geometry is the one of the tree sprites. *)
Definition drawsSubmesh (mGeometries : Geometries) (e : RenderItem) (a : DrawArguments)
  : Prop :=
  ∃ geo submesh,
    Geo e = Some geo
    ∧ argumentsOf mGeometries geo submesh a
    ∧ (PrimitiveType a = D3D11_PRIMITIVE_TOPOLOGY_POINTLIST ↔ geo = "treeSpritesGeo").

(** The positions a list of layer tags gives a layer. *)
Fixpoint positionsFrom (start : nat) (l : RenderLayer) (tags : list (option RenderLayer))
  : list nat :=
  match tags with
  | [] => []
  | t :: rest =>
      (if decide (t = Some l) then [start] else []) ++ positionsFrom (S start) l rest
  end.

(** A scene under construction: its builder, one draw-argument record per
    render item pushed, every one that of a submesh of the item's geometry,
    and the layers as the tags of the items tell. *)
Record SceneInv (mGeometries : Geometries) (sc : Scene) (b : Builder)
    (tags : list (option RenderLayer)) : Prop := {
  inv_builder : sBuilder sc = b;
  inv_tags : length tags = length b.2;
  inv_args : Forall2 (drawsSubmesh mGeometries) b.2 (sDrawArgs sc);
  inv_layers : ∀ l, mRitemLayer sc l = positionsFrom 0 l tags }.

(** A geometry table that holds the submeshes the blocks ask for. *)
Definition hasSubmeshes (mGeometries : Geometries) (geo : string) (keys : list string) : Prop :=
  ∃ g, mGeometries !! geo = Some g ∧ Forall (λ k, is_Some (DrawArgs g !! k)) keys.

Definition shapeKeys : list string :=
  ["box"; "cylinder"; "diamond"; "cone"; "wedge"; "pyramid"; "torus"; "grid"; "sphere"].

(** A part of [BuildRenderItems] that, on a scene under construction,
    succeeds, moves the builder by [fb] and tags the items it pushes with
    [ts]. *)
Definition Builds (mGeometries : Geometries) (f : Scene → option Scene)
    (fb : Builder → Builder) (ts : list (option RenderLayer)) : Prop :=
  ∀ sc b tags,
    SceneInv mGeometries sc b tags →
    ∃ sc', f sc = Some sc' ∧ SceneInv mGeometries sc' (fb b) (tags ++ ts).

(** ** Further sample states and inputs *)

(** The first frame resource of the maze, three frames after initialisation. *)
Definition mazeSettledSlot : FrameResource := castleSlot (mazeAfter threeFrames) 0.

(** The maze with its materials held in the reverse of the order in which
    [BuildMaterials] inserts them, three frames after initialisation. *)
Definition mazeReversed0 : App := Initialize mazeItems (reverse mazeMats) 1.
Definition mazeReversed : App := default mazeReversed0 (run threeFrames mazeReversed0).


(** A mesh of [v] vertices, numbered, and [t] triangles over the first three
    of them; the 16-bit indices of a mesh; a vertex of 32 bytes. *)
Definition sampleMesh (v t : nat) : MeshData nat :=
  mkMeshData (seq 0 v) (concat (replicate t [0; 1; 2])).

Definition sampleIndices16 (m : MeshData nat) : list Z :=
  map (λ i, i mod 65536) (Indices32 m).

Definition sampleVertexBytes (v : nat) : list Z := leBytes 32 (Z.of_nat v).

(** A skull of one triangle, and the geometry tables [Initialize] fills from
    it and from small meshes. *)
Definition sampleSkull : SkullFile nat :=
  {| vcount := 3; tcount := 1; skullVertex := id; skullIndex := Z.of_nat |}.

Definition sampleCastleGeometries : Geometries :=
  default ∅
    (castleGeometries id sampleIndices16 sampleVertexBytes 32
       (sampleMesh 24 12) (sampleMesh 8 4) (sampleMesh 6 8) (sampleMesh 5 6)
       (sampleMesh 6 8) (sampleMesh 5 6) (sampleMesh 16 32) (sampleMesh 4 2)
       (sampleMesh 12 20) (Some sampleSkull)).

Definition sampleMazeGeometries : Geometries :=
  default ∅
    (mazeGeometries id sampleIndices16 sampleVertexBytes 32 (leBytes 20) 20
       (sampleMesh 24 12) (sampleMesh 8 4) (sampleMesh 6 8) (sampleMesh 5 6)
       (sampleMesh 6 8) (sampleMesh 5 6) (sampleMesh 16 32) (sampleMesh 4 2)
       (sampleMesh 12 20) (Some sampleSkull) Z.of_nat).

(** Addresses of the upload buffers of the three frame resources. *)
Definition sampleAddress (base : Z) (k : nat) : Z := base + 65536 * Z.of_nat k.

(** * Lemmas *)

(** Case analysis on every integer comparison of the goal and the context. *)
Ltac zbool :=
  repeat first
    [ match goal with |- context [?x <=? ?y] => destruct (Z.leb_spec x y) end
    | match goal with |- context [?x <? ?y] => destruct (Z.ltb_spec x y) end
    | match goal with |- context [?x =? ?y] => destruct (Z.eqb_spec x y) end
    | match goal with _ : context [?x <=? ?y] |- _ => destruct (Z.leb_spec x y) end
    | match goal with _ : context [?x <? ?y] |- _ => destruct (Z.ltb_spec x y) end
    | match goal with _ : context [?x =? ?y] |- _ => destruct (Z.eqb_spec x y) end ].

(** ** Arithmetic of the ring *)

Lemma rem3_mod (i : Z) : 0 ≤ i → Z.rem i gNumFrameResources = i mod gNumFrameResources.
Proof. intros. apply Z.rem_mod_nonneg; unfold gNumFrameResources; lia. Qed.

Lemma mod3_succ (n : Z) : (n mod 3 + 1) mod 3 = (n + 1) mod 3.
Proof. rewrite Zplus_mod_idemp_l. reflexivity. Qed.

Lemma mod3_cases (n : Z) : n mod 3 = 0 ∨ n mod 3 = 1 ∨ n mod 3 = 2.
Proof. pose proof (Z.mod_pos_bound n 3). lia. Qed.

Lemma slotFence_step (f0 n k : Z) :
  0 ≤ n → 0 ≤ k < 3 →
  slotFence f0 (n + 1) k = if (n + 1) mod 3 =? k then f0 + (n + 1) else slotFence f0 n k.
Proof.
  intros Hn Hk. unfold slotFence, gNumFrameResources.
  destruct (Z.eqb_spec ((n + 1) mod 3) k);
    repeat match goal with |- context [1 <=? ?j] => destruct (Z.leb_spec 1 j) end;
    Z.to_euclidean_division_equations; lia.
Qed.

(** ** Upload buffers *)

Lemma CopyData_Some {T} (ub : UploadBuffer T) (i : Z) (x : T) :
  0 ≤ i < capacity ub → CopyData ub i x = Some (<[Z.to_nat i := Some x]> ub).
Proof.
  intros [H1 H2]. unfold CopyData.
  destruct (Z.leb_spec 0 i); [|lia]. destruct (Z.ltb_spec i (capacity ub)); [|lia].
  reflexivity.
Qed.

Lemma CopyData_inv {T} (ub ub' : UploadBuffer T) (i : Z) (x : T) :
  CopyData ub i x = Some ub' →
  0 ≤ i < capacity ub ∧ ub' = <[Z.to_nat i := Some x]> ub.
Proof.
  unfold CopyData.
  destruct (Z.leb_spec 0 i); destruct (Z.ltb_spec i (capacity ub)); simpl;
    intros; simplify_eq; auto.
Qed.

Lemma CopyData_capacity {T} (ub ub' : UploadBuffer T) (i : Z) (x : T) :
  CopyData ub i x = Some ub' → capacity ub' = capacity ub.
Proof.
  intros [_ ->]%CopyData_inv. unfold capacity. by rewrite length_insert.
Qed.

Lemma capacity_create {T} (n : Z) : 0 ≤ n → capacity (@UploadBuffer_create T n) = n.
Proof. intros. unfold capacity, UploadBuffer_create. rewrite length_replicate. lia. Qed.

(** ** The refresh pass in closed form *)
Section RefreshPassFacts.
Context {E T : Type}.
Variable dirty : E → Z.
Variable setDirty : Z → E → E.
Variable index : E → Z.
Variable record : E → T.
Variable call : nat → Z → Event.

Hypothesis dirty_set : ∀ n e, dirty (setDirty n e) = n.
Hypothesis index_set : ∀ n e, index (setDirty n e) = index e.
Hypothesis record_set : ∀ n e, record (setDirty n e) = record e.
Hypothesis set_set : ∀ n m e, setDirty n (setDirty m e) = setDirty n e.

Abbreviation pass := (refreshPass dirty setDirty index record call).

Lemma stores_length (es : list E) (cb : UploadBuffer T) :
  length (stores index record es cb) = length cb.
Proof.
  revert cb. induction es as [|e es IH]; intros cb; simpl; [done|].
  by rewrite IH, length_insert.
Qed.

(** A pass over entities that are all clean changes nothing and makes no call. *)
Lemma refreshPass_clean (p : nat) (es : list E) (cb : UploadBuffer T) :
  Forall (λ e, dirty e ≤ 0) es → pass p es cb = Some (es, cb, []).
Proof.
  revert p. induction es as [|e es IH]; intros p Hall; simpl; [done|].
  inversion Hall as [|? ? He Hes]; subst.
  destruct (Z.ltb_spec 0 (dirty e)); [lia|].
  by rewrite (IH _ Hes).
Qed.

(** A pass over entities that all carry the count [d > 0] stores every
    record, calls once per entity, and leaves the count [d - 1]. *)
Lemma refreshPass_dirty (d : Z) (p : nat) (es0 : list E) (cb : UploadBuffer T) :
  0 < d →
  Forall (λ e, 0 ≤ index e < capacity cb) es0 →
  pass p (map (setDirty d) es0) cb
  = Some (map (setDirty (d - 1)) es0, stores index record es0 cb, copies index call p es0).
Proof.
  intros Hd. revert p cb. induction es0 as [|e es IH]; intros p cb Hall; simpl; [done|].
  inversion Hall as [|? ? He Hes]; subst.
  rewrite dirty_set. destruct (Z.ltb_spec 0 d); [|lia].
  rewrite index_set, record_set, (CopyData_Some _ _ _ He). simpl.
  rewrite IH.
  - simpl. by rewrite set_set.
  - eapply Forall_impl; [exact Hes|]. intros x Hx. unfold capacity in *.
    by rewrite length_insert.
Qed.

(** Whatever the counts, a pass only makes calls of its own kind, touches
    nothing of an entity but its count, and keeps the buffer's capacity. *)
Lemma refreshPass_shape (p : nat) (es es' : list E) (cb cb' : UploadBuffer T) evs :
  pass p es cb = Some (es', cb', evs) →
  Forall (λ ev, ∃ q i, ev = call q i) evs
  ∧ length es' = length es
  ∧ length cb' = length cb.
Proof.
  revert p cb es' cb' evs.
  induction es as [|e es IH]; intros p cb es' cb' evs; simpl.
  { intros [= <- <- <-]. auto. }
  destruct (0 <? dirty e).
  - destruct (CopyData cb (index e) (record e)) as [cb1|] eqn:Hc; simpl; [|done].
    destruct (pass (S p) es cb1) as [[[r1 r2] r3]|] eqn:Hr; simpl; [|done].
    intros [= <- <- <-]. destruct (IH _ _ _ _ _ Hr) as (H1 & H2 & H3).
    apply CopyData_inv in Hc as [_ ->]. rewrite length_insert in H3.
    repeat split; simpl; eauto.
  - destruct (pass (S p) es cb) as [[[r1 r2] r3]|] eqn:Hr; simpl; [|done].
    intros [= <- <- <-]. destruct (IH _ _ _ _ _ Hr) as (H1 & H2 & H3).
    repeat split; simpl; eauto.
Qed.

(** A pass succeeds when every index is inside the buffer. *)
Lemma refreshPass_total (p : nat) (es : list E) (cb : UploadBuffer T) :
  Forall (λ e, 0 ≤ index e < capacity cb) es → is_Some (pass p es cb).
Proof.
  revert p cb. induction es as [|e es IH]; intros p cb Hall; simpl; [eauto|].
  inversion Hall as [|? ? He Hes]; subst.
  destruct (0 <? dirty e).
  - rewrite (CopyData_Some _ _ _ He). simpl.
    destruct (IH (S p) (<[Z.to_nat (index e):=Some (record e)]> cb)) as [r Hr].
    + eapply Forall_impl; [exact Hes|]. intros x Hx. unfold capacity in *.
      by rewrite length_insert.
    + rewrite Hr. simpl. eauto.
  - destruct (IH (S p) cb Hes) as [r Hr]. rewrite Hr. simpl. eauto.
Qed.
End RefreshPassFacts.

(** ** The loops compute their closed forms *)

Lemma currFrameResource_Some (s : App) (k : nat) (fr : FrameResource) :
  currFrameResource s = Some (k, fr) ↔
  mCurrFrameResource s = Some k ∧ mFrameResources s !! k = Some fr.
Proof.
  unfold currFrameResource. split.
  - destruct (mCurrFrameResource s) as [k'|]; simpl; [|done].
    destruct (mFrameResources s !! k') as [fr'|] eqn:Hfr; simpl; [|done].
    intros [= <- <-]. auto.
  - intros [-> H]. simpl. by rewrite H.
Qed.

Lemma App_ext (a b : App) :
  mFrameResources a = mFrameResources b →
  mCurrFrameResource a = mCurrFrameResource b →
  mCurrFrameResourceIndex a = mCurrFrameResourceIndex b →
  mAllRitems a = mAllRitems b →
  mMaterials a = mMaterials b →
  mCurrentFence a = mCurrentFence b →
  mFence a = mFence b →
  Log a = Log b →
  pc a = pc b →
  a = b.
Proof. destruct a, b; simpl; intros; by subst. Qed.

Lemma App_same (s : App) (k : nat) (fr : FrameResource) :
  mFrameResources s !! k = Some fr →
  emit [] (withRitems (mAllRitems s) (withFrames (<[k := fr]> (mFrameResources s)) s)) = s
  ∧ emit [] (withMaterials (mMaterials s) (withFrames (<[k := fr]> (mFrameResources s)) s)) = s.
Proof.
  intros Hfr. destruct s; unfold emit, withRitems, withMaterials, withFrames; simpl in *.
  rewrite (list_insert_id _ _ _ Hfr), app_nil_r. done.
Qed.

Lemma RefreshObjectAt_eq (s : App) (k : nat) (fr : FrameResource) (p : nat) (e : RenderItem) :
  currFrameResource s = Some (k, fr) →
  mAllRitems s !! p = Some e →
  RefreshObjectAt p s
  = if 0 <? NumFramesDirty e then
      cb ← CopyData (ObjectCB fr) (ObjCBIndex e) (objConstants e);
      Some (emit [EvCopyObject k p (ObjCBIndex e)]
             (withRitems (<[p := setItemDirty (NumFramesDirty e - 1) e]> (mAllRitems s))
               (withFrames (<[k := setObjectCB cb fr]> (mFrameResources s)) s)))
    else Some s.
Proof. intros Hcur He. unfold RefreshObjectAt. rewrite Hcur. simpl. by rewrite He. Qed.

Lemma forEach_RefreshObjectAt (items : list RenderItem) :
  ∀ (pre : list RenderItem) (s : App) (k : nat) (fr : FrameResource),
    mAllRitems s = pre ++ items →
    currFrameResource s = Some (k, fr) →
    forEach RefreshObjectAt (seq (length pre) (length items)) s
    = r ← objPass k (length pre) items (ObjectCB fr);
      Some (emit r.2
             (withRitems (pre ++ r.1.1)
               (withFrames (<[k := setObjectCB r.1.2 fr]> (mFrameResources s)) s))).
Proof.
  induction items as [|e rest IH]; intros pre s k fr Hitems Hcur.
  - apply currFrameResource_Some in Hcur as [Hk Hfr]. rewrite app_nil_r in Hitems.
    cbn [length seq forEach objPass refreshPass mbind option_bind fst snd].
    rewrite app_nil_r, <- Hitems.
    replace (setObjectCB (ObjectCB fr) fr) with fr by by destruct fr.
    f_equal. symmetry. by apply App_same.
  - cbn [length seq forEach].
    rewrite (RefreshObjectAt_eq s k fr (length pre) e Hcur)
      by (rewrite Hitems; by apply list_lookup_middle).
    unfold objPass. cbn [refreshPass]. fold (objPass k).
    destruct (0 <? NumFramesDirty e).
    + destruct (CopyData (ObjectCB fr) (ObjCBIndex e) (objConstants e)) as [cb1|];
        cbn [mbind option_bind]; [|done].
      apply currFrameResource_Some in Hcur as [Hk Hfr].
      pose proof (lookup_lt_Some _ _ _ Hfr) as Hlt.
      set (e' := setItemDirty (NumFramesDirty e - 1) e).
      assert (Hlen : S (length pre) = length (pre ++ [e']))
        by (rewrite length_app; simpl; lia).
      rewrite Hlen.
      erewrite (IH (pre ++ [e']) _ k (setObjectCB cb1 fr)).
      * cbn [ObjectCB setObjectCB].
        destruct (objPass k (length (pre ++ [e'])) rest cb1) as [[[r1 r2] r3]|];
          cbn [mbind option_bind]; [|done].
        f_equal.
        apply App_ext; cbn; try done;
          by rewrite ?list_insert_insert_eq, <- ?app_assoc.
      * simpl. rewrite Hitems, insert_app_r_alt by lia.
        rewrite Nat.sub_diag. simpl. by rewrite <- app_assoc.
      * apply currFrameResource_Some. simpl. split; [done|].
        by apply list_lookup_insert_eq.
    + assert (Hlen : S (length pre) = length (pre ++ [e]))
        by (rewrite length_app; simpl; lia).
      cbn [mbind option_bind]. rewrite Hlen, (IH (pre ++ [e]) s k fr).
      * destruct (objPass k (length (pre ++ [e])) rest (ObjectCB fr)) as [[[r1 r2] r3]|];
          cbn [mbind option_bind]; [|done].
        simpl. by rewrite <- !app_assoc.
      * by rewrite <- app_assoc.
      * done.
Qed.

Lemma RefreshMaterialAt_eq (s : App) (k : nat) (fr : FrameResource) (p : nat) (m : Material) :
  currFrameResource s = Some (k, fr) →
  mMaterials s !! p = Some m →
  RefreshMaterialAt p s
  = if 0 <? MatNumFramesDirty m then
      cb ← CopyData (MaterialCB fr) (MatCBIndex m) (matConstants m);
      Some (emit [EvCopyMaterial k p (MatCBIndex m)]
             (withMaterials (<[p := setMatDirty (MatNumFramesDirty m - 1) m]> (mMaterials s))
               (withFrames (<[k := setMaterialCB cb fr]> (mFrameResources s)) s)))
    else Some s.
Proof. intros Hcur Hm. unfold RefreshMaterialAt. rewrite Hcur. simpl. by rewrite Hm. Qed.

Lemma forEach_RefreshMaterialAt (mats : list Material) :
  ∀ (pre : list Material) (s : App) (k : nat) (fr : FrameResource),
    mMaterials s = pre ++ mats →
    currFrameResource s = Some (k, fr) →
    forEach RefreshMaterialAt (seq (length pre) (length mats)) s
    = r ← matPass k (length pre) mats (MaterialCB fr);
      Some (emit r.2
             (withMaterials (pre ++ r.1.1)
               (withFrames (<[k := setMaterialCB r.1.2 fr]> (mFrameResources s)) s))).
Proof.
  induction mats as [|m rest IH]; intros pre s k fr Hmats Hcur.
  - apply currFrameResource_Some in Hcur as [Hk Hfr]. rewrite app_nil_r in Hmats.
    cbn [length seq forEach matPass refreshPass mbind option_bind fst snd].
    rewrite app_nil_r, <- Hmats.
    replace (setMaterialCB (MaterialCB fr) fr) with fr by by destruct fr.
    f_equal. symmetry. by apply App_same.
  - cbn [length seq forEach].
    rewrite (RefreshMaterialAt_eq s k fr (length pre) m Hcur)
      by (rewrite Hmats; by apply list_lookup_middle).
    unfold matPass. cbn [refreshPass]. fold (matPass k).
    destruct (0 <? MatNumFramesDirty m).
    + destruct (CopyData (MaterialCB fr) (MatCBIndex m) (matConstants m)) as [cb1|];
        cbn [mbind option_bind]; [|done].
      apply currFrameResource_Some in Hcur as [Hk Hfr].
      pose proof (lookup_lt_Some _ _ _ Hfr) as Hlt.
      set (m' := setMatDirty (MatNumFramesDirty m - 1) m).
      assert (Hlen : S (length pre) = length (pre ++ [m']))
        by (rewrite length_app; simpl; lia).
      rewrite Hlen.
      erewrite (IH (pre ++ [m']) _ k (setMaterialCB cb1 fr)).
      * cbn [MaterialCB setMaterialCB].
        destruct (matPass k (length (pre ++ [m'])) rest cb1) as [[[r1 r2] r3]|];
          cbn [mbind option_bind]; [|done].
        f_equal.
        apply App_ext; cbn; try done;
          by rewrite ?list_insert_insert_eq, <- ?app_assoc.
      * simpl. rewrite Hmats, insert_app_r_alt by lia.
        rewrite Nat.sub_diag. simpl. by rewrite <- app_assoc.
      * apply currFrameResource_Some. simpl. split; [done|].
        by apply list_lookup_insert_eq.
    + assert (Hlen : S (length pre) = length (pre ++ [m]))
        by (rewrite length_app; simpl; lia).
      cbn [mbind option_bind]. rewrite Hlen, (IH (pre ++ [m]) s k fr).
      * destruct (matPass k (length (pre ++ [m])) rest (MaterialCB fr)) as [[[r1 r2] r3]|];
          cbn [mbind option_bind]; [|done].
        simpl. by rewrite <- !app_assoc.
      * by rewrite <- app_assoc.
      * done.
Qed.

Lemma UpdateObjectCBs_closed (s : App) (k : nat) (fr : FrameResource) :
  currFrameResource s = Some (k, fr) →
  UpdateObjectCBs s
  = r ← objPass k 0 (mAllRitems s) (ObjectCB fr);
    Some (emit r.2
           (withRitems r.1.1
             (withFrames (<[k := setObjectCB r.1.2 fr]> (mFrameResources s)) s))).
Proof. intros Hcur. exact (forEach_RefreshObjectAt (mAllRitems s) [] s k fr eq_refl Hcur). Qed.

Lemma UpdateMaterialCBs_closed (s : App) (k : nat) (fr : FrameResource) :
  currFrameResource s = Some (k, fr) →
  UpdateMaterialCBs s
  = r ← matPass k 0 (mMaterials s) (MaterialCB fr);
    Some (emit r.2
           (withMaterials r.1.1
             (withFrames (<[k := setMaterialCB r.1.2 fr]> (mFrameResources s)) s))).
Proof. intros Hcur. exact (forEach_RefreshMaterialAt (mMaterials s) [] s k fr eq_refl Hcur). Qed.

(** ** Passes over clean and over uniformly dirty scenes *)

Lemma UpdateObjectCBs_clean (s : App) :
  is_Some (currFrameResource s) →
  Forall (λ e, NumFramesDirty e ≤ 0) (mAllRitems s) →
  UpdateObjectCBs s = Some s.
Proof.
  intros [[k fr] Hcur] Hclean.
  rewrite (UpdateObjectCBs_closed s k fr Hcur). unfold objPass.
  rewrite refreshPass_clean by done. simpl.
  apply currFrameResource_Some in Hcur as [_ Hfr].
  f_equal. replace (setObjectCB (ObjectCB fr) fr) with fr by by destruct fr.
  by apply App_same.
Qed.

Lemma UpdateMaterialCBs_clean (s : App) :
  is_Some (currFrameResource s) →
  Forall (λ m, MatNumFramesDirty m ≤ 0) (mMaterials s) →
  UpdateMaterialCBs s = Some s.
Proof.
  intros [[k fr] Hcur] Hclean.
  rewrite (UpdateMaterialCBs_closed s k fr Hcur). unfold matPass.
  rewrite refreshPass_clean by done. simpl.
  apply currFrameResource_Some in Hcur as [_ Hfr].
  f_equal. replace (setMaterialCB (MaterialCB fr) fr) with fr by by destruct fr.
  by apply App_same.
Qed.

Lemma UpdateObjectCBs_dirty (s : App) (k : nat) (fr : FrameResource)
    (d : Z) (items0 : list RenderItem) :
  currFrameResource s = Some (k, fr) →
  mAllRitems s = map (setItemDirty d) items0 →
  0 < d →
  Forall (λ e, 0 ≤ ObjCBIndex e < capacity (ObjectCB fr)) items0 →
  UpdateObjectCBs s
  = Some (emit (objCopies k items0)
           (withRitems (map (setItemDirty (d - 1)) items0)
             (withFrames (<[k := setObjectCB (objStores items0 (ObjectCB fr)) fr]>
                            (mFrameResources s)) s))).
Proof.
  intros Hcur Hitems Hd Hrange.
  rewrite (UpdateObjectCBs_closed s k fr Hcur), Hitems. unfold objPass.
  rewrite refreshPass_dirty; done.
Qed.

Lemma UpdateMaterialCBs_dirty (s : App) (k : nat) (fr : FrameResource)
    (d : Z) (mats0 : list Material) :
  currFrameResource s = Some (k, fr) →
  mMaterials s = map (setMatDirty d) mats0 →
  0 < d →
  Forall (λ m, 0 ≤ MatCBIndex m < capacity (MaterialCB fr)) mats0 →
  UpdateMaterialCBs s
  = Some (emit (matCopies k mats0)
           (withMaterials (map (setMatDirty (d - 1)) mats0)
             (withFrames (<[k := setMaterialCB (matStores mats0 (MaterialCB fr)) fr]>
                            (mFrameResources s)) s))).
Proof.
  intros Hcur Hmats Hd Hrange.
  rewrite (UpdateMaterialCBs_closed s k fr Hcur), Hmats. unfold matPass.
  rewrite refreshPass_dirty; done.
Qed.

(** ** Logs *)

Lemma hostEvents_app (l1 l2 : list Event) :
  hostEvents (l1 ++ l2) = hostEvents l1 ++ hostEvents l2.
Proof.
  induction l1 as [|e l1 IH]; simpl; [done|].
  destruct (is_wait e); simpl; by rewrite IH.
Qed.

Lemma hostEvents_id (l : list Event) :
  Forall (λ e, is_wait e = false) l → hostEvents l = l.
Proof.
  induction 1 as [|e l He _ IH]; simpl; [done|]. by rewrite He, IH.
Qed.

Lemma hostEvents_elem (e : Event) (l : list Event) :
  e ∈ hostEvents l ↔ e ∈ l ∧ is_wait e = false.
Proof.
  induction l as [|x l IH]; simpl.
  - split; [inversion 1|intros [H _]; inversion H].
  - destruct (is_wait x) eqn:Hx.
    + rewrite IH, elem_of_cons. split.
      * intros [H1 H2]. auto.
      * intros [[->|H] He]; [congruence|done].
    + rewrite !elem_of_cons, IH. split.
      * intros [->|[H1 H2]]; auto.
      * intros [[->|H] He]; auto.
Qed.

Lemma submitted_app (l1 l2 : list Event) :
  submitted (l1 ++ l2) = submitted l1 ++ submitted l2.
Proof.
  induction l1 as [|e l1 IH]; simpl; [done|].
  destruct e; simpl; by rewrite ?IH.
Qed.

Lemma submitted_hostEvents (l : list Event) : submitted (hostEvents l) = submitted l.
Proof.
  induction l as [|e l IH]; simpl; [done|]. destruct e; simpl; by rewrite ?IH.
Qed.

Lemma uploads_app (k p : nat) (l1 l2 : list Event) :
  uploads k p (l1 ++ l2) = (uploads k p l1 + uploads k p l2)%nat.
Proof. unfold uploads. by rewrite List.filter_app, length_app. Qed.

Lemma uploads_cons (k p : nat) (x : Event) (l : list Event) :
  uploads k p (x :: l) = ((if is_upload k p x then 1 else 0) + uploads k p l)%nat.
Proof. unfold uploads. simpl. by destruct (is_upload k p x). Qed.

Lemma uploads_hostEvents (k p : nat) (l : list Event) :
  uploads k p (hostEvents l) = uploads k p l.
Proof.
  unfold uploads. induction l as [|x l IH]; simpl; [done|].
  destruct x; simpl; try done.
  destruct (_ && _); simpl; by rewrite IH.
Qed.

Lemma copies_no_wait {E} (index : E → Z) (call : nat → Z → Event) (p : nat) (es : list E) :
  (∀ q i, is_wait (call q i) = false) →
  Forall (λ e, is_wait e = false) (copies index call p es).
Proof.
  intros Hc. revert p. induction es as [|e es IH]; intros p; simpl; constructor; auto.
Qed.

Lemma copies_submitted {E} (index : E → Z) (call : nat → Z → Event) (p : nat) (es : list E) :
  (∀ q i, submitted [call q i] = []) →
  submitted (copies index call p es) = [].
Proof.
  intros Hc. revert p. induction es as [|e es IH]; intros p; simpl; [done|].
  specialize (Hc p (index e)). simpl in Hc. destruct (call p (index e)); try done; apply IH.
Qed.

(** A pass over render items that are all dirty copies once for each
    position of the container, into the slot of the pass. *)
Lemma objCopies_uploads (k p k' q : nat) (items : list RenderItem) :
  uploads k p (copies ObjCBIndex (EvCopyObject k') q items)
  = if (k' =? k)%nat && (q <=? p)%nat && (p <? q + length items)%nat then 1%nat else 0%nat.
Proof.
  revert q. induction items as [|e es IH]; intros q.
  - cbn [copies length]. unfold uploads. simpl.
    destruct (k' =? k)%nat; simpl; [|done].
    destruct (Nat.leb_spec q p); simpl; [|done].
    destruct (Nat.ltb_spec p (q + 0)); [lia|done].
  - cbn [copies length]. rewrite uploads_cons, IH. cbn [is_upload].
    destruct (k' =? k)%nat; cbn [andb]; [|done].
    destruct (Nat.eqb_spec q p) as [->|Hne].
    + destruct (Nat.leb_spec (S p) p); [lia|].
      destruct (Nat.leb_spec p p); [|lia].
      destruct (Nat.ltb_spec p (p + S (length es))); [done|lia].
    + destruct (Nat.leb_spec (S q) p), (Nat.leb_spec q p); cbn [andb]; try lia; try done.
      destruct (Nat.ltb_spec p (S q + length es)), (Nat.ltb_spec p (q + S (length es)));
        try lia; done.
Qed.

Lemma matCopies_uploads (k p k' q : nat) (mats : list Material) :
  uploads k p (copies MatCBIndex (EvCopyMaterial k') q mats) = 0%nat.
Proof.
  revert q. induction mats as [|m ms IH]; intros q; cbn [copies]; [done|].
  rewrite uploads_cons. apply IH.
Qed.

(** ** More arithmetic of the ring *)

(** The slot that frame [n + 1] works in was last submitted by frame [n - 2]. *)
Lemma slotFence_next (f0 n : Z) :
  0 ≤ n →
  slotFence f0 n ((n + 1) mod 3) = if 3 <=? n then f0 + n - 2 else 0.
Proof.
  intros Hn. unfold slotFence, gNumFrameResources.
  destruct (Z.leb_spec 3 n);
    match goal with |- context [1 <=? ?j] => destruct (Z.leb_spec 1 j) end;
    Z.to_euclidean_division_equations; lia.
Qed.

Lemma slotFence_zero (f0 n k : Z) :
  0 ≤ f0 → slotFence f0 n k = 0 ∨ f0 < slotFence f0 n k ≤ f0 + n.
Proof.
  intros Hf. unfold slotFence, gNumFrameResources.
  match goal with |- context [1 <=? ?j] => destruct (Z.leb_spec 1 j) end;
    [right|left; done].
  Z.to_euclidean_division_equations; lia.
Qed.

Lemma firstUse_step (n k : Z) :
  0 ≤ n → 0 ≤ k < 3 →
  (firstUse k <=? n + 1)
  = (firstUse k <=? n) || ((k =? (n + 1) mod 3) && (n <? 3)).
Proof.
  intros Hn Hk. unfold firstUse, gNumFrameResources.
  destruct (Z.eqb_spec k 0), (Z.eqb_spec k ((n + 1) mod 3)), (Z.ltb_spec n 3);
    repeat match goal with |- context [?a <=? ?b] => destruct (Z.leb_spec a b) end;
    simpl; try done; Z.to_euclidean_division_equations; lia.
Qed.

Lemma firstUse_next (n : Z) :
  0 ≤ n → (firstUse ((n + 1) mod 3) <=? n) = (3 <=? n).
Proof.
  intros Hn. unfold firstUse, gNumFrameResources.
  zbool; try done; Z.to_euclidean_division_equations; lia.
Qed.

Lemma slotOf_lt (j : Z) : (slotOf j < 3)%nat.
Proof.
  unfold slotOf, gNumFrameResources. pose proof (Z.mod_pos_bound j 3). lia.
Qed.

Lemma slotOf_Z (j : Z) : Z.of_nat (slotOf j) = j mod 3.
Proof.
  unfold slotOf, gNumFrameResources. pose proof (Z.mod_pos_bound j 3). lia.
Qed.

Lemma dirtyAfter_succ (m : Z) :
  0 ≤ m →
  dirtyAfter (m + 1) = if 0 <? dirtyAfter m then dirtyAfter m - 1 else dirtyAfter m.
Proof.
  intros. unfold dirtyAfter, gNumFrameResources.
  destruct (Z.ltb_spec 0 (Z.max 0 (3 - m))); lia.
Qed.

Lemma dirtyAfter_pos (m : Z) : 0 < dirtyAfter m ↔ m < 3.
Proof. unfold dirtyAfter, gNumFrameResources. lia. Qed.

Lemma framesLog_succ (items0 : list RenderItem) (mats0 : list Material) (f0 n : Z) :
  0 ≤ n →
  framesLog items0 mats0 f0 (Z.to_nat (n + 1))
  = framesLog items0 mats0 f0 (Z.to_nat n)
    ++ refreshEvents items0 mats0 (n + 1) ++ drawEvents f0 (n + 1).
Proof.
  intros Hn. replace (Z.to_nat (n + 1)) with (S (Z.to_nat n)) by lia.
  cbn [framesLog]. replace (Z.of_nat (S (Z.to_nat n))) with (n + 1) by lia. done.
Qed.

(** ** Scenes *)

Lemma setItemDirty_same (e : RenderItem) : setItemDirty (NumFramesDirty e) e = e.
Proof. by destruct e. Qed.

Lemma setMatDirty_same (m : Material) : setMatDirty (MatNumFramesDirty m) m = m.
Proof. by destruct m. Qed.

Lemma items_constructed (items : list RenderItem) :
  Forall (λ e, NumFramesDirty e = gNumFrameResources) items →
  map (setItemDirty gNumFrameResources) items = items.
Proof.
  induction 1 as [|e l He _ IH]; simpl; [done|].
  by rewrite IH, <- He, setItemDirty_same.
Qed.

Lemma mats_constructed (mats : list Material) :
  Forall (λ m, MatNumFramesDirty m = gNumFrameResources) mats →
  map (setMatDirty gNumFrameResources) mats = mats.
Proof.
  induction 1 as [|e l He _ IH]; simpl; [done|].
  by rewrite IH, <- He, setMatDirty_same.
Qed.

Lemma sceneOKb_correct (items : list RenderItem) (mats : list Material) :
  sceneOKb items mats = true → SceneOK items mats.
Proof.
  unfold sceneOKb. rewrite !andb_true_iff, !forallb_forall.
  intros [[[Hi Hm] Hil] Hml]. apply Z.ltb_lt in Hil, Hml.
  split; try done; apply Forall_forall; intros x Hx%list_elem_of_In.
  - apply Hi in Hx. rewrite !andb_true_iff in Hx. destruct Hx as [[H _] _]. lia.
  - apply Hi in Hx. rewrite !andb_true_iff in Hx. destruct Hx as [[_ H1] H2]. lia.
  - apply Hm in Hx. rewrite !andb_true_iff in Hx. destruct Hx as [[H _] _]. lia.
  - apply Hm in Hx. rewrite !andb_true_iff in Hx. destruct Hx as [[_ H1] H2]. lia.
Qed.

(** ** The refresh of a uniformly dirty scene, computed *)

Lemma UpdateMainPassCB_eq (s : App) (k : nat) (fr : FrameResource) (mainPassCB : PassConstants) :
  currFrameResource s = Some (k, fr) →
  (0 < length (PassCB fr))%nat →
  UpdateMainPassCB mainPassCB s
  = Some (emit [EvCopyPass k 0]
           (withFrames (<[k := setPassCB (<[0%nat := Some mainPassCB]> (PassCB fr)) fr]>
                          (mFrameResources s)) s)).
Proof.
  intros Hcur Hlen. unfold UpdateMainPassCB. rewrite Hcur. simpl.
  rewrite CopyData_Some by (unfold capacity; lia). done.
Qed.

Lemma currFrameResource_insert (s s1 : App) (k : nat) (fr fr1 : FrameResource) :
  currFrameResource s = Some (k, fr) →
  mCurrFrameResource s1 = mCurrFrameResource s →
  mFrameResources s1 = <[k := fr1]> (mFrameResources s) →
  currFrameResource s1 = Some (k, fr1).
Proof.
  intros [Hk Hfr]%currFrameResource_Some H1 H2. apply currFrameResource_Some.
  rewrite H1, H2. split; [done|]. apply list_lookup_insert_eq. by eapply lookup_lt_Some.
Qed.

Lemma UpdateConstants_uniform (s : App) (k : nat) (fr : FrameResource) (d : Z)
    (items0 : list RenderItem) (mats0 : list Material) (mainPassCB : PassConstants) :
  currFrameResource s = Some (k, fr) →
  mAllRitems s = map (setItemDirty d) items0 →
  mMaterials s = map (setMatDirty d) mats0 →
  Forall (λ e, 0 ≤ ObjCBIndex e < capacity (ObjectCB fr)) items0 →
  Forall (λ m, 0 ≤ MatCBIndex m < capacity (MaterialCB fr)) mats0 →
  (0 < length (PassCB fr))%nat →
  UpdateConstants mainPassCB s
  = Some (emit (refreshCalls d k items0 mats0)
           (withMaterials (map (setMatDirty (decDirty d)) mats0)
             (withRitems (map (setItemDirty (decDirty d)) items0)
               (withFrames
                  (<[k := refreshedSlot d items0 mats0 mainPassCB fr]> (mFrameResources s))
                  s)))).
Proof.
  intros Hcur Hitems Hmats Hir Hmr Hp.
  unfold UpdateConstants, refreshCalls, refreshedSlot, decDirty.
  destruct (Z.ltb_spec 0 d) as [Hd|Hd].
  - rewrite (UpdateObjectCBs_dirty s k fr d items0) by done. cbn [mbind option_bind].
    set (fr1 := setObjectCB (objStores items0 (ObjectCB fr)) fr).
    set (s1 := emit _ _).
    assert (Hcur1 : currFrameResource s1 = Some (k, fr1))
      by (by eapply currFrameResource_insert).
    rewrite (UpdateMaterialCBs_dirty s1 k fr1 d mats0) by done. cbn [mbind option_bind].
    set (fr2 := setMaterialCB (matStores mats0 (MaterialCB fr1)) fr1).
    set (s2 := emit _ _).
    assert (Hcur2 : currFrameResource s2 = Some (k, fr2))
      by (by eapply currFrameResource_insert).
    rewrite (UpdateMainPassCB_eq s2 k fr2) by done.
    f_equal. destruct s. unfold emit, withMaterials, withRitems, withFrames; simpl.
    rewrite !list_insert_insert_eq, <- !app_assoc. done.
  - assert (Hsome : is_Some (currFrameResource s)) by eauto.
    rewrite UpdateObjectCBs_clean; [|done|].
    2:{ rewrite Hitems. apply Forall_forall. intros x (y & -> & _)%list_elem_of_fmap. done. }
    cbn [mbind option_bind].
    rewrite UpdateMaterialCBs_clean; [|done|].
    2:{ rewrite Hmats. apply Forall_forall. intros x (y & -> & _)%list_elem_of_fmap. done. }
    cbn [mbind option_bind].
    rewrite (UpdateMainPassCB_eq s k fr) by done.
    f_equal. destruct s. unfold emit, withMaterials, withRitems, withFrames; simpl in *.
    by rewrite Hitems, Hmats.
Qed.

(** ** The invariant holds in every reachable state *)
Section InvariantProof.
Variable items0 : list RenderItem.
Variable mats0 : list Material.
Variable f0 : Z.
Hypothesis scene : SceneOK items0 mats0.
Hypothesis f0_range : 0 ≤ f0 < 18446744073709551616.

Abbreviation Inv' := (Inv items0 mats0 f0).

Lemma Inv_init : Inv' (Initialize items0 mats0 f0).
Proof.
  destruct scene.
  split; unfold passesDone, framesDone, dirtyAfter; simpl;
    rewrite ?Z.sub_diag; simpl.
  - lia.
  - symmetry. by apply items_constructed.
  - symmetry. by apply mats_constructed.
  - split; [done|]. intros k fr Hk.
    unfold BuildFrameResources in Hk. apply lookup_replicate in Hk as [-> Hk].
    unfold gNumFrameResources in Hk.
    assert (Hw1 : wrapUINT (Z.of_nat (length items0)) = Z.of_nat (length items0))
      by (unfold wrapUINT; apply Z.mod_small; lia).
    assert (Hw2 : wrapUINT (Z.of_nat (length mats0)) = Z.of_nat (length mats0))
      by (unfold wrapUINT; apply Z.mod_small; lia).
    split; simpl; rewrite ?Hw1, ?Hw2.
    + unfold slotFence, gNumFrameResources.
      match goal with |- context [1 <=? ?j] => destruct (Z.leb_spec 1 j) end;
        [|done].
      Z.to_euclidean_division_equations; lia.
    + unfold firstUse, gNumFrameResources. zbool; try done; lia.
    + unfold firstUse, gNumFrameResources. zbool; try done; lia.
    + done.
  - done.
  - lia.
  - done.
Qed.

Lemma Inv_gpu (s s' : App) (c : Z) : Inv' s → gpu_step c s = Some s' → Inv' s'.
Proof.
  intros [H1 H2 H3 H4 H5 H6 H7]. unfold gpu_step.
  destruct (Z.leb_spec (mFence s) c); simpl; [|done].
  destruct (Z.leb_spec c (mCurrentFence s)); simpl; [|done].
  intros [= <-]. split; simpl; try done.
  - lia.
  - destruct (pc s); lia.
Qed.

(** The slot acquired for frame [n + 1]. *)
Lemma Inv_acquired (s : App) :
  Inv' s → pc s = AtUpdate →
  ∃ fr, currFrameResource (CycleFrameResource s) = Some (slotOf (framesDone f0 s + 1), fr)
        ∧ mCurrFrameResourceIndex (CycleFrameResource s)
          = (framesDone f0 s + 1) mod gNumFrameResources
        ∧ SlotOK items0 mats0 f0 (framesDone f0 s) (framesDone f0 s)
                 ((framesDone f0 s + 1) mod 3) fr.
Proof.
  intros [H1 H2 H3 [H4 H4'] H5 H6 H7] Hpc. rewrite Hpc in H5. destruct H5 as [H5 _].
  assert (Hn : 0 ≤ framesDone f0 s) by (unfold framesDone; lia).
  assert (Hidx : Z.rem (mCurrFrameResourceIndex s + 1) gNumFrameResources
                 = (framesDone f0 s + 1) mod gNumFrameResources).
  { rewrite H5, rem3_mod.
    - unfold gNumFrameResources. apply mod3_succ.
    - unfold gNumFrameResources. pose proof (Z.mod_pos_bound (framesDone f0 s) 3). lia. }
  destruct (lookup_lt_is_Some_2 (mFrameResources s) (slotOf (framesDone f0 s + 1)))
    as [fr Hfr]; [rewrite H4; apply slotOf_lt|].
  exists fr. unfold CycleFrameResource. rewrite Hidx.
  destruct (Z.leb_spec 0 ((framesDone f0 s + 1) mod gNumFrameResources)) as [_|Hneg].
  2:{ unfold gNumFrameResources in Hneg.
      pose proof (Z.mod_pos_bound (framesDone f0 s + 1) 3). lia. }
  split; [|split].
  - apply currFrameResource_Some. simpl. fold (slotOf (framesDone f0 s + 1)). done.
  - done.
  - specialize (H4' _ _ Hfr). rewrite slotOf_Z in H4'.
    unfold passesDone in H4'. rewrite Hpc, Z.add_0_r in H4'. done.
Qed.

Lemma MustWait_eq (s : App) (k : nat) (fr : FrameResource) :
  currFrameResource s = Some (k, fr) →
  MustWait s = Some (negb (Fence fr =? 0) && (mFence s <? Fence fr)).
Proof. intros H. unfold MustWait. by rewrite H. Qed.

(** Past the wait the acquired slot is retired, so at most two frames are
    still in flight. *)
Lemma acquired_retired (s : App) (fr : FrameResource) :
  Inv' s →
  Fence fr = slotFence f0 (framesDone f0 s) ((framesDone f0 s + 1) mod 3) →
  Fence fr = 0 ∨ Fence fr ≤ mFence s →
  mCurrentFence s - mFence s ≤ 2.
Proof.
  intros [H1 _ _ _ _ _ _] Hf Hret.
  rewrite slotFence_next in Hf by (unfold framesDone; lia).
  unfold framesDone in *. zbool; lia.
Qed.

Lemma Inv_acquire (s s' : App) (mainPassCB : PassConstants) :
  Inv' s → pc s = AtUpdate → cpu_step mainPassCB s = Ok s' → Inv' s'.
Proof.
  intros HI Hpc. destruct (Inv_acquired s HI Hpc) as (fr & Hcur & Hidx & Hslot).
  pose proof (acquired_retired s fr HI (slot_fence _ _ _ _ _ _ _ Hslot)) as Hret.
  destruct HI as [H1 H2 H3 [H4 H4'] H5 H6 H7].
  unfold cpu_step. rewrite Hpc. cbv zeta. rewrite Hcur, (MustWait_eq _ _ _ Hcur).
  assert (Hcur' : mCurrFrameResource (CycleFrameResource s)
                  = Some (slotOf (framesDone f0 s + 1)))
    by (by apply currFrameResource_Some in Hcur as [? _]).
  unfold passesDone in *. rewrite Hpc in *.
  destruct (negb (Fence fr =? 0) && (mFence (CycleFrameResource s) <? Fence fr)) eqn:Hw;
    intros [= <-]; split; unfold passesDone, framesDone in *; simpl in *; try done.
  - by rewrite hostEvents_app, app_nil_r.
  - apply Hret. apply andb_false_iff in Hw as [Hw|Hw].
    + left. apply negb_false_iff in Hw. lia.
    + right. lia.
Qed.

Lemma Inv_wake (s s' : App) (mainPassCB : PassConstants) :
  Inv' s → pc s = InWait → cpu_step mainPassCB s = Ok s' → Inv' s'.
Proof.
  intros HI Hpc.
  pose proof (λ fr, acquired_retired s fr HI) as Hret.
  destruct HI as [H1 H2 H3 [H4 H4'] H5 H6 H7].
  unfold cpu_step. rewrite Hpc. rewrite Hpc in H5. destruct H5 as [H5 H5'].
  destruct (currFrameResource s) as [[k fr]|] eqn:Hcur; [|done].
  apply currFrameResource_Some in Hcur as [Hk Hfr].
  rewrite H5' in Hk. injection Hk as <-.
  destruct (H4' _ _ Hfr) as [Hf _ _ _]. rewrite slotOf_Z in Hf.
  destruct (Z.leb_spec (Fence fr) (mFence s)); [|done].
  intros [= <-]. unfold passesDone in *. rewrite Hpc in *.
  split; unfold passesDone, framesDone in *; simpl in *; try done.
  apply (Hret fr); auto.
Qed.

Lemma copies_host {E} (index : E → Z) (call : nat → Z → Event) (es : list E) :
  (∀ q i, is_wait (call q i) = false) →
  hostEvents (copies index call 0 es) = copies index call 0 es.
Proof. intros. apply hostEvents_id. by apply copies_no_wait. Qed.

Lemma refreshEvents_host (j : Z) :
  hostEvents (refreshEvents items0 mats0 j) = refreshEvents items0 mats0 j.
Proof.
  unfold refreshEvents. rewrite hostEvents_app. f_equal.
  destruct (j <=? gNumFrameResources); [|done].
  unfold objCopies, matCopies. rewrite hostEvents_app, !copies_host; done.
Qed.

Lemma Inv_current (s : App) :
  Inv' s → pc s ≠ AtUpdate →
  ∃ fr, currFrameResource s = Some (slotOf (framesDone f0 s + 1), fr)
        ∧ SlotOK items0 mats0 f0 (framesDone f0 s) (passesDone f0 s)
                 ((framesDone f0 s + 1) mod 3) fr.
Proof.
  intros [H1 H2 H3 [H4 H4'] H5 H6 H7] Hpc.
  assert (Hk : mCurrFrameResource s = Some (slotOf (framesDone f0 s + 1)))
    by (destruct (pc s); try done; apply H5).
  destruct (lookup_lt_is_Some_2 (mFrameResources s) (slotOf (framesDone f0 s + 1)))
    as [fr Hfr]; [rewrite H4; apply slotOf_lt|].
  exists fr. split; [by apply currFrameResource_Some|].
  specialize (H4' _ _ Hfr). by rewrite slotOf_Z in H4'.
Qed.

Lemma Inv_refresh (s s' : App) (mainPassCB : PassConstants) :
  Inv' s → pc s = AtRefresh → cpu_step mainPassCB s = Ok s' → Inv' s'.
Proof.
  intros HI Hpc. destruct (Inv_current s HI) as (fr & Hcur & Hslot); [by rewrite Hpc|].
  destruct HI as [H1 H2 H3 [H4 H4'] H5 H6 H7]. destruct scene.
  unfold passesDone in *. rewrite Hpc in *. rewrite Z.add_0_r in *.
  set (n := framesDone f0 s) in *.
  assert (Hn : 0 ≤ n) by (unfold n, framesDone; lia).
  destruct Hslot as [Hs1 Hs2 Hs3 Hs4].
  assert (Hocap : capacity (ObjectCB fr) = Z.of_nat (length items0)).
  { rewrite Hs2. unfold capacity. destruct (_ <=? _);
      unfold objStores; rewrite ?stores_length;
      unfold UploadBuffer_create; rewrite length_replicate; lia. }
  assert (Hmcap : capacity (MaterialCB fr) = Z.of_nat (length mats0)).
  { rewrite Hs3. unfold capacity. destruct (_ <=? _);
      unfold matStores; rewrite ?stores_length;
      unfold UploadBuffer_create; rewrite length_replicate; lia. }
  unfold cpu_step. rewrite Hpc.
  rewrite (UpdateConstants_uniform s (slotOf (n + 1)) fr (dirtyAfter n) items0 mats0);
    try done; try (by rewrite ?Hocap, ?Hmcap); [|lia].
  match goal with |- Ok ?t = Ok _ → _ => set (t' := t) end.
  intros [= <-].
  assert (Hpc' : pc t' = AtDraw) by done.
  assert (Hfd : framesDone f0 t' = n) by done.
  assert (Hit : mAllRitems t' = map (setItemDirty (decDirty (dirtyAfter n))) items0) by done.
  assert (Hmt : mMaterials t' = map (setMatDirty (decDirty (dirtyAfter n))) mats0) by done.
  assert (Hfr : mFrameResources t'
                = <[slotOf (n + 1) := refreshedSlot (dirtyAfter n) items0 mats0 mainPassCB fr]>
                    (mFrameResources s)) by done.
  assert (Hlog : Log t' = Log s ++ refreshCalls (dirtyAfter n) (slotOf (n + 1)) items0 mats0)
    by done.
  pose proof (eq_refl : mFence t' = mFence s) as Hfe.
  pose proof (eq_refl : mCurrentFence t' = mCurrentFence s) as Hcf.
  pose proof (eq_refl : mCurrFrameResource t' = mCurrFrameResource s) as Hcu.
  pose proof (eq_refl : mCurrFrameResourceIndex t' = mCurrFrameResourceIndex s) as Hix.
  clearbody t'.
  split; unfold passesDone; rewrite ?Hpc', ?Hfd, ?Hit, ?Hmt, ?Hfr, ?Hlog, ?Hfe, ?Hcf,
    ?Hcu, ?Hix.
  - done.
  - by rewrite dirtyAfter_succ.
  - by rewrite dirtyAfter_succ.
  - split; [by rewrite length_insert|].
    intros k fr' Hk. apply list_lookup_insert_Some in Hk as [(<- & <- & Hlt)|[Hne Hk]].
    + rewrite slotOf_Z. unfold refreshedSlot. split; cbn [Fence ObjectCB MaterialCB PassCB].
      * done.
      * rewrite Hs2, firstUse_step by (try done; apply Z.mod_pos_bound; lia).
        rewrite Z.eqb_refl, firstUse_next by done.
        unfold dirtyAfter, gNumFrameResources. zbool; try done; lia.
      * rewrite Hs3, firstUse_step by (try done; apply Z.mod_pos_bound; lia).
        rewrite Z.eqb_refl, firstUse_next by done.
        unfold dirtyAfter, gNumFrameResources. zbool; try done; lia.
      * by rewrite length_insert.
    + destruct (H4' _ _ Hk) as [Hk1 Hk2 Hk3 Hk4].
      assert (Hk3' : 0 ≤ Z.of_nat k < 3)
        by (apply lookup_lt_Some in Hk; lia).
      assert (Hkn : Z.of_nat k ≠ (n + 1) mod 3).
      { intros Heq. apply Hne. unfold slotOf, gNumFrameResources. lia. }
      split; try done.
      * rewrite Hk2, firstUse_step by done. zbool; simpl; try done; lia.
      * rewrite Hk3, firstUse_step by done. zbool; simpl; try done; lia.
  - done.
  - done.
  - rewrite hostEvents_app, H7, app_nil_r. f_equal.
    rewrite <- (refreshEvents_host (n + 1)). unfold refreshEvents, refreshCalls.
    f_equal. f_equal. unfold dirtyAfter, gNumFrameResources. zbool; try done; lia.
Qed.

Lemma Draw_eq (s : App) (k : nat) (fr : FrameResource) :
  currFrameResource s = Some (k, fr) →
  Draw s
  = Some (emit [EvResetAlloc k; EvExecute k; EvSignal (wrapUINT64 (mCurrentFence s + 1))]
           (withCurrentFence (wrapUINT64 (mCurrentFence s + 1))
             (withFrames (<[k := setFence (wrapUINT64 (mCurrentFence s + 1)) fr]>
                            (mFrameResources s)) s))).
Proof. intros H. unfold Draw. by rewrite H. Qed.

Lemma Inv_draw (s s' : App) (mainPassCB : PassConstants) :
  Inv' s → pc s = AtDraw → mCurrentFence s + 1 < 18446744073709551616 →
  cpu_step mainPassCB s = Ok s' → Inv' s'.
Proof.
  intros HI Hpc Hroom. destruct (Inv_current s HI) as (fr & Hcur & Hslot); [by rewrite Hpc|].
  destruct HI as [H1 H2 H3 [H4 H4'] H5 H6 H7].
  unfold passesDone in *. rewrite Hpc in *.
  set (n := framesDone f0 s) in *.
  assert (Hn : 0 ≤ n) by (unfold n, framesDone; lia).
  assert (Hw : wrapUINT64 (mCurrentFence s + 1) = f0 + (n + 1)).
  { unfold wrapUINT64. rewrite Z.mod_small; unfold n, framesDone; lia. }
  unfold cpu_step. rewrite Hpc, (Draw_eq s _ fr Hcur), Hw.
  match goal with |- Ok ?t = Ok _ → _ => set (t' := t) end.
  intros [= <-].
  assert (Hpc' : pc t' = AtUpdate) by done.
  assert (Hfd : framesDone f0 t' = n + 1) by (unfold framesDone; simpl; lia).
  pose proof (eq_refl : mAllRitems t' = mAllRitems s) as Hit.
  pose proof (eq_refl : mMaterials t' = mMaterials s) as Hmt.
  assert (Hfr : mFrameResources t'
                = <[slotOf (n + 1) := setFence (f0 + (n + 1)) fr]> (mFrameResources s))
    by done.
  assert (Hlog : Log t' = Log s ++ drawEvents f0 (n + 1)) by done.
  pose proof (eq_refl : mFence t' = mFence s) as Hfe.
  assert (Hcf : mCurrentFence t' = f0 + (n + 1)) by done.
  pose proof (eq_refl : mCurrFrameResource t' = mCurrFrameResource s) as Hcu.
  pose proof (eq_refl : mCurrFrameResourceIndex t' = mCurrFrameResourceIndex s) as Hix.
  clearbody t'.
  split; unfold passesDone; rewrite ?Hpc', ?Hfd, ?Hit, ?Hmt, ?Hfr, ?Hlog, ?Hfe, ?Hcf,
    ?Hcu, ?Hix, ?Z.add_0_r.
  - unfold n, framesDone in *. lia.
  - done.
  - done.
  - split; [by rewrite length_insert|].
    intros k fr' Hk.
    assert (Hk3 : 0 ≤ Z.of_nat k < 3)
      by (apply lookup_lt_Some in Hk; rewrite length_insert in Hk; lia).
    apply list_lookup_insert_Some in Hk as [(<- & <- & Hlt)|[Hne Hk]].
    + destruct Hslot as [Hs1 Hs2 Hs3 Hs4]. rewrite slotOf_Z in *.
      split; cbn [Fence ObjectCB MaterialCB PassCB setFence]; try done.
      rewrite slotFence_step by done. by rewrite Z.eqb_refl.
    + destruct (H4' _ _ Hk) as [Hk1 Hk2 Hk3' Hk4].
      split; try done.
      rewrite slotFence_step by done.
      destruct (Z.eqb_spec ((n + 1) mod 3) (Z.of_nat k)) as [Heq|]; [|done].
      destruct Hne. unfold slotOf, gNumFrameResources. lia.
  - destruct H5 as [-> ->]. split; [done|].
    destruct (Z.eqb_spec (n + 1) 0); [lia|done].
  - unfold n, framesDone in *. lia.
  - rewrite hostEvents_app, H7, framesLog_succ, app_nil_r, <- app_assoc by done.
    done.
Qed.

Lemma Inv_step (s s' : App) : Inv' s → step s s' → Inv' s'.
Proof.
  intros HI Hstep. inversion Hstep as [s0 c s1 Hg|s0 p s1 Hc Hroom]; subst.
  - by eapply Inv_gpu.
  - destruct (pc s) eqn:Hpc.
    + by eapply Inv_acquire.
    + by eapply Inv_wake.
    + by eapply Inv_refresh.
    + eapply Inv_draw; eauto.
Qed.

Lemma reachable_Inv (s : App) : reachable items0 mats0 f0 s → Inv' s.
Proof.
  unfold reachable. revert s.
  apply (rtc_ind_r (R := step) (λ s, Inv' s) (Initialize items0 mats0 f0)).
  - apply Inv_init.
  - intros y z _ Hyz HI. by eapply Inv_step.
Qed.
End InvariantProof.

(** ** The scenes of the repository are well formed *)

Lemma builderOKb_correct (n : nat) (b : Builder) :
  builderOKb n b = true → BuilderOK n n b.
Proof.
  unfold builderOKb. rewrite !andb_true_iff, forallb_forall.
  intros [[H1 H2] H3]. apply Z.eqb_eq in H1. apply Nat.eqb_eq in H2.
  split; [done|]. split; [lia|].
  apply Forall_forall. intros x Hx%list_elem_of_In. apply H3 in Hx.
  rewrite !andb_true_iff in Hx. destruct Hx as [[Ha Hb] Hc]. lia.
Qed.

Lemma BuilderOK_weaken (lo hi hi' : nat) (b : Builder) :
  BuilderOK lo hi b → (hi ≤ hi')%nat → BuilderOK lo hi' b.
Proof. intros (H1 & H2 & H3) Hle. split; [done|]. split; [lia|done]. Qed.

Lemma pushNext_OK (world tex : nat → XMFLOAT4X4) (mat geo : string) (lo hi : nat) (b : Builder) :
  BuilderOK lo hi b → Z.of_nat hi + 1 < 4294967296 →
  BuilderOK lo (S hi) (pushNext world tex mat geo b).
Proof.
  intros (H1 & H2 & H3) Hfit. unfold pushNext, BuilderOK. simpl.
  rewrite length_app. simpl. split; [|split].
  - unfold wrapUINT. rewrite Z.mod_small; lia.
  - lia.
  - apply Forall_app. split.
    + eapply Forall_impl; [exact H3|]. simpl. intros x [Hx1 Hx2]. split; [done|lia].
    + constructor; [|done]. simpl. split; [done|lia].
Qed.

Lemma mazeCell_OK (world tex : nat → XMFLOAT4X4) (rand : nat → Z) (lo hi calls : nat)
    (b : Builder) :
  BuilderOK lo hi b → Z.of_nat hi + 2 < 4294967296 →
  BuilderOK lo (S (S hi)) (Maze.mazeCell world tex rand (calls, b)).2.
Proof.
  intros Hb Hfit. unfold Maze.mazeCell. cbn [snd].
  destruct (1 <? Z.rem (rand calls) 5); destruct (1 <? Z.rem (rand (S calls)) 5).
  - apply pushNext_OK; [|lia]. apply pushNext_OK; [done|lia].
  - eapply BuilderOK_weaken; [apply pushNext_OK; [done|lia]|lia].
  - eapply BuilderOK_weaken; [apply pushNext_OK; [done|lia]|lia].
  - eapply BuilderOK_weaken; [done|lia].
Qed.

Lemma mazeCells_OK (world tex : nat → XMFLOAT4X4) (rand : nat → Z) (n : nat) :
  ∀ (lo hi calls : nat) (b : Builder),
    BuilderOK lo hi b → Z.of_nat hi + 2 * Z.of_nat n < 4294967296 →
    BuilderOK lo (hi + 2 * n) (Maze.mazeCells world tex rand n (calls, b)).2.
Proof.
  induction n as [|n IH]; intros lo hi calls b Hb Hfit; cbn [Maze.mazeCells].
  - eapply BuilderOK_weaken; [done|lia].
  - pose proof (mazeCell_OK world tex rand lo hi calls b Hb ltac:(lia)) as Hc.
    destruct (Maze.mazeCell world tex rand (calls, b)) as [calls' b'] eqn:Hcell.
    cbn [snd] in Hc.
    eapply BuilderOK_weaken; [apply (IH lo (S (S hi))); [done|lia]|lia].
Qed.

Lemma Maze_items_OK (world tex : nat → XMFLOAT4X4) (rand : nat → Z) :
  let items := Maze.BuildRenderItems world tex rand in
  Forall (λ e, NumFramesDirty e = gNumFrameResources) items
  ∧ Forall (λ e, 0 ≤ ObjCBIndex e < Z.of_nat (length items)) items
  ∧ (121 ≤ length items ≤ 193)%nat.
Proof.
  cbv zeta. unfold Maze.BuildRenderItems. cbv zeta.
  assert (H0 : BuilderOK 120 120 (Maze.castleAndBorder world tex))
    by (apply builderOKb_correct; vm_compute; reflexivity).
  pose proof (mazeCells_OK world tex rand (6 * 6) 120 120 0 _ H0 ltac:(lia)) as (H1 & H2 & H3).
  set (b6 := (Maze.mazeCells world tex rand (6 * 6) (0%nat, Maze.castleAndBorder world tex)).2) in *.
  rewrite length_app. simpl length. split; [|split].
  - apply Forall_app. split.
    + eapply Forall_impl; [exact H3|]. by intros x [? _].
    + by constructor.
  - apply Forall_app. split.
    + eapply Forall_impl; [exact H3|]. simpl. intros x [_ ?]. lia.
    + constructor; [|done]. simpl. lia.
  - lia.
Qed.

Lemma RepositoryScene_OK (items : list RenderItem) (mats : list Material) :
  RepositoryScene items mats → SceneOK items mats.
Proof.
  intros [world tex albedo fresnel roughness|world tex albedo fresnel roughness rand].
  - apply sceneOKb_correct. vm_compute. reflexivity.
  - destruct (Maze_items_OK world tex rand) as (H1 & H2 & H3). split.
    + exact H1.
    + exact H2.
    + unfold Maze.BuildMaterials.
      repeat (constructor; [reflexivity|]). constructor.
    + unfold Maze.BuildMaterials.
      repeat (constructor; [simpl; lia|]). constructor.
    + lia.
    + simpl. lia.
Qed.

(** ** Schedules stay inside the step relation *)

Lemma act_step (a : Action) (s s' : App) : act a s = Some s' → step s s'.
Proof.
  destruct a as [c|p]; simpl.
  - intros H. by eapply step_gpu.
  - intros H. eapply (step_cpu s p s').
    + destruct (pc s), (mCurrentFence s + 1 <? 18446744073709551616);
        destruct (cpu_step p s); simplify_eq; done.
    + intros Hpc. rewrite Hpc in H.
      destruct (Z.ltb_spec (mCurrentFence s + 1) 18446744073709551616); [done|done].
Qed.

Lemma run_steps (sched : list Action) (s s' : App) : run sched s = Some s' → rtc step s s'.
Proof.
  revert s. induction sched as [|a rest IH]; intros s; simpl.
  - intros [= ->]. apply rtc_refl.
  - destruct (act a s) as [s1|] eqn:Ha; simpl; [|done].
    intros H. eapply rtc_l; [eapply act_step; exact Ha|by apply IH].
Qed.

Lemma run_reachable (items : list RenderItem) (mats : list Material) (f0 : Z)
    (sched : list Action) (s : App) :
  run sched (Initialize items mats f0) = Some s → reachable items mats f0 s.
Proof. apply run_steps. Qed.

(** ** What each step of the submitting thread does *)

Lemma emitted_emit (s t : App) (evs : list Event) :
  Log t = Log s ++ evs → emitted s t = evs.
Proof. intros H. unfold emitted. by rewrite H, drop_app_length. Qed.

Section Steps.
Variable items0 : list RenderItem.
Variable mats0 : list Material.
Variable f0 : Z.
Hypothesis scene : SceneOK items0 mats0.
Hypothesis f0_range : 0 ≤ f0 < 18446744073709551616.

Abbreviation Inv' := (Inv items0 mats0 f0).
Abbreviation frames s := (framesDone f0 s).

Lemma step_acquire (s : App) (mainPassCB : PassConstants) :
  Inv' s → pc s = AtUpdate →
  ∃ fr, currFrameResource (CycleFrameResource s) = Some (slotOf (frames s + 1), fr)
        ∧ Fence fr = (if 3 <=? frames s then f0 + frames s - 2 else 0)
        ∧ cpu_step mainPassCB s
          = Ok (if negb (Fence fr =? 0) && (mFence s <? Fence fr)
                then goto InWait (emit [EvWait (Fence fr)] (CycleFrameResource s))
                else goto AtRefresh (CycleFrameResource s)).
Proof.
  intros HI Hpc.
  destruct (Inv_acquired items0 mats0 f0 s HI Hpc) as (fr & Hcur & Hidx & Hslot).
  exists fr. split; [done|]. split.
  - rewrite (slot_fence _ _ _ _ _ _ _ Hslot). apply slotFence_next.
    destruct HI as [H1 _ _ _ _ _ _]. unfold framesDone. lia.
  - unfold cpu_step. rewrite Hpc. cbv zeta. rewrite Hcur, (MustWait_eq _ _ _ Hcur).
    by destruct (negb _ && _).
Qed.

Lemma step_wake (s : App) (mainPassCB : PassConstants) :
  Inv' s → pc s = InWait →
  ∃ fr, currFrameResource s = Some (slotOf (frames s + 1), fr)
        ∧ Fence fr = (if 3 <=? frames s then f0 + frames s - 2 else 0)
        ∧ Fence fr ≤ mCurrentFence s
        ∧ cpu_step mainPassCB s
          = if Fence fr <=? mFence s then Ok (goto AtRefresh s) else Blocked.
Proof.
  intros HI Hpc.
  destruct (Inv_current items0 mats0 f0 s HI) as (fr & Hcur & Hslot); [by rewrite Hpc|].
  assert (Hf : Fence fr = (if 3 <=? frames s then f0 + frames s - 2 else 0)).
  { rewrite (slot_fence _ _ _ _ _ _ _ Hslot). apply slotFence_next.
    destruct HI as [H1 _ _ _ _ _ _]. unfold framesDone. lia. }
  exists fr. split; [done|]. split; [done|]. split.
  - rewrite Hf. destruct HI as [H1 _ _ _ _ _ _]. unfold framesDone. zbool; lia.
  - unfold cpu_step. by rewrite Hpc, Hcur.
Qed.

Lemma step_refresh (s : App) (mainPassCB : PassConstants) :
  Inv' s → pc s = AtRefresh →
  ∃ fr, currFrameResource s = Some (slotOf (frames s + 1), fr)
        ∧ Fence fr ≤ mFence s
        ∧ cpu_step mainPassCB s
          = Ok (goto AtDraw
                 (emit (refreshCalls (dirtyAfter (frames s)) (slotOf (frames s + 1))
                                     items0 mats0)
                   (withMaterials (map (setMatDirty (decDirty (dirtyAfter (frames s)))) mats0)
                     (withRitems (map (setItemDirty (decDirty (dirtyAfter (frames s)))) items0)
                       (withFrames
                          (<[slotOf (frames s + 1) :=
                               refreshedSlot (dirtyAfter (frames s)) items0 mats0
                                             mainPassCB fr]> (mFrameResources s))
                          s))))).
Proof.
  intros HI Hpc.
  destruct (Inv_current items0 mats0 f0 s HI) as (fr & Hcur & Hslot); [by rewrite Hpc|].
  destruct HI as [H1 H2 H3 [H4 H4'] H5 H6 H7]. destruct scene.
  unfold passesDone in *. rewrite Hpc in *. rewrite Z.add_0_r in *.
  assert (Hn : 0 ≤ frames s) by (unfold framesDone; lia).
  destruct Hslot as [Hs1 Hs2 Hs3 Hs4].
  exists fr. split; [done|]. split.
  { rewrite Hs1, slotFence_next by done. unfold framesDone in *. zbool; lia. }
  assert (Hocap : capacity (ObjectCB fr) = Z.of_nat (length items0)).
  { rewrite Hs2. unfold capacity. destruct (_ <=? _);
      unfold objStores; rewrite ?stores_length;
      unfold UploadBuffer_create; rewrite length_replicate; lia. }
  assert (Hmcap : capacity (MaterialCB fr) = Z.of_nat (length mats0)).
  { rewrite Hs3. unfold capacity. destruct (_ <=? _);
      unfold matStores; rewrite ?stores_length;
      unfold UploadBuffer_create; rewrite length_replicate; lia. }
  unfold cpu_step. rewrite Hpc.
  rewrite (UpdateConstants_uniform s (slotOf (frames s + 1)) fr (dirtyAfter (frames s))
             items0 mats0);
    try done; try (by rewrite ?Hocap, ?Hmcap). lia.
Qed.

Lemma step_draw (s : App) (mainPassCB : PassConstants) :
  Inv' s → pc s = AtDraw → mCurrentFence s + 1 < 18446744073709551616 →
  ∃ fr, currFrameResource s = Some (slotOf (frames s + 1), fr)
        ∧ Fence fr ≤ mFence s
        ∧ cpu_step mainPassCB s
          = Ok (goto AtUpdate
                 (emit [EvResetAlloc (slotOf (frames s + 1));
                        EvExecute (slotOf (frames s + 1));
                        EvSignal (mCurrentFence s + 1)]
                   (withCurrentFence (mCurrentFence s + 1)
                     (withFrames
                        (<[slotOf (frames s + 1) := setFence (mCurrentFence s + 1) fr]>
                           (mFrameResources s)) s)))).
Proof.
  intros HI Hpc Hroom.
  destruct (Inv_current items0 mats0 f0 s HI) as (fr & Hcur & Hslot); [by rewrite Hpc|].
  destruct HI as [H1 H2 H3 [H4 H4'] H5 H6 H7].
  rewrite Hpc in *.
  assert (Hn : 0 ≤ frames s) by (unfold framesDone; lia).
  exists fr. split; [done|]. split.
  { rewrite (slot_fence _ _ _ _ _ _ _ Hslot), slotFence_next by done.
    unfold framesDone in *. zbool; lia. }
  unfold cpu_step. rewrite Hpc, (Draw_eq s _ fr Hcur).
  unfold wrapUINT64. rewrite Z.mod_small by lia. done.
Qed.
End Steps.

(** ** What the log of [n] frames contains *)
Section LogFacts.
Variable items0 : list RenderItem.
Variable mats0 : list Material.
Variable f0 : Z.

Lemma refreshEvents_submitted (j : Z) : submitted (refreshEvents items0 mats0 j) = [].
Proof.
  unfold refreshEvents. rewrite submitted_app. simpl. rewrite app_nil_r.
  destruct (j <=? gNumFrameResources); [|done].
  unfold objCopies, matCopies. by rewrite submitted_app, !copies_submitted.
Qed.

(** One fence value per frame, consecutive from [f0 + 1]. *)
Lemma framesLog_submitted (n : nat) :
  submitted (framesLog items0 mats0 f0 n) = map (λ j, f0 + Z.of_nat j) (seq 1 n).
Proof.
  induction n as [|n IH]; [done|].
  cbn [framesLog]. rewrite !submitted_app, IH, refreshEvents_submitted.
  rewrite seq_S, map_app. simpl. done.
Qed.

Lemma in_flight_bound (c : Z) (n : nat) :
  Z.of_nat (length (List.filter (λ f, c <? f) (map (λ j, f0 + Z.of_nat j) (seq 1 n))))
  ≤ Z.max 0 (f0 + Z.of_nat n - c).
Proof.
  induction n as [|n IH]; [simpl; lia|].
  rewrite seq_S, map_app, List.filter_app, length_app. simpl.
  destruct (Z.ltb_spec c (f0 + Z.of_nat (S n))); simpl; lia.
Qed.

Lemma refreshEvents_execute (j : Z) (k : nat) :
  EvExecute k ∉ refreshEvents items0 mats0 j.
Proof.
  unfold refreshEvents. rewrite !elem_of_app, list_elem_of_singleton.
  intros [H|H]; [|done].
  destruct (j <=? gNumFrameResources); [|by apply elem_of_nil in H].
  apply elem_of_app in H as [H|H]; unfold objCopies, matCopies in H.
  - revert H. generalize 0%nat. induction items0 as [|e es IH]; intros q; simpl.
    + apply not_elem_of_nil.
    + rewrite elem_of_cons. intros [?|?]; [done|by eapply IH].
  - revert H. generalize 0%nat. induction mats0 as [|e es IH]; intros q; simpl.
    + apply not_elem_of_nil.
    + rewrite elem_of_cons. intros [?|?]; [done|by eapply IH].
Qed.

(** A slot holds a fence other than 0 exactly when one of the frames so far
    was submitted from it. *)
Lemma framesLog_execute (n k : nat) :
  0 ≤ f0 → (k < 3)%nat →
  EvExecute k ∈ framesLog items0 mats0 f0 n ↔ slotFence f0 (Z.of_nat n) (Z.of_nat k) ≠ 0.
Proof.
  intros Hf Hk. induction n as [|n IH].
  - simpl. split; [by intros ?%elem_of_nil|]. intros H. destruct H.
    unfold slotFence, gNumFrameResources. zbool; [|done].
    Z.to_euclidean_division_equations; lia.
  - cbn [framesLog]. rewrite !elem_of_app, IH.
    replace (Z.of_nat (S n)) with (Z.of_nat n + 1) by lia.
    rewrite slotFence_step by lia.
    unfold drawEvents. rewrite !elem_of_cons, elem_of_nil.
    destruct (Z.eqb_spec ((Z.of_nat n + 1) mod 3) (Z.of_nat k)) as [Heq|Hne].
    + split; [lia|]. intros _. right. right. right. left. f_equal.
      unfold slotOf, gNumFrameResources. lia.
    + split; [|tauto]. intros [H|[H|H]]; [done|by apply refreshEvents_execute in H|].
      destruct H as [H|[H|[H|H]]]; try done. injection H as H.
      destruct Hne. rewrite H. symmetry. apply slotOf_Z.
Qed.

Lemma refreshEvents_uploads (j : Z) (k p : nat) :
  uploads k p (refreshEvents items0 mats0 j)
  = if (j <=? gNumFrameResources) && (slotOf j =? k)%nat && (p <? length items0)%nat
    then 1%nat else 0%nat.
Proof.
  unfold refreshEvents. rewrite uploads_app.
  replace (uploads k p [EvCopyPass (slotOf j) 0]) with 0%nat by done.
  rewrite Nat.add_0_r.
  destruct (j <=? gNumFrameResources); [|done].
  unfold objCopies, matCopies. rewrite uploads_app, objCopies_uploads, matCopies_uploads.
  simpl. rewrite Nat.add_0_r. by destruct (slotOf j =? k)%nat.
Qed.

(** The constants of render item [p] are in slot [k] once the frame that
    first works in [k] has run its refresh, and are copied there only once. *)
Lemma framesLog_uploads (n k p : nat) :
  (k < 3)%nat →
  uploads k p (framesLog items0 mats0 f0 n)
  = if (firstUse (Z.of_nat k) <=? Z.of_nat n) && (p <? length items0)%nat
    then 1%nat else 0%nat.
Proof.
  intros Hk. induction n as [|n IH].
  - simpl. unfold firstUse, gNumFrameResources. zbool; try done; lia.
  - cbn [framesLog]. rewrite !uploads_app, IH, refreshEvents_uploads.
    replace (uploads k p (drawEvents f0 (Z.of_nat (S n)))) with 0%nat by done.
    replace (Z.of_nat (S n)) with (Z.of_nat n + 1) by lia.
    rewrite (firstUse_step (Z.of_nat n)) by lia.
    rewrite Nat.add_0_r.
    assert (Hs : (slotOf (Z.of_nat n + 1) =? k)%nat
                 = (Z.of_nat k =? (Z.of_nat n + 1) mod 3)).
    { pose proof (slotOf_Z (Z.of_nat n + 1)).
      destruct (Nat.eqb_spec (slotOf (Z.of_nat n + 1)) k), (Z.eqb_spec (Z.of_nat k) ((Z.of_nat n + 1) mod 3));
        try done; lia. }
    rewrite Hs. unfold gNumFrameResources.
    destruct (p <? length items0)%nat; rewrite ?andb_true_r, ?andb_false_r; [|done].
    pose proof (firstUse_next (Z.of_nat n) ltac:(lia)) as Hfn.
    destruct (Z.eqb_spec (Z.of_nat k) ((Z.of_nat n + 1) mod 3)) as [->|Hne].
    + rewrite Hfn. zbool; simpl; try done; lia.
    + rewrite andb_false_r, andb_false_l, orb_false_r.
      by destruct (firstUse (Z.of_nat k) <=? Z.of_nat n).
Qed.
End LogFacts.

(** * The claims *)

(** ** C10: what one refresh touches *)

(** C10.  When the loop of [UpdateObjectCBs] processes a dirty render item,
    it stores that item's record in the one cell of the current slot's object
    buffer that the item's [ObjCBIndex] names, and takes one from that item's
    [NumFramesDirty].  The item's [World], [TexTransform], [ObjCBIndex], [Mat]
    and [Geo], every other render item, the materials, every other cell of the
    buffer, the slot's material and pass buffers and its fence, the other
    slots, the cursor and both fence values are left as they were; the one
    call made is the copy. *)
Theorem refresh_touches_only_its_cell (s : App) (k : nat) (fr : FrameResource)
    (p : nat) (e : RenderItem) :
  currFrameResource s = Some (k, fr) →
  mAllRitems s !! p = Some e →
  0 < NumFramesDirty e →
  0 ≤ ObjCBIndex e < capacity (ObjectCB fr) →
  ∃ s' e' fr',
    RefreshObjectAt p s = Some s'
    ∧ mAllRitems s' !! p = Some e'
    ∧ NumFramesDirty e' = NumFramesDirty e - 1
    ∧ World e' = World e ∧ TexTransform e' = TexTransform e
    ∧ ObjCBIndex e' = ObjCBIndex e ∧ Mat e' = Mat e ∧ Geo e' = Geo e
    ∧ (∀ q, q ≠ p → mAllRitems s' !! q = mAllRitems s !! q)
    ∧ mMaterials s' = mMaterials s
    ∧ mFrameResources s' !! k = Some fr'
    ∧ ObjectCB fr' !! Z.to_nat (ObjCBIndex e) = Some (Some (objConstants e))
    ∧ (∀ i, i ≠ Z.to_nat (ObjCBIndex e) → ObjectCB fr' !! i = ObjectCB fr !! i)
    ∧ MaterialCB fr' = MaterialCB fr ∧ PassCB fr' = PassCB fr ∧ Fence fr' = Fence fr
    ∧ (∀ k', k' ≠ k → mFrameResources s' !! k' = mFrameResources s !! k')
    ∧ mCurrFrameResource s' = mCurrFrameResource s
    ∧ mCurrFrameResourceIndex s' = mCurrFrameResourceIndex s
    ∧ mCurrentFence s' = mCurrentFence s ∧ mFence s' = mFence s ∧ pc s' = pc s
    ∧ emitted s s' = [EvCopyObject k p (ObjCBIndex e)].
Proof.
  intros Hcur He Hd Hr.
  rewrite (RefreshObjectAt_eq s k fr p e Hcur He).
  destruct (Z.ltb_spec 0 (NumFramesDirty e)); [|lia].
  rewrite (CopyData_Some _ _ _ Hr). cbn [mbind option_bind].
  apply currFrameResource_Some in Hcur as [Hk Hfr].
  pose proof (lookup_lt_Some _ _ _ Hfr) as Hklt.
  pose proof (lookup_lt_Some _ _ _ He) as Hplt.
  eexists _, (setItemDirty (NumFramesDirty e - 1) e),
    (setObjectCB (<[Z.to_nat (ObjCBIndex e) := Some (objConstants e)]> (ObjectCB fr)) fr).
  split; [reflexivity|]. cbn.
  repeat split; try done.
  - by apply list_lookup_insert_eq.
  - intros q Hq. by apply list_lookup_insert_ne.
  - by apply list_lookup_insert_eq.
  - apply list_lookup_insert_eq. unfold capacity in Hr. lia.
  - intros i Hi. by apply list_lookup_insert_ne.
  - intros k' Hk'. by apply list_lookup_insert_ne.
  - apply emitted_emit. done.
Qed.

Lemma refresh_touches_only_its_cell_witness :
  ∃ s' e', RefreshObjectAt 0 castleAcquired = Some s'
           ∧ mAllRitems s' !! 0%nat = Some e'
           ∧ NumFramesDirty e' = NumFramesDirty castleFirstItem - 1.
Proof.
  destruct (refresh_touches_only_its_cell castleAcquired 1 (castleSlot castleAcquired 1)
              0 castleFirstItem) as (s' & e' & fr' & Hs' & He' & Hd & _).
  - vm_compute; reflexivity.
  - vm_compute; reflexivity.
  - vm_compute; reflexivity.
  - split; vm_compute; [intros H; discriminate H|reflexivity].
  - exists s', e'. split; [exact Hs'|]. split; [exact He'|exact Hd].
Defined.

(** ** C7: clean entities are skipped *)

Lemma RefreshObjectAt_clean (s : App) (p : nat) (e : RenderItem) :
  is_Some (currFrameResource s) →
  mAllRitems s !! p = Some e → NumFramesDirty e ≤ 0 →
  RefreshObjectAt p s = Some s.
Proof.
  intros [[k fr] Hcur] He Hd. rewrite (RefreshObjectAt_eq s k fr p e Hcur He).
  by destruct (Z.ltb_spec 0 (NumFramesDirty e)); [lia|].
Qed.

Lemma RefreshMaterialAt_clean (s : App) (p : nat) (m : Material) :
  is_Some (currFrameResource s) →
  mMaterials s !! p = Some m → MatNumFramesDirty m ≤ 0 →
  RefreshMaterialAt p s = Some s.
Proof.
  intros [[k fr] Hcur] He Hd. rewrite (RefreshMaterialAt_eq s k fr p m Hcur He).
  by destruct (Z.ltb_spec 0 (MatNumFramesDirty m)); [lia|].
Qed.

(** In a reachable state all dirty counts are equal. *)
Lemma reachable_uniform (items : list RenderItem) (mats : list Material) (f0 : Z) (s : App) :
  SceneOK items mats → 0 ≤ f0 < 18446744073709551616 →
  reachable items mats f0 s →
  Forall (λ e, NumFramesDirty e = dirtyAfter (passesDone f0 s)) (mAllRitems s)
  ∧ Forall (λ m, MatNumFramesDirty m = dirtyAfter (passesDone f0 s)) (mMaterials s).
Proof.
  intros Hsc Hf Hr. destruct (reachable_Inv items mats f0 Hsc Hf s Hr) as [_ H2 H3 _ _ _ _].
  rewrite H2, H3. split; apply Forall_forall; by intros x (y & -> & _)%list_elem_of_fmap.
Qed.

(** C7.  In every reachable state in which the refresh pass is about to run,
    a render item (a material) whose dirty count is 0 is skipped: the body of
    the loop returns the state it was given, and so does the whole pass of
    [UpdateObjectCBs] ([UpdateMaterialCBs]).  No [CopyData] call is logged and
    every cell of every buffer, the entity's own included, is what it was. *)
Theorem no_redundant_writes (items : list RenderItem) (mats : list Material) (f0 : Z)
    (s : App) :
  SceneOK items mats → 0 ≤ f0 < 18446744073709551616 →
  reachable items mats f0 s → pc s = AtRefresh →
  (∀ p e, mAllRitems s !! p = Some e → NumFramesDirty e = 0 →
          RefreshObjectAt p s = Some s ∧ UpdateObjectCBs s = Some s)
  ∧ (∀ p m, mMaterials s !! p = Some m → MatNumFramesDirty m = 0 →
            RefreshMaterialAt p s = Some s ∧ UpdateMaterialCBs s = Some s).
Proof.
  intros Hsc Hf Hr Hpc.
  pose proof (reachable_Inv items mats f0 Hsc Hf s Hr) as HI.
  destruct (Inv_current items mats f0 s HI) as (fr & Hcur & _); [by rewrite Hpc|].
  assert (Hsome : is_Some (currFrameResource s)) by eauto.
  destruct (reachable_uniform items mats f0 s Hsc Hf Hr) as [Hi Hm].
  split.
  - intros p e He Hd. split; [apply (RefreshObjectAt_clean s p e); [done|done|lia]|].
    apply UpdateObjectCBs_clean; [done|].
    assert (Hz : dirtyAfter (passesDone f0 s) = 0).
    { rewrite Forall_forall in Hi. rewrite <- (Hi e); [done|]. by eapply list_elem_of_lookup_2. }
    eapply Forall_impl; [exact Hi|]. simpl. intros x Hx. lia.
  - intros p m He Hd. split; [apply (RefreshMaterialAt_clean s p m); [done|done|lia]|].
    apply UpdateMaterialCBs_clean; [done|].
    assert (Hz : dirtyAfter (passesDone f0 s) = 0).
    { rewrite Forall_forall in Hm. rewrite <- (Hm m); [done|]. by eapply list_elem_of_lookup_2. }
    eapply Forall_impl; [exact Hm|]. simpl. intros x Hx. lia.
Qed.

Lemma no_redundant_writes_witness :
  pc castleSettled = AtRefresh
  ∧ RefreshObjectAt 0 castleSettled = Some castleSettled
  ∧ UpdateObjectCBs castleSettled = Some castleSettled.
Proof.
  assert (Hpc : pc castleSettled = AtRefresh) by (vm_compute; reflexivity).
  destruct (no_redundant_writes castleItems castleMats 1 castleSettled) as [Ho _].
  - apply sceneOKb_correct; vm_compute; reflexivity.
  - lia.
  - apply (run_reachable _ _ _ (threeFrames ++ [Cpu plainPass])); vm_compute; reflexivity.
  - exact Hpc.
  - split; [exact Hpc|].
    apply (Ho 0%nat (setItemDirty 0 castleFirstItem)); vm_compute; reflexivity.
Defined.

(** ** C5: the dirty counter *)

(** How often the constants of a render item have been copied into a slot,
    in any reachable state. *)
Lemma reachable_uploads (items : list RenderItem) (mats : list Material) (f0 : Z)
    (s : App) (k p : nat) :
  SceneOK items mats → 0 ≤ f0 < 18446744073709551616 →
  reachable items mats f0 s → (k < 3)%nat →
  uploads k p (Log s)
  = if (firstUse (Z.of_nat k) <=? passesDone f0 s) && (p <? length items)%nat
    then 1%nat else 0%nat.
Proof.
  intros Hsc Hf Hr Hk.
  destruct (reachable_Inv items mats f0 Hsc Hf s Hr) as [H1 _ _ _ _ _ H7].
  assert (Hn : 0 ≤ framesDone f0 s) by (unfold framesDone; lia).
  rewrite <- uploads_hostEvents, H7, uploads_app, framesLog_uploads by done.
  rewrite Z2Nat.id by done. unfold passesDone.
  destruct (pc s); rewrite ?Z.add_0_r; try (simpl; by rewrite Nat.add_0_r).
  rewrite refreshEvents_uploads, firstUse_step by lia.
  assert (Hs : (slotOf (framesDone f0 s + 1) =? k)%nat
               = (Z.of_nat k =? (framesDone f0 s + 1) mod 3)).
  { pose proof (slotOf_Z (framesDone f0 s + 1)).
    destruct (Nat.eqb_spec (slotOf (framesDone f0 s + 1)) k),
      (Z.eqb_spec (Z.of_nat k) ((framesDone f0 s + 1) mod 3)); try done; lia. }
  rewrite Hs. unfold gNumFrameResources.
  destruct (p <? length items)%nat; rewrite ?andb_true_r, ?andb_false_r; [|done].
  pose proof (firstUse_next (framesDone f0 s) Hn) as Hfn.
  destruct (Z.eqb_spec (Z.of_nat k) ((framesDone f0 s + 1) mod 3)) as [->|Hne].
  - rewrite Hfn. zbool; simpl; try done; lia.
  - rewrite andb_false_r, andb_false_l, orb_false_r, Nat.add_0_r. done.
Qed.

Lemma firstUse_le (k : nat) : (k < 3)%nat → 1 ≤ firstUse (Z.of_nat k) ≤ 3.
Proof. intros. unfold firstUse, gNumFrameResources. zbool; lia. Qed.


(** C5.  For every render item of a well-formed scene, in every reachable
    state: its transforms are the ones it was built with, and it was built
    with the counter at [gNumFrameResources]; the counter lies between 0 and
    [gNumFrameResources] and equals [max 0 (3 - refresh passes run)]; a
    refresh of a dirty item takes exactly one from it; and when it is 0,
    three refresh passes have run, each of the three slots having received
    the item's constants exactly once. *)
Theorem dirty_counter_invariant (items : list RenderItem) (mats : list Material) (f0 : Z)
    (s : App) (p : nat) (e : RenderItem) :
  SceneOK items mats → 0 ≤ f0 < 18446744073709551616 →
  reachable items mats f0 s → mAllRitems s !! p = Some e →
  (∃ e0, items !! p = Some e0
         ∧ NumFramesDirty e0 = gNumFrameResources
         ∧ World e = World e0 ∧ TexTransform e = TexTransform e0)
  ∧ 0 ≤ NumFramesDirty e ≤ gNumFrameResources
  ∧ NumFramesDirty e = Z.max 0 (gNumFrameResources - passesDone f0 s)
  ∧ (0 < NumFramesDirty e →
     ∀ s', RefreshObjectAt p s = Some s' →
           ∃ e', mAllRitems s' !! p = Some e'
                 ∧ NumFramesDirty e' = NumFramesDirty e - 1)
  ∧ (NumFramesDirty e = 0 →
     gNumFrameResources ≤ passesDone f0 s
     ∧ ∀ k, (k < Z.to_nat gNumFrameResources)%nat → uploads k p (Log s) = 1%nat).
Proof.
  intros Hsc Hf Hr He.
  pose proof (reachable_Inv items mats f0 Hsc Hf s Hr) as HI.
  destruct HI as [H1 H2 H3 H4 H5 H6 H7].
  assert (Hn : 0 ≤ passesDone f0 s)
    by (unfold passesDone, framesDone; destruct (pc s); lia).
  pose proof He as He'. rewrite H2 in He'.
  apply list_lookup_fmap_Some in He' as (e0 & -> & He0).
  split; [|split; [|split; [|split]]].
  - exists e0. repeat split; try done.
    destruct Hsc as [Hd _ _ _ _ _]. rewrite Forall_forall in Hd. apply Hd.
    by eapply list_elem_of_lookup_2.
  - simpl. unfold dirtyAfter, gNumFrameResources. lia.
  - done.
  - simpl. intros Hd s' Hs'.
    unfold RefreshObjectAt in Hs'.
    destruct (currFrameResource s) as [[k fr]|]; simpl in Hs'; [|done].
    rewrite He in Hs'. simpl in Hs'.
    destruct (Z.ltb_spec 0 (dirtyAfter (passesDone f0 s))); [|lia].
    destruct (CopyData _ _ _); simpl in Hs'; [|done].
    injection Hs' as <-. simpl. eexists. split.
    + apply list_lookup_insert_eq. by eapply lookup_lt_Some.
    + done.
  - simpl. intros Hz. unfold dirtyAfter, gNumFrameResources in *. split; [lia|].
    intros k Hk. rewrite (reachable_uploads items mats f0 s k p Hsc Hf Hr) by lia.
    pose proof (firstUse_le k ltac:(lia)).
    apply lookup_lt_Some in He0.
    destruct (Z.leb_spec (firstUse (Z.of_nat k)) (passesDone f0 s)); [|lia].
    destruct (Nat.ltb_spec p (length items)); [done|lia].
Qed.

Lemma dirty_counter_invariant_witness :
  0 ≤ NumFramesDirty (setItemDirty 2 castleFirstItem) ≤ gNumFrameResources
  ∧ NumFramesDirty (setItemDirty 2 castleFirstItem)
    = Z.max 0 (gNumFrameResources - passesDone 1 castleRefreshed).
Proof.
  destruct (dirty_counter_invariant castleItems castleMats 1 castleRefreshed 0
              (setItemDirty 2 castleFirstItem)) as (_ & Hb & Hd & _).
  - apply sceneOKb_correct; vm_compute; reflexivity.
  - lia.
  - apply (run_reachable _ _ _ [Cpu plainPass; Cpu plainPass]); vm_compute; reflexivity.
  - vm_compute; reflexivity.
  - split; [exact Hb|exact Hd].
Defined.

(** ** C8: fence bookkeeping *)

Lemma seq_fences_sorted (f0 : Z) (n : nat) (a : nat) :
  StronglySorted Z.lt (map (λ j, f0 + Z.of_nat j) (seq a n)).
Proof.
  revert a. induction n as [|n IH]; intros a; simpl; constructor; [apply IH|].
  apply Forall_forall. intros x (j & -> & Hj%elem_of_seq)%list_elem_of_fmap. lia.
Qed.

(** The fence values signalled so far, in any reachable state. *)
Lemma fence_bookkeeping_submitted (items : list RenderItem) (mats : list Material) (f0 : Z)
    (s : App) :
  SceneOK items mats → 0 ≤ f0 < 18446744073709551616 →
  reachable items mats f0 s →
  submitted (Log s) = map (λ j, f0 + Z.of_nat j) (seq 1 (Z.to_nat (framesDone f0 s))).
Proof.
  intros Hsc Hf Hr.
  destruct (reachable_Inv items mats f0 Hsc Hf s Hr) as [_ _ _ _ _ _ H7].
  rewrite <- submitted_hostEvents, H7, submitted_app, framesLog_submitted.
  destruct (pc s); rewrite ?refreshEvents_submitted; by rewrite app_nil_r.
Qed.

(** C8.  In every reachable state, over runs in which the 64-bit counter has
    not wrapped: the [Draw] step adds exactly one to [mCurrentFence], stores
    the new value in the acquired slot, and the last call it makes signals
    that new value; the values signalled so far are [f0 + 1, ..., f0 + n] in
    this order, a strictly increasing sequence; and a slot's stored fence is 0
    exactly when no command list has been submitted from that slot. *)
Theorem fence_bookkeeping (items : list RenderItem) (mats : list Material) (f0 : Z)
    (s : App) :
  SceneOK items mats → 0 ≤ f0 < 18446744073709551616 →
  reachable items mats f0 s →
  (∀ mainPassCB s',
     pc s = AtDraw → mCurrentFence s + 1 < 18446744073709551616 →
     cpu_step mainPassCB s = Ok s' →
     mCurrentFence s' = mCurrentFence s + 1
     ∧ (∃ k fr', mCurrFrameResource s = Some k
                 ∧ mFrameResources s' !! k = Some fr'
                 ∧ Fence fr' = mCurrentFence s'
                 ∧ emitted s s' = [EvResetAlloc k; EvExecute k; EvSignal (mCurrentFence s')]))
  ∧ submitted (Log s) = map (λ j, f0 + Z.of_nat j) (seq 1 (Z.to_nat (framesDone f0 s)))
  ∧ StronglySorted Z.lt (submitted (Log s))
  ∧ (∀ k fr, mFrameResources s !! k = Some fr → (Fence fr = 0 ↔ EvExecute k ∉ Log s)).
Proof.
  intros Hsc Hf Hr.
  pose proof (reachable_Inv items mats f0 Hsc Hf s Hr) as HI.
  pose proof (fence_bookkeeping_submitted items mats f0 s Hsc Hf Hr) as Hsub.
  split; [|split; [done|split]].
  - intros mainPassCB s' Hpc Hroom Hstep.
    destruct (step_draw items mats f0 s mainPassCB HI Hpc Hroom) as (fr & Hcur & _ & Heq).
    rewrite Heq in Hstep. injection Hstep as <-. cbn. split; [done|].
    apply currFrameResource_Some in Hcur as [Hk Hfr].
    exists (slotOf (framesDone f0 s + 1)), (setFence (mCurrentFence s + 1) fr).
    repeat split; try done.
    + apply list_lookup_insert_eq. by eapply lookup_lt_Some.
    + by apply emitted_emit.
  - rewrite Hsub. apply seq_fences_sorted.
  - intros k fr Hk.
    destruct HI as [H1 _ _ [H4 H4'] _ _ H7].
    assert (Hk3 : (k < 3)%nat) by (apply lookup_lt_Some in Hk; lia).
    assert (Hn : 0 ≤ framesDone f0 s) by (unfold framesDone; lia).
    destruct (H4' _ _ Hk) as [Hfence _ _ _]. rewrite Hfence.
    assert (Hex : EvExecute k ∈ Log s
                  ↔ EvExecute k ∈ framesLog items mats f0 (Z.to_nat (framesDone f0 s))).
    { transitivity (EvExecute k ∈ hostEvents (Log s)).
      - rewrite hostEvents_elem. split; [intros H; by split|by intros [H _]].
      - rewrite H7, elem_of_app. split; [|by left].
        intros [?|H]; [done|]. destruct (pc s); try by apply elem_of_nil in H.
        by apply refreshEvents_execute in H. }
    rewrite Hex, framesLog_execute, Z2Nat.id by lia.
    lia.
Qed.

Lemma fence_bookkeeping_witness :
  mCurrentFence castleDrawn = mCurrentFence castleRefreshed + 1
  ∧ StronglySorted Z.lt (submitted (Log castleRefreshed)).
Proof.
  destruct (fence_bookkeeping castleItems castleMats 1 castleRefreshed) as (Hd & _ & Hs & _).
  - apply sceneOKb_correct; vm_compute; reflexivity.
  - lia.
  - apply (run_reachable _ _ _ [Cpu plainPass; Cpu plainPass]); vm_compute; reflexivity.
  - destruct (Hd plainPass castleDrawn) as [H _].
    + vm_compute; reflexivity.
    + vm_compute; reflexivity.
    + vm_compute; reflexivity.
    + split; [exact H|exact Hs].
Defined.

(** ** C2: the ring bound *)

Lemma copies_slot {E} (index : E → Z) (call : nat → Z → Event) (k k0 p : nat) (es : list E) :
  (∀ q i, records_into k (call q i) → k = k0) →
  Exists (records_into k) (copies index call p es) → k = k0.
Proof.
  intros Hc. revert p. induction es as [|e es IH]; intros p; simpl.
  - by intros ?%Exists_nil.
  - intros [H|H]%Exists_cons; eauto.
Qed.

Lemma refreshCalls_slot (d : Z) (k k0 : nat) (items : list RenderItem) (mats : list Material) :
  Exists (records_into k) (refreshCalls d k0 items mats) → k = k0.
Proof.
  unfold refreshCalls. intros [H|H]%Exists_app.
  - destruct (0 <? d); [|by apply Exists_nil in H].
    apply Exists_app in H as [H|H]; eapply copies_slot in H; try done;
      simpl; by intros ? ? ->.
  - apply Exists_cons in H as [H|H]; [by simpl in H|by apply Exists_nil in H].
Qed.

(** C2.  In every reachable state at most three submitted frames are
    unretired (their signalled fence value lies above the completed value of
    the device); and whenever a step records into a slot (writes one of its
    constant buffers or resets its command allocator), the completed value of
    the device has reached the fence stored in that slot. *)
Theorem ring_bound_invariant (items : list RenderItem) (mats : list Material) (f0 : Z)
    (s : App) :
  SceneOK items mats → 0 ≤ f0 < 18446744073709551616 →
  reachable items mats f0 s →
  Z.of_nat (length (unretired s)) ≤ gNumFrameResources
  ∧ ∀ s' k fr,
      step s s' → mFrameResources s !! k = Some fr →
      Exists (records_into k) (emitted s s') →
      Fence fr ≤ mFence s.
Proof.
  intros Hsc Hf Hr.
  pose proof (reachable_Inv items mats f0 Hsc Hf s Hr) as HI. split.
  - pose proof (fence_bookkeeping_submitted items mats f0 s Hsc Hf Hr) as Hsub.
    unfold unretired. rewrite Hsub.
    pose proof (in_flight_bound f0 (mFence s) (Z.to_nat (framesDone f0 s))) as Hb.
    destruct HI as [H1 _ _ _ _ H6 _]. unfold framesDone, gNumFrameResources in *.
    rewrite Z2Nat.id in Hb by lia. destruct (pc s); lia.
  - intros s' k fr Hstep Hk Hrec.
    inversion Hstep as [s0 c s1 Hg|s0 p s1 Hc Hroom]; subst.
    + unfold gpu_step in Hg. destruct (_ && _); [|done]. injection Hg as <-.
      unfold emitted in Hrec. simpl in Hrec. rewrite drop_all in Hrec.
      by apply Exists_nil in Hrec.
    + destruct (pc s) eqn:Hpc.
      * destruct (step_acquire items mats f0 s p HI Hpc) as (fr' & _ & _ & Heq).
        rewrite Heq in Hc. injection Hc as <-.
        destruct (negb _ && _).
        -- rewrite (emitted_emit s _ [EvWait (Fence fr')]) in Hrec by done.
           apply Exists_cons in Hrec as [H|H]; [done|by apply Exists_nil in H].
        -- rewrite (emitted_emit s _ []) in Hrec by (simpl; by rewrite app_nil_r).
           by apply Exists_nil in Hrec.
      * destruct (step_wake items mats f0 s p HI Hpc) as (fr' & _ & _ & _ & Heq).
        rewrite Heq in Hc. destruct (_ <=? _); [|done]. injection Hc as <-.
        rewrite (emitted_emit s _ []) in Hrec by (simpl; by rewrite app_nil_r).
        by apply Exists_nil in Hrec.
      * destruct (step_refresh items mats f0 Hsc s p HI Hpc) as (fr' & Hcur & Hret & Heq).
        rewrite Heq in Hc. injection Hc as <-.
        rewrite (emitted_emit s _ (refreshCalls (dirtyAfter (framesDone f0 s))
                   (slotOf (framesDone f0 s + 1)) items mats)) in Hrec by done.
        apply refreshCalls_slot in Hrec as ->.
        apply currFrameResource_Some in Hcur as [_ Hfr]. by simplify_eq.
      * destruct (step_draw items mats f0 s p HI Hpc (Hroom eq_refl))
          as (fr' & Hcur & Hret & Heq).
        rewrite Heq in Hc. injection Hc as <-.
        rewrite (emitted_emit s _ [EvResetAlloc (slotOf (framesDone f0 s + 1));
                   EvExecute (slotOf (framesDone f0 s + 1));
                   EvSignal (mCurrentFence s + 1)]) in Hrec by done.
        apply Exists_cons in Hrec as [H|H].
        -- simpl in H. subst k.
           apply currFrameResource_Some in Hcur as [_ Hfr]. by simplify_eq.
        -- apply Exists_cons in H as [H|H]; [done|].
           apply Exists_cons in H as [H|H]; [done|by apply Exists_nil in H].
Qed.

Lemma ring_bound_invariant_witness :
  length (unretired castleStalled) = 3%nat
  ∧ Z.of_nat (length (unretired castleStalled)) ≤ gNumFrameResources.
Proof.
  split; [vm_compute; reflexivity|].
  destruct (ring_bound_invariant castleItems castleMats 1 castleStalled) as [H _].
  - apply sceneOKb_correct; vm_compute; reflexivity.
  - lia.
  - apply (run_reachable _ _ _ (stalledSchedule 3 plainPass)); vm_compute; reflexivity.
  - exact H.
Defined.

(** ** C3: the one suspension point *)

Lemma hostEvents_elem_not_wait (f : Z) (l : list Event) :
  EvWait f ∈ l → hostEvents l = l → False.
Proof.
  intros Hin Heq. rewrite <- Heq in Hin. apply hostEvents_elem in Hin as [_ H]. done.
Qed.

(** C3.  In every reachable state, for the step the submitting thread takes:
    - between frames, [Update] moves the cursor to the next slot modulo three
      and selects that slot; it goes on without waiting (no wait is logged,
      the thread is past the wait) exactly when the fence stored in the slot is
      0 or the completed value of the device has reached it, and otherwise it
      logs a wait for exactly that fence and suspends;
    - suspended, the thread cannot step while the completed value is below
      that fence, and goes on as soon as it has reached it; the fence is one
      the device has been asked to signal, so the device can reach it;
    - the thread is never blocked anywhere else, and a wait is logged by no
      other step. *)
Theorem acquire_blocking (items : list RenderItem) (mats : list Material) (f0 : Z)
    (s : App) (mainPassCB : PassConstants) :
  SceneOK items mats → 0 ≤ f0 < 18446744073709551616 →
  reachable items mats f0 s →
  (pc s = AtUpdate →
   ∃ s' k fr,
     cpu_step mainPassCB s = Ok s'
     ∧ mCurrFrameResourceIndex s'
       = (mCurrFrameResourceIndex s + 1) mod gNumFrameResources
     ∧ k = Z.to_nat (mCurrFrameResourceIndex s')
     ∧ mCurrFrameResource s' = Some k
     ∧ mFrameResources s !! k = Some fr
     ∧ (Fence fr = 0 ∨ Fence fr ≤ mFence s ↔ pc s' = AtRefresh ∧ emitted s s' = [])
     ∧ (¬ (Fence fr = 0 ∨ Fence fr ≤ mFence s)
        ↔ pc s' = InWait ∧ emitted s s' = [EvWait (Fence fr)]))
  ∧ (pc s = InWait →
     ∃ k fr,
       mCurrFrameResource s = Some k
       ∧ mFrameResources s !! k = Some fr
       ∧ (mFence s < Fence fr ↔ cpu_step mainPassCB s = Blocked)
       ∧ (Fence fr ≤ mFence s ↔ cpu_step mainPassCB s = Ok (goto AtRefresh s))
       ∧ Fence fr ≤ mCurrentFence s)
  ∧ (cpu_step mainPassCB s = Blocked → pc s = InWait)
  ∧ (∀ s' f, cpu_step mainPassCB s = Ok s' → EvWait f ∈ emitted s s' → pc s = AtUpdate).
Proof.
  intros Hsc Hf Hr.
  pose proof (reachable_Inv items mats f0 Hsc Hf s Hr) as HI.
  split; [|split; [|split]].
  - intros Hpc.
    destruct (step_acquire items mats f0 s mainPassCB HI Hpc) as (fr & Hcur & _ & Heq).
    destruct (Inv_acquired items mats f0 s HI Hpc) as (fr' & Hcur' & Hidx & _).
    rewrite Hcur in Hcur'. injection Hcur' as <-.
    apply currFrameResource_Some in Hcur as [Hk Hfr].
    assert (Hidx' : mCurrFrameResourceIndex (CycleFrameResource s)
                    = (mCurrFrameResourceIndex s + 1) mod gNumFrameResources).
    { rewrite Hidx. destruct HI as [_ _ _ _ H5 _ _]. rewrite Hpc in H5.
      destruct H5 as [-> _]. unfold gNumFrameResources. symmetry. apply mod3_succ. }
    assert (Hslot : slotOf (framesDone f0 s + 1)
                    = Z.to_nat (mCurrFrameResourceIndex (CycleFrameResource s)))
      by (by rewrite Hidx).
    eexists _, (slotOf (framesDone f0 s + 1)), fr. split; [exact Heq|].
    destruct (negb (Fence fr =? 0) && (mFence s <? Fence fr)) eqn:Hb.
    + assert (Hcond : ¬ (Fence fr = 0 ∨ Fence fr ≤ mFence s)).
      { apply andb_true_iff in Hb as [H1 H2]. apply negb_true_iff, Z.eqb_neq in H1.
        apply Z.ltb_lt in H2. lia. }
      split; [exact Hidx'|]. split; [exact Hslot|]. split; [exact Hk|]. split; [exact Hfr|].
      split; (split; [intros H|intros [H H']]); try done.
      split; [done|]. by apply emitted_emit.
    + assert (Hcond : Fence fr = 0 ∨ Fence fr ≤ mFence s).
      { apply andb_false_iff in Hb as [H1|H2].
        - apply negb_false_iff, Z.eqb_eq in H1. by left.
        - apply Z.ltb_ge in H2. by right. }
      split; [exact Hidx'|]. split; [exact Hslot|]. split; [exact Hk|]. split; [exact Hfr|].
      split; (split; [intros H|intros [H H']]); try done.
      split; [done|]. apply emitted_emit. simpl. by rewrite app_nil_r.
  - intros Hpc.
    destruct (step_wake items mats f0 s mainPassCB HI Hpc) as (fr & Hcur & _ & Hle & Heq).
    apply currFrameResource_Some in Hcur as [Hk Hfr].
    exists (slotOf (framesDone f0 s + 1)), fr. rewrite Heq.
    destruct (Z.leb_spec (Fence fr) (mFence s)); repeat split; try done; try lia.
  - destruct (pc s) eqn:Hpc; [| done | |].
    + destruct (step_acquire items mats f0 s mainPassCB HI Hpc) as (fr & _ & _ & ->). done.
    + destruct (step_refresh items mats f0 Hsc s mainPassCB HI Hpc) as (fr & _ & _ & ->). done.
    + unfold cpu_step. rewrite Hpc. by destruct (Draw s).
  - intros s' f Hstep Hw. destruct (pc s) eqn:Hpc; [done| | |].
    + destruct (step_wake items mats f0 s mainPassCB HI Hpc) as (fr & _ & _ & _ & Heq).
      rewrite Heq in Hstep. destruct (_ <=? _); [|done]. injection Hstep as <-.
      rewrite (emitted_emit s _ []) in Hw by (simpl; by rewrite app_nil_r).
      by apply elem_of_nil in Hw.
    + destruct (step_refresh items mats f0 Hsc s mainPassCB HI Hpc) as (fr & _ & _ & Heq).
      rewrite Heq in Hstep. injection Hstep as <-.
      rewrite (emitted_emit s _ (refreshCalls (dirtyAfter (framesDone f0 s))
                 (slotOf (framesDone f0 s + 1)) items mats)) in Hw by done.
      apply hostEvents_elem_not_wait in Hw; [done|].
      unfold refreshCalls. rewrite hostEvents_app. f_equal.
      destruct (0 <? _); [|done]. unfold objCopies, matCopies.
      rewrite hostEvents_app, !copies_host; done.
    + unfold cpu_step in Hstep. rewrite Hpc in Hstep. unfold Draw in Hstep.
      destruct (currFrameResource s) as [[k fr]|]; simpl in Hstep; [|done].
      injection Hstep as <-.
      rewrite (emitted_emit s _ [EvResetAlloc k; EvExecute k;
                 EvSignal (wrapUINT64 (mCurrentFence s + 1))]) in Hw by done.
      rewrite !elem_of_cons, elem_of_nil in Hw. by destruct Hw as [?|[?|[?|?]]].
Qed.

Lemma acquire_blocking_witness :
  ∃ s', cpu_step plainPass castleStalled = Ok s'
        ∧ mCurrFrameResourceIndex s'
          = (mCurrFrameResourceIndex castleStalled + 1) mod gNumFrameResources.
Proof.
  destruct (acquire_blocking castleItems castleMats 1 castleStalled plainPass) as (H & _).
  - apply sceneOKb_correct; vm_compute; reflexivity.
  - lia.
  - apply (run_reachable _ _ _ (stalledSchedule 3 plainPass)); vm_compute; reflexivity.
  - destruct H as (s' & k & fr & Hs & Hi & _); [vm_compute; reflexivity|].
    exists s'. split; [exact Hs|exact Hi].
Defined.

(** ** C4: the order of the steps of a frame *)

Lemma copies_shape {E} (index : E → Z) (call : nat → Z → Event) (p : nat) (es : list E) :
  Forall (λ e, ∃ q i, e = call q i) (copies index call p es).
Proof. revert p. induction es as [|e es IH]; intros p; simpl; constructor; eauto. Qed.

(** C4, as amended.  In every reachable state the submitting thread steps in
    this order, with these calls: the acquire (nothing, or the one wait); when
    it waited, the wake-up (nothing); the refresh, which copies render-item
    constants, then material constants, then the pass constants to element 0,
    all into the acquired slot; and [Draw], which resets the allocator of
    that slot, submits, and signals the incremented fence.  The reset comes
    after the copies of its frame. *)
Theorem frame_step_order (items : list RenderItem) (mats : list Material) (f0 : Z)
    (s s' : App) (mainPassCB : PassConstants) :
  SceneOK items mats → 0 ≤ f0 < 18446744073709551616 →
  reachable items mats f0 s →
  cpu_step mainPassCB s = Ok s' →
  match pc s with
  | AtUpdate =>
      (pc s' = AtRefresh ∧ emitted s s' = [])
      ∨ (pc s' = InWait ∧ ∃ f, emitted s s' = [EvWait f])
  | InWait => pc s' = AtRefresh ∧ emitted s s' = []
  | AtRefresh =>
      pc s' = AtDraw
      ∧ ∃ k objs mts,
          mCurrFrameResource s = Some k
          ∧ emitted s s' = objs ++ mts ++ [EvCopyPass k 0]
          ∧ Forall (λ e, ∃ p i, e = EvCopyObject k p i) objs
          ∧ Forall (λ e, ∃ p i, e = EvCopyMaterial k p i) mts
  | AtDraw =>
      pc s' = AtUpdate
      ∧ ∃ k, mCurrFrameResource s = Some k
             ∧ emitted s s' = [EvResetAlloc k; EvExecute k; EvSignal (mCurrentFence s')]
  end.
Proof.
  intros Hsc Hf Hr Hstep.
  pose proof (reachable_Inv items mats f0 Hsc Hf s Hr) as HI.
  destruct (pc s) eqn:Hpc.
  - destruct (step_acquire items mats f0 s mainPassCB HI Hpc) as (fr & _ & _ & Heq).
    rewrite Heq in Hstep. injection Hstep as <-.
    destruct (negb _ && _).
    + right. split; [done|]. exists (Fence fr). by apply emitted_emit.
    + left. split; [done|]. apply emitted_emit. simpl. by rewrite app_nil_r.
  - destruct (step_wake items mats f0 s mainPassCB HI Hpc) as (fr & _ & _ & _ & Heq).
    rewrite Heq in Hstep. destruct (_ <=? _); [|done]. injection Hstep as <-.
    split; [done|]. apply emitted_emit. simpl. by rewrite app_nil_r.
  - destruct (step_refresh items mats f0 Hsc s mainPassCB HI Hpc) as (fr & Hcur & _ & Heq).
    rewrite Heq in Hstep. injection Hstep as <-. split; [done|].
    apply currFrameResource_Some in Hcur as [Hk _].
    exists (slotOf (framesDone f0 s + 1)).
    destruct (0 <? dirtyAfter (framesDone f0 s)) eqn:Hd.
    + exists (objCopies (slotOf (framesDone f0 s + 1)) items),
             (matCopies (slotOf (framesDone f0 s + 1)) mats).
      split; [done|]. split; [|split; apply copies_shape].
      apply emitted_emit. cbn. unfold refreshCalls. rewrite Hd. by rewrite <- app_assoc.
    + exists [], []. split; [done|]. split; [|split; constructor].
      apply emitted_emit. cbn. unfold refreshCalls. by rewrite Hd.
  - unfold cpu_step in Hstep. rewrite Hpc in Hstep. unfold Draw in Hstep.
    destruct (currFrameResource s) as [[k fr]|] eqn:Hcur; simpl in Hstep; [|done].
    injection Hstep as <-. split; [done|].
    apply currFrameResource_Some in Hcur as [Hk _].
    exists k. split; [done|]. by apply emitted_emit.
Qed.

Lemma frame_step_order_witness :
  pc castleDrawn = AtUpdate
  ∧ ∃ k, mCurrFrameResource castleRefreshed = Some k
         ∧ emitted castleRefreshed castleDrawn
           = [EvResetAlloc k; EvExecute k; EvSignal (mCurrentFence castleDrawn)].
Proof.
  assert (Hpc : pc castleRefreshed = AtDraw) by (vm_compute; reflexivity).
  pose proof (frame_step_order castleItems castleMats 1 castleRefreshed castleDrawn
                plainPass) as H.
  rewrite Hpc in H.
  assert (Hsc : SceneOK castleItems castleMats)
    by (apply sceneOKb_correct; vm_compute; reflexivity).
  assert (Hf : 0 ≤ 1 < 18446744073709551616) by lia.
  assert (Hr : reachable castleItems castleMats 1 castleRefreshed)
    by (apply (run_reachable _ _ _ [Cpu plainPass; Cpu plainPass]); vm_compute; reflexivity).
  assert (Hstep : cpu_step plainPass castleRefreshed = Ok castleDrawn)
    by (vm_compute; reflexivity).
  exact (H Hsc Hf Hr Hstep).
Defined.

(** The order the claim gives fails on the first frame of the castle: the
    first call of that frame copies the constants of render item 0 into slot
    1, and no reset of slot 1 comes before it. *)
Lemma step_order_counterexample :
  run (idleSchedule 1 1 plainPass) castle0 = Some (castleAfter (idleSchedule 1 1 plainPass))
  ∧ ¬ reset_precedes_copies (emitted castle0 (castleAfter (idleSchedule 1 1 plainPass))).
Proof.
  split; [vm_compute; reflexivity|].
  intros H.
  remember (emitted castle0 (castleAfter (idleSchedule 1 1 plainPass))) as l eqn:Hl.
  vm_compute in Hl. subst l.
  specialize (H [] _ (EvCopyObject 1 0 0) 1%nat eq_refl eq_refl).
  by apply elem_of_nil in H.
Qed.

(** ** C6: every copy is in range *)

Lemma copies_in_range {E} (index : E → Z) (call : nat → Z → Event)
    (P : Event → Prop) (Q : E → Prop) (p : nat) (es : list E) :
  (∀ q e, Q e → P (call q (index e))) →
  Forall Q es → Forall P (copies index call p es).
Proof.
  intros Hc. revert p.
  induction es as [|e es IH]; intros p Hes; simpl; [constructor|].
  inversion Hes; subst. constructor; eauto.
Qed.

Lemma framesLog_in_range (items : list RenderItem) (mats : list Material) (f0 : Z) (n : nat) :
  SceneOK items mats →
  (∀ j, Forall (call_in_range (length items) (length mats)) (refreshEvents items mats j))
  ∧ Forall (call_in_range (length items) (length mats)) (framesLog items mats f0 n).
Proof.
  intros Hsc.
  assert (Hre : ∀ j, Forall (call_in_range (length items) (length mats))
                            (refreshEvents items mats j)).
  { intros j. unfold refreshEvents. apply Forall_app. split; [|by repeat constructor].
    destruct (j <=? gNumFrameResources); [|constructor].
    apply Forall_app. split.
    - eapply copies_in_range; [|apply (items_range _ _ Hsc)]. by intros q e He.
    - eapply copies_in_range; [|apply (mats_range _ _ Hsc)]. by intros q e He. }
  split; [done|]. induction n as [|n IH]; [constructor|].
  cbn [framesLog]. rewrite !Forall_app. repeat split; try done. by repeat constructor.
Qed.

Lemma Forall_hostEvents (P : Event → Prop) (l : list Event) :
  (∀ f, P (EvWait f)) → Forall P (hostEvents l) → Forall P l.
Proof.
  intros Hw. induction l as [|e l IH]; simpl; [done|].
  destruct (is_wait e) eqn:He.
  - intros H. constructor; [|auto]. by destruct e.
  - intros H. inversion H; subst. constructor; auto.
Qed.

(** C6.  [CopyData] succeeds exactly on an index inside the buffer.  In
    every reachable state of either application the buffers of every slot
    hold as many object records as there are render items, as many material
    records as there are materials, and one pass record; every render item
    and material carries an index inside its buffer; every copy logged so far
    went to an index in range, the pass copies to element 0; and the next
    step of the submitting thread does not fail. *)
Theorem copyData_index_safety (items : list RenderItem) (mats : list Material) (f0 : Z)
    (s : App) :
  RepositoryScene items mats → 0 ≤ f0 < 18446744073709551616 →
  reachable items mats f0 s →
  (∀ (ub : UploadBuffer ObjectConstants) i x,
     is_Some (CopyData ub i x) ↔ 0 ≤ i < capacity ub)
  ∧ (∀ k fr, mFrameResources s !! k = Some fr →
             capacity (ObjectCB fr) = Z.of_nat (length (mAllRitems s))
             ∧ capacity (MaterialCB fr) = Z.of_nat (length (mMaterials s))
             ∧ capacity (PassCB fr) = 1)
  ∧ Forall (λ e, 0 ≤ ObjCBIndex e < Z.of_nat (length (mAllRitems s))) (mAllRitems s)
  ∧ Forall (λ m, 0 ≤ MatCBIndex m < Z.of_nat (length (mMaterials s))) (mMaterials s)
  ∧ Forall (call_in_range (length (mAllRitems s)) (length (mMaterials s))) (Log s)
  ∧ ∀ mainPassCB, cpu_step mainPassCB s ≠ Fault.
Proof.
  intros Hrepo Hf Hr. pose proof (RepositoryScene_OK items mats Hrepo) as Hsc.
  pose proof (reachable_Inv items mats f0 Hsc Hf s Hr) as HI.
  pose proof HI as [H1 H2 H3 [H4 H4'] H5 H6 H7].
  assert (Hli : length (mAllRitems s) = length items) by (by rewrite H2, length_map).
  assert (Hlm : length (mMaterials s) = length mats) by (by rewrite H3, length_map).
  rewrite Hli, Hlm.
  split; [|split; [|split; [|split; [|split]]]].
  - intros ub i x. split.
    + intros [ub' H]. by apply CopyData_inv in H as [? _].
    + intros H. rewrite CopyData_Some by done. eauto.
  - intros k fr Hk. destruct (H4' _ _ Hk) as [_ Ho Hm Hp]. unfold capacity.
    rewrite Ho, Hm, Hp. repeat split; try done;
      destruct (_ <=? _); unfold objStores, matStores; rewrite ?stores_length;
      unfold UploadBuffer_create; rewrite length_replicate; lia.
  - rewrite H2. apply Forall_fmap. eapply Forall_impl; [apply (items_range _ _ Hsc)|]. done.
  - rewrite H3. apply Forall_fmap. eapply Forall_impl; [apply (mats_range _ _ Hsc)|]. done.
  - apply Forall_hostEvents; [done|]. rewrite H7.
    destruct (framesLog_in_range items mats f0 (Z.to_nat (framesDone f0 s)) Hsc) as [Hre Hfl].
    apply Forall_app. split; [done|]. destruct (pc s); try constructor. apply Hre.
  - intros mainPassCB. destruct (pc s) eqn:Hpc.
    + destruct (step_acquire items mats f0 s mainPassCB HI Hpc) as (fr & _ & _ & ->). done.
    + destruct (step_wake items mats f0 s mainPassCB HI Hpc) as (fr & _ & _ & _ & ->).
      by destruct (_ <=? _).
    + destruct (step_refresh items mats f0 Hsc s mainPassCB HI Hpc) as (fr & _ & _ & ->). done.
    + destruct (Inv_current items mats f0 s HI) as (fr & Hcur & _); [by rewrite Hpc|].
      unfold cpu_step. rewrite Hpc, (Draw_eq s _ fr Hcur). done.
Qed.

Lemma copyData_index_safety_witness :
  Forall (call_in_range (length (mAllRitems (castleAfter threeFrames)))
                        (length (mMaterials (castleAfter threeFrames))))
         (Log (castleAfter threeFrames))
  ∧ cpu_step plainPass (castleAfter threeFrames) ≠ Fault.
Proof.
  destruct (copyData_index_safety castleItems castleMats 1 (castleAfter threeFrames))
    as (_ & _ & _ & _ & Hlog & Hstep).
  - exact (CastleScene plainWorld plainWorld plainAlbedo plainFresnel plainRoughness).
  - lia.
  - apply (run_reachable _ _ _ threeFrames); vm_compute; reflexivity.
  - split; [exact Hlog|exact (Hstep plainPass)].
Defined.

(** ** C1: convergence of the slots' copies *)

Section Stores.
Context {E T : Type}.
Variable index : E → Z.
Variable record : E → T.

Lemma stores_app (es1 es2 : list E) (cb : UploadBuffer T) :
  stores index record (es1 ++ es2) cb = stores index record es2 (stores index record es1 cb).
Proof. revert cb. induction es1 as [|e es IH]; intros cb; simpl; [done|]. apply IH. Qed.

Lemma stores_snoc (es : list E) (e : E) (cb : UploadBuffer T) :
  stores index record (es ++ [e]) cb
  = <[Z.to_nat (index e) := Some (record e)]> (stores index record es cb).
Proof. by rewrite stores_app. Qed.

Lemma stores_other (es : list E) (cb : UploadBuffer T) (i : nat) :
  Forall (λ e, Z.to_nat (index e) ≠ i) es → stores index record es cb !! i = cb !! i.
Proof.
  revert cb. induction es as [|e es IH]; intros cb Hall; simpl; [done|].
  inversion Hall; subst. rewrite IH by done. by apply list_lookup_insert_ne.
Qed.

(** When no two entities share an index, the cell of each holds its record. *)
Lemma stores_lookup (es : list E) (cb : UploadBuffer T) (p : nat) (e : E) :
  NoDup (map (λ e, Z.to_nat (index e)) es) →
  Forall (λ e, (Z.to_nat (index e) < length cb)%nat) es →
  es !! p = Some e →
  stores index record es cb !! Z.to_nat (index e) = Some (Some (record e)).
Proof.
  revert cb p. induction es as [|a es IH]; intros cb p Hnd Hlen Hp; [done|].
  inversion Hnd as [|? ? Hnotin Hnd']; subst. inversion Hlen as [|? ? Ha Hlen']; subst.
  simpl. destruct p as [|p]; simpl in Hp.
  - injection Hp as ->. rewrite stores_other.
    + by apply list_lookup_insert_eq.
    + apply Forall_forall. intros x Hx Heq. apply Hnotin.
      rewrite <- Heq. by apply (list_elem_of_fmap_2 (λ e, Z.to_nat (index e)) es x).
  - apply (IH _ p); try done.
    eapply Forall_impl; [exact Hlen'|]. intros x Hx. simpl. by rewrite length_insert.
Qed.
End Stores.

(** Where the indices of the render items are pairwise distinct, the claim
    holds: once three refresh passes have run, the cell of every render item
    in every slot holds that item's record. *)
Lemma dirty_convergence_distinct (items : list RenderItem) (mats : list Material) (f0 : Z)
    (s : App) :
  SceneOK items mats → NoDup (map ObjCBIndex items) →
  0 ≤ f0 < 18446744073709551616 →
  reachable items mats f0 s → gNumFrameResources ≤ passesDone f0 s →
  ∀ k fr p e, mFrameResources s !! k = Some fr → items !! p = Some e →
              ObjectCB fr !! Z.to_nat (ObjCBIndex e) = Some (Some (objConstants e)).
Proof.
  intros Hsc Hnd Hf Hr Hp k fr p e Hk He.
  destruct (reachable_Inv items mats f0 Hsc Hf s Hr) as [_ _ _ [H4 H4'] _ _ _].
  destruct (H4' _ _ Hk) as [_ Ho _ _].
  assert (Hk3 : (k < 3)%nat) by (apply lookup_lt_Some in Hk; lia).
  pose proof (firstUse_le k Hk3).
  destruct (Z.leb_spec (firstUse (Z.of_nat k)) (passesDone f0 s));
    [|unfold gNumFrameResources in *; lia].
  rewrite Ho. unfold objStores. apply (stores_lookup _ _ _ _ p); [| |done].
  - pose proof (items_range _ _ Hsc) as Hrange. clear - Hnd Hrange.
    set (n := Z.of_nat (length items)) in *. clearbody n.
    induction items as [|a l IH]; simpl; [constructor|].
    inversion Hnd as [|? ? Hnotin Hnd']; subst. inversion Hrange as [|? ? Ha Hr']; subst.
    constructor; [|by apply IH].
    intros (x & Hx & Hxin)%(list_elem_of_fmap_1 (λ e, Z.to_nat (ObjCBIndex e))).
    apply Hnotin.
    rewrite Forall_forall in Hr'. specialize (Hr' x Hxin).
    replace (ObjCBIndex a) with (ObjCBIndex x) by lia.
    by apply (list_elem_of_fmap_2 ObjCBIndex l x).
  - unfold UploadBuffer_create. rewrite length_replicate.
    eapply Forall_impl; [apply (items_range _ _ Hsc)|]. simpl. intros x Hx. lia.
Qed.

(** The castle is such a scene. *)
Lemma castle_indices_distinct (world tex : nat → XMFLOAT4X4) :
  NoDup (map ObjCBIndex (Castle.BuildRenderItems world tex)).
Proof.
  assert (H : bool_decide (NoDup (map ObjCBIndex (Castle.BuildRenderItems world tex))) = true)
    by (vm_compute; reflexivity).
  by apply bool_decide_eq_true in H.
Qed.

(** In the maze, whatever was authored and whatever [rand] returned, once
    three refresh passes have run cell 3 of every slot holds the record of
    the tree sprites, the last render item stored there. *)
Lemma maze_cell3_holds_tree_sprites (world tex : nat → XMFLOAT4X4)
    (albedo : string → XMFLOAT4) (fresnel : string → XMFLOAT3) (roughness : string → float)
    (rand : nat → Z) (f0 : Z) (s : App) :
  0 ≤ f0 < 18446744073709551616 →
  reachable (Maze.BuildRenderItems world tex rand)
            (Maze.BuildMaterials albedo fresnel roughness) f0 s →
  gNumFrameResources ≤ passesDone f0 s →
  ∀ k fr, mFrameResources s !! k = Some fr →
          ObjectCB fr !! 3%nat = Some (Some (objConstants Maze.treeSpritesRitem)).
Proof.
  intros Hf Hr Hp k fr Hk.
  pose proof (RepositoryScene_OK _ _ (MazeScene world tex albedo fresnel roughness rand)) as Hsc.
  destruct (reachable_Inv _ _ f0 Hsc Hf s Hr) as [_ _ _ [H4 H4'] _ _ _].
  destruct (H4' _ _ Hk) as [_ Ho _ _].
  assert (Hk3 : (k < 3)%nat) by (apply lookup_lt_Some in Hk; lia).
  pose proof (firstUse_le k Hk3).
  destruct (Z.leb_spec (firstUse (Z.of_nat k)) (passesDone f0 s));
    [|unfold gNumFrameResources in *; lia].
  rewrite Ho. destruct (Maze_items_OK world tex rand) as (_ & _ & Hlen).
  cbv zeta in Hlen.
  set (cb := UploadBuffer_create _).
  assert (Hcb : (121 ≤ length cb)%nat)
    by (unfold cb, UploadBuffer_create; rewrite length_replicate; lia).
  clearbody cb. unfold Maze.BuildRenderItems, objStores. cbv zeta.
  rewrite stores_snoc.
  apply (list_lookup_insert_eq _ 3%nat). rewrite stores_length. lia.
Qed.

(** *** The maze, three frames after initialisation *)

Lemma mazeItems_unfold :
  mazeItems = Maze.BuildRenderItems mazeWorld plainWorld (λ n, Z.of_nat n).
Proof. reflexivity. Qed.

Lemma mazeMats_unfold :
  mazeMats = Maze.BuildMaterials plainAlbedo plainFresnel plainRoughness.
Proof. reflexivity. Qed.

Lemma maze_scene : RepositoryScene mazeItems mazeMats.
Proof.
  exact (MazeScene mazeWorld plainWorld plainAlbedo plainFresnel plainRoughness
                   (λ n, Z.of_nat n)).
Qed.

Lemma maze_three_frames_run : run threeFrames maze0 = Some (mazeAfter threeFrames).
Proof. vm_compute; reflexivity. Qed.

Lemma maze_three_frames_reachable : reachable mazeItems mazeMats 1 (mazeAfter threeFrames).
Proof. exact (run_reachable _ _ _ threeFrames _ maze_three_frames_run). Qed.

Lemma maze_three_frames_done : framesDone 1 (mazeAfter threeFrames) = 3.
Proof. vm_compute; reflexivity. Qed.

Lemma maze_three_frames_pc : pc (mazeAfter threeFrames) = AtUpdate.
Proof. vm_compute; reflexivity. Qed.

Lemma maze_three_frames_passes : passesDone 1 (mazeAfter threeFrames) = 3.
Proof.
  unfold passesDone. rewrite maze_three_frames_pc, maze_three_frames_done. reflexivity.
Qed.

Lemma maze_cylinder_uploads (k : nat) :
  (k < 3)%nat → uploads k 3 (Log (mazeAfter threeFrames)) = 1%nat.
Proof.
  intros Hk.
  rewrite (reachable_uploads mazeItems mazeMats 1 _ k 3 (RepositoryScene_OK _ _ maze_scene));
    [|lia|exact maze_three_frames_reachable|exact Hk].
  rewrite maze_three_frames_passes.
  pose proof (firstUse_le k Hk).
  destruct (Z.leb_spec (firstUse (Z.of_nat k)) 3); [|lia].
  assert (Hlen : (3 <? length mazeItems)%nat = true) by (vm_compute; reflexivity).
  rewrite Hlen. reflexivity.
Qed.

Lemma maze_three_frames_cell3 (k : nat) (fr : FrameResource) :
  mFrameResources (mazeAfter threeFrames) !! k = Some fr →
  ObjectCB fr !! 3%nat = Some (Some (objConstants Maze.treeSpritesRitem)).
Proof.
  intros Hk.
  assert (Hp : gNumFrameResources ≤ passesDone 1 (mazeAfter threeFrames))
    by (rewrite maze_three_frames_passes; unfold gNumFrameResources; lia).
  assert (Hf0 : 0 ≤ 1 < 18446744073709551616) by lia.
  pose proof maze_three_frames_reachable as Hr.
  rewrite mazeItems_unfold, mazeMats_unfold in Hr.
  exact (maze_cell3_holds_tree_sprites _ _ _ _ _ _ 1 (mazeAfter threeFrames) Hf0 Hr Hp k fr Hk).
Qed.

(** C1, at the failing input.  In the maze, three frames after
    initialisation: the cylinder (fourth render item, [ObjCBIndex] 3) has been
    refreshed three times and its counter is 0, yet cell 3 of each of the
    three slots holds the record of the tree sprites (whose [ObjCBIndex] is
    also 3) and not the cylinder's. *)
Theorem maze_cylinder_constants_lost :
  run threeFrames maze0 = Some (mazeAfter threeFrames)
  ∧ pc (mazeAfter threeFrames) = AtUpdate
  ∧ framesDone 1 (mazeAfter threeFrames) = 3
  ∧ ∃ cyl,
      mAllRitems (mazeAfter threeFrames) !! 3%nat = Some cyl
      ∧ ObjCBIndex cyl = 3
      ∧ World cyl = cylinderWorld
      ∧ NumFramesDirty cyl = 0
      ∧ (∀ k, (k < 3)%nat → uploads k 3 (Log (mazeAfter threeFrames)) = 1%nat)
      ∧ ∀ k fr, mFrameResources (mazeAfter threeFrames) !! k = Some fr →
                ObjectCB fr !! 3%nat = Some (Some (objConstants Maze.treeSpritesRitem))
                ∧ ObjectCB fr !! 3%nat ≠ Some (Some (objConstants cyl)).
Proof.
  split; [exact maze_three_frames_run|]. split; [exact maze_three_frames_pc|].
  split; [exact maze_three_frames_done|].
  eexists. split; [vm_compute; reflexivity|].
  split; [reflexivity|]. split; [reflexivity|]. split; [reflexivity|].
  split; [exact maze_cylinder_uploads|].
  intros k fr Hk. pose proof (maze_three_frames_cell3 k fr Hk) as Hcell.
  split; [exact Hcell|]. rewrite Hcell. intros H. vm_compute in H. discriminate H.
Qed.

(** ** C9: the first three frames upload every render item *)

(** After a pass over dirty entities, the cell an entity names holds that
    entity's record when no entity later in the container names the same
    cell. *)
Lemma stores_lookup_last {E T : Type} (index : E → Z) (record : E → T)
    (es : list E) (cb : UploadBuffer T) (p : nat) (e : E) :
  es !! p = Some e →
  (∀ q x, es !! q = Some x → (p < q)%nat → Z.to_nat (index x) ≠ Z.to_nat (index e)) →
  (Z.to_nat (index e) < length cb)%nat →
  stores index record es cb !! Z.to_nat (index e) = Some (Some (record e)).
Proof.
  intros Hp Hlater Hlen.
  rewrite <- (take_drop_middle es p e Hp), stores_app. cbn [stores].
  rewrite stores_other.
  - apply list_lookup_insert_eq. by rewrite stores_length.
  - apply Forall_forall. intros x Hx.
    apply list_elem_of_lookup in Hx as [q Hq]. rewrite lookup_drop in Hq.
    apply (Hlater _ _ Hq). lia.
Qed.

Lemma objConstants_setItemDirty (d : Z) (e : RenderItem) :
  objConstants (setItemDirty d e) = objConstants e.
Proof. reflexivity. Qed.

(** The pass up to and including the [p]-th entity leaves that entity's
    record in the cell it names. *)
Lemma stores_prefix_lookup {E T : Type} (index : E → Z) (record : E → T)
    (es : list E) (cb : UploadBuffer T) (p : nat) (e : E) :
  es !! p = Some e →
  (Z.to_nat (index e) < length cb)%nat →
  stores index record (take (S p) es) cb !! Z.to_nat (index e) = Some (Some (record e)).
Proof.
  intros Hp Hlen. rewrite (take_S_r es p e Hp), stores_snoc.
  apply list_lookup_insert_eq. by rewrite stores_length.
Qed.

(** Every call of a pass over dirty entities names the position of an entity
    and carries the index of that entity. *)
Lemma copies_indexed {E : Type} (index : E → Z) (call : nat → Z → Event) (p : nat)
    (es : list E) :
  Forall (λ ev, ∃ q e, es !! q = Some e ∧ ev = call (p + q)%nat (index e))
         (copies index call p es).
Proof.
  revert p. induction es as [|a es IH]; intros p; cbn [copies]; constructor.
  - exists 0%nat, a. by rewrite Nat.add_0_r.
  - eapply Forall_impl; [apply (IH (S p))|].
    intros ev (q & e & Hq & ->). exists (S q), e. split; [done|]. f_equal. lia.
Qed.

Lemma refreshEvents_indexed (items : list RenderItem) (mats : list Material) (j : Z) :
  Forall (λ ev, ∀ k p i, ev = EvCopyObject k p i →
                         ∃ e, items !! p = Some e ∧ i = ObjCBIndex e)
         (refreshEvents items mats j).
Proof.
  unfold refreshEvents. apply Forall_app. split; [|by repeat constructor].
  destruct (j <=? gNumFrameResources); [|constructor].
  apply Forall_app. split.
  - eapply Forall_impl; [apply copies_indexed|].
    intros ev (q & e & Hq & ->) k p i [= <- <- <-]. by exists e.
  - eapply Forall_impl; [apply copies_shape|]. by intros ev (q & i' & ->) k p i.
Qed.

Lemma framesLog_indexed (items : list RenderItem) (mats : list Material) (f0 : Z) (n : nat) :
  Forall (λ ev, ∀ k p i, ev = EvCopyObject k p i →
                         ∃ e, items !! p = Some e ∧ i = ObjCBIndex e)
         (framesLog items mats f0 n).
Proof.
  induction n as [|n IH]; [constructor|].
  cbn [framesLog]. apply Forall_app. split; [exact IH|].
  apply Forall_app. split; [apply refreshEvents_indexed|by repeat constructor].
Qed.

(** In every reachable state, every copy of render-item constants in the log
    names the position of a render item and goes to the index of that item. *)
Lemma log_copies_indexed (items : list RenderItem) (mats : list Material) (f0 : Z)
    (s : App) (k p : nat) (i : Z) :
  SceneOK items mats → 0 ≤ f0 < 18446744073709551616 →
  reachable items mats f0 s →
  EvCopyObject k p i ∈ Log s →
  ∃ e, items !! p = Some e ∧ i = ObjCBIndex e.
Proof.
  intros Hsc Hf Hr Hin.
  destruct (reachable_Inv items mats f0 Hsc Hf s Hr) as [_ _ _ _ _ _ H7].
  assert (Hh : EvCopyObject k p i ∈ hostEvents (Log s)) by (by apply hostEvents_elem).
  rewrite H7 in Hh. apply elem_of_app in Hh as [Hh|Hh].
  - pose proof (framesLog_indexed items mats f0 (Z.to_nat (framesDone f0 s))) as HF.
    rewrite Forall_forall in HF. exact (HF _ Hh k p i eq_refl).
  - destruct (pc s); try by inversion Hh.
    pose proof (refreshEvents_indexed items mats (framesDone f0 s + 1)) as HF.
    rewrite Forall_forall in HF. exact (HF _ Hh k p i eq_refl).
Qed.

(** C9.  Every render item of the two scenes is built with [NumFramesDirty]
    equal to [gNumFrameResources], and nothing has to mark it.  In every state
    reached after three or more frames, every render item is the item as it
    was built but for its counter, which is 0; and for each of the three
    slots: the log holds exactly one copy of the item's constants into the
    slot, to the index of the item; the object buffer of the slot is what the
    stores of one pass leave, one store for each render item, of the item's
    constants (the transposes of its two matrices) at the item's index, in
    the order of [mAllRitems]; when the pass reached the item, its store put
    the item's constants in the item's cell; and they are there still unless
    a later render item carries the same index. *)
Theorem initial_upload (items : list RenderItem) (mats : list Material) (f0 : Z) (s : App) :
  RepositoryScene items mats → 0 ≤ f0 < 18446744073709551616 →
  reachable items mats f0 s → gNumFrameResources ≤ framesDone f0 s →
  Forall (λ e, NumFramesDirty e = gNumFrameResources) items
  ∧ ∀ p e, mAllRitems s !! p = Some e →
      NumFramesDirty e = 0
      ∧ (∃ e0, items !! p = Some e0 ∧ e = setItemDirty 0 e0
               ∧ objConstants e
                 = {| ocWorld := XMMatrixTranspose (World e0);
                      ocTexTransform := XMMatrixTranspose (TexTransform e0) |})
      ∧ ∀ k, (k < Z.to_nat gNumFrameResources)%nat →
          uploads k p (Log s) = 1%nat
          ∧ List.filter (is_upload k p) (Log s) = [EvCopyObject k p (ObjCBIndex e)]
          ∧ ∃ fr,
              mFrameResources s !! k = Some fr
              ∧ ObjectCB fr
                = objStores (drop (S p) (mAllRitems s))
                    (objStores (take (S p) (mAllRitems s))
                       (UploadBuffer_create (Z.of_nat (length (mAllRitems s)))))
              ∧ objStores (take (S p) (mAllRitems s))
                  (UploadBuffer_create (Z.of_nat (length (mAllRitems s))))
                !! Z.to_nat (ObjCBIndex e)
                = Some (Some (objConstants e))
              ∧ ((∀ q x, mAllRitems s !! q = Some x → (p < q)%nat →
                         ObjCBIndex x ≠ ObjCBIndex e) →
                 ObjectCB fr !! Z.to_nat (ObjCBIndex e) = Some (Some (objConstants e))).
Proof.
  intros Hrepo Hf Hr Hn. pose proof (RepositoryScene_OK items mats Hrepo) as Hsc.
  split; [apply Hsc|]. intros p e He.
  assert (Hp : gNumFrameResources ≤ passesDone f0 s)
    by (unfold passesDone; destruct (pc s); lia).
  pose proof (reachable_Inv items mats f0 Hsc Hf s Hr) as [_ H2 _ [H4 H4'] _ _ _].
  assert (Hd : dirtyAfter (passesDone f0 s) = 0) by (unfold dirtyAfter; lia).
  rewrite Hd in H2.
  assert (He0 : ∃ e0, items !! p = Some e0 ∧ e = setItemDirty 0 e0).
  { rewrite H2 in He. apply list_lookup_fmap_Some in He as (e0 & -> & He0). by exists e0. }
  destruct He0 as (e0 & He0 & ->).
  assert (Hidx : 0 ≤ ObjCBIndex e0 < Z.of_nat (length items)).
  { pose proof (items_range _ _ Hsc) as Hrange. rewrite Forall_forall in Hrange.
    apply Hrange. by eapply list_elem_of_lookup_2. }
  split; [reflexivity|]. split; [by exists e0|].
  intros k Hk. unfold gNumFrameResources in Hk, Hp.
  assert (Hup : uploads k p (Log s) = 1%nat).
  { rewrite (reachable_uploads items mats f0 s k p Hsc Hf Hr) by lia.
    pose proof (firstUse_le k ltac:(lia)).
    apply lookup_lt_Some in He0.
    destruct (Z.leb_spec (firstUse (Z.of_nat k)) (passesDone f0 s)); [|lia].
    destruct (Nat.ltb_spec p (length items)); [done|lia]. }
  split; [exact Hup|]. split.
  - unfold uploads in Hup.
    destruct (List.filter (is_upload k p) (Log s)) as [|ev [|ev' l]] eqn:Hfl; try done.
    assert (Hev : In ev (List.filter (is_upload k p) (Log s))) by (rewrite Hfl; by left).
    apply List.filter_In in Hev as [Hin Hev].
    destruct ev as [| k' p' i | | | | | ]; try done.
    cbn [is_upload] in Hev. apply andb_prop in Hev as [Hk' Hp'].
    apply Nat.eqb_eq in Hk', Hp'. subst k' p'.
    apply list_elem_of_In in Hin.
    destruct (log_copies_indexed items mats f0 s k p i Hsc Hf Hr Hin) as (x & Hx & ->).
    rewrite He0 in Hx. by injection Hx as <-.
  - destruct (lookup_lt_is_Some_2 (mFrameResources s) k) as [fr Hfr]; [rewrite H4; lia|].
    exists fr. split; [exact Hfr|].
    destruct (H4' _ _ Hfr) as [_ Ho _ _].
    pose proof (firstUse_le k ltac:(lia)).
    destruct (Z.leb_spec (firstUse (Z.of_nat k)) (passesDone f0 s)); [|lia].
    assert (Hsame : ∀ cb, objStores (mAllRitems s) cb = objStores items cb).
    { intros cb. rewrite H2. clear. revert cb.
      induction items as [|a l IH]; intros cb; [done|]. cbn. apply IH. }
    assert (Hlen : length (mAllRitems s) = length items) by (by rewrite H2, length_map).
    assert (Hst : mAllRitems s !! p = Some (setItemDirty 0 e0)).
    { rewrite H2. change (map ?f ?l) with (f <$> l). by rewrite list_lookup_fmap, He0. }
    assert (Hcap : (Z.to_nat (ObjCBIndex (setItemDirty 0 e0))
                    < length (UploadBuffer_create (T := ObjectConstants)
                                (Z.of_nat (length (mAllRitems s)))))%nat).
    { unfold UploadBuffer_create. rewrite length_replicate, Hlen. cbn. lia. }
    split; [|split].
    + unfold objStores. rewrite <- stores_app, take_drop.
      fold objStores. rewrite Hsame, Hlen. exact Ho.
    + apply (stores_prefix_lookup ObjCBIndex objConstants _ _ p); [exact Hst|exact Hcap].
    + intros Hlater. rewrite Ho, <- Hsame, <- Hlen.
      apply (stores_lookup_last ObjCBIndex objConstants _ _ p); [exact Hst| |exact Hcap].
      intros q x Hq Hlt Heq. apply (Hlater q x Hq Hlt).
      assert (0 ≤ ObjCBIndex x).
      { rewrite H2 in Hq. apply list_lookup_fmap_Some in Hq as (x0 & -> & Hx0).
        pose proof (items_range _ _ Hsc) as Hrange. rewrite Forall_forall in Hrange.
        cbn. apply Hrange. by eapply list_elem_of_lookup_2. }
      cbn in Heq |- *. lia.
Qed.

Lemma initial_upload_witness :
  framesDone 1 (castleAfter threeFrames) = 3
  ∧ NumFramesDirty (setItemDirty 0 castleFirstItem) = 0
  ∧ ∀ k, (k < Z.to_nat gNumFrameResources)%nat →
         uploads k 0 (Log (castleAfter threeFrames)) = 1%nat
         ∧ List.filter (is_upload k 0) (Log (castleAfter threeFrames))
           = [EvCopyObject k 0 0]
         ∧ ∃ fr, mFrameResources (castleAfter threeFrames) !! k = Some fr
                 ∧ ObjectCB fr !! 0%nat = Some (Some (objConstants castleFirstItem)).
Proof.
  assert (Hfd : framesDone 1 (castleAfter threeFrames) = 3) by (vm_compute; reflexivity).
  destruct (initial_upload castleItems castleMats 1 (castleAfter threeFrames)) as [_ H].
  - exact (CastleScene plainWorld plainWorld plainAlbedo plainFresnel plainRoughness).
  - lia.
  - apply (run_reachable _ _ _ threeFrames); vm_compute; reflexivity.
  - rewrite Hfd. unfold gNumFrameResources. lia.
  - split; [exact Hfd|].
    destruct (H 0%nat (setItemDirty 0 castleFirstItem)) as (H0 & _ & Hk);
      [vm_compute; reflexivity|].
    split; [exact H0|]. intros k Hlt.
    destruct (Hk k Hlt) as (H1 & H2 & fr & Hfr & _ & Hcell & _).
    split; [exact H1|]. split; [exact H2|].
    exists fr. split; [exact Hfr|].
    destruct (Hk k Hlt) as (_ & _ & fr' & Hfr' & Hbuf & _ & _).
    rewrite Hfr in Hfr'. injection Hfr' as <-.
    rewrite Hbuf. vm_compute. reflexivity.
Defined.

(** * Further properties of the two applications *)

(** ** Which record a cell holds after a pass *)

Lemma matConstants_setMatDirty (d : Z) (m : Material) :
  matConstants (setMatDirty d m) = matConstants m.
Proof. reflexivity. Qed.

(** ** The constant indices the builders hand out *)

Lemma seq_indexed_lookup {E : Type} (index : E → Z) (l : list E) (n : nat) (p : nat) (e : E) :
  map index l = map Z.of_nat (seq 0 n) → l !! p = Some e → index e = Z.of_nat p.
Proof.
  intros Hmap Hp.
  assert (H : map index l !! p = Some (index e)) by (by rewrite list_lookup_fmap, Hp).
  rewrite Hmap, list_lookup_fmap in H.
  destruct (seq 0 n !! p) as [q|] eqn:Hq; simpl in H; [|done].
  apply lookup_seq in Hq as [-> _]. by injection H as <-.
Qed.

(** Where the entities carry the indices 0, 1, 2, ... in container order,
    a pass over dirty entities leaves the record of the [p]-th entity in cell
    [p]. *)
Lemma stores_seq_indexed {E T : Type} (index : E → Z) (record : E → T)
    (es : list E) (cb : UploadBuffer T) (p : nat) (e : E) :
  map index es = map Z.of_nat (seq 0 (length es)) →
  (length es ≤ length cb)%nat →
  es !! p = Some e →
  stores index record es cb !! p = Some (Some (record e)).
Proof.
  intros Hmap Hlen Hp.
  pose proof (seq_indexed_lookup index es _ p e Hmap Hp) as Hidx.
  replace p with (Z.to_nat (index e)) at 1 by lia.
  apply (stores_lookup_last index record es cb p e Hp).
  - intros q x Hq Hlt. rewrite (seq_indexed_lookup index es _ q x Hmap Hq), Hidx. lia.
  - apply lookup_lt_Some in Hp. lia.
Qed.

Lemma pushNext_indices (world tex : nat → XMFLOAT4X4) (mat geo : string) (b : Builder) :
  b.1 = Z.of_nat (length b.2) →
  map ObjCBIndex b.2 = map Z.of_nat (seq 0 (length b.2)) →
  let b' := pushNext world tex mat geo b in
  map ObjCBIndex b'.2 = map Z.of_nat (seq 0 (length b'.2)).
Proof.
  intros H1 H2. cbn. rewrite map_app, length_app, H2. cbn.
  rewrite Nat.add_1_r, seq_S, map_app. cbn. by rewrite H1.
Qed.

Lemma mazeCell_indices (world tex : nat → XMFLOAT4X4) (rand : nat → Z) (lo hi calls : nat)
    (b : Builder) :
  BuilderOK lo hi b → Z.of_nat hi + 2 < 4294967296 →
  map ObjCBIndex b.2 = map Z.of_nat (seq 0 (length b.2)) →
  let b' := (Maze.mazeCell world tex rand (calls, b)).2 in
  map ObjCBIndex b'.2 = map Z.of_nat (seq 0 (length b'.2)).
Proof.
  intros Hb Hfit Hseq. unfold Maze.mazeCell. cbn [snd].
  pose proof (pushNext_OK world tex "stone0" "shapeGeo" lo hi b Hb ltac:(lia)) as Hb1.
  destruct (1 <? Z.rem (rand calls) 5); destruct (1 <? Z.rem (rand (S calls)) 5); cbv zeta.
  - apply pushNext_indices; [apply Hb1|]. apply pushNext_indices; [apply Hb|done].
  - apply pushNext_indices; [apply Hb|done].
  - apply pushNext_indices; [apply Hb|done].
  - done.
Qed.

Lemma mazeCells_indices (world tex : nat → XMFLOAT4X4) (rand : nat → Z) (n : nat) :
  ∀ (lo hi calls : nat) (b : Builder),
    BuilderOK lo hi b → Z.of_nat hi + 2 * Z.of_nat n < 4294967296 →
    map ObjCBIndex b.2 = map Z.of_nat (seq 0 (length b.2)) →
    let b' := (Maze.mazeCells world tex rand n (calls, b)).2 in
    map ObjCBIndex b'.2 = map Z.of_nat (seq 0 (length b'.2)).
Proof.
  induction n as [|n IH]; intros lo hi calls b Hb Hfit Hseq; cbn [Maze.mazeCells]; [done|].
  pose proof (mazeCell_OK world tex rand lo hi calls b Hb ltac:(lia)) as Hc.
  pose proof (mazeCell_indices world tex rand lo hi calls b Hb ltac:(lia) Hseq) as Hi.
  destruct (Maze.mazeCell world tex rand (calls, b)) as [calls' b'] eqn:Hcell.
  cbn [snd] in Hc, Hi. cbv zeta in Hi.
  apply (IH lo (S (S hi))); [done|lia|done].
Qed.

(** X1.  In the second application, for every authoring and every outcome of
    [rand]: the render items carry the constant indices 0, 1, ..., n-2 in the
    order in which they are pushed, and the last one (the tree sprites)
    carries 3.  So exactly two render items share a cell (the fourth and the
    last), and no render item names the last cell, n-1. *)
Theorem maze_index_layout (world tex : nat → XMFLOAT4X4) (rand : nat → Z) :
  let items := Maze.BuildRenderItems world tex rand in
  map ObjCBIndex items = map Z.of_nat (seq 0 (length items - 1)) ++ [3]
  ∧ (121 ≤ length items ≤ 193)%nat.
Proof.
  cbv zeta. split; [|apply (Maze_items_OK world tex rand)].
  unfold Maze.BuildRenderItems. cbv zeta.
  assert (H0 : BuilderOK 120 120 (Maze.castleAndBorder world tex))
    by (apply builderOKb_correct; vm_compute; reflexivity).
  assert (H1 : map ObjCBIndex (Maze.castleAndBorder world tex).2
               = map Z.of_nat (seq 0 (length (Maze.castleAndBorder world tex).2)))
    by (vm_compute; reflexivity).
  pose proof (mazeCells_indices world tex rand (6 * 6) 120 120 0 _ H0 ltac:(lia) H1) as H.
  cbv zeta in H. rewrite map_app, length_app, H. cbn [length map].
  by rewrite Nat.add_sub.
Qed.

(** ** Convergence of the slots' copies *)

(** What the slots and the containers are once three refresh passes have
    run. *)
Lemma reachable_settled (items : list RenderItem) (mats : list Material) (f0 : Z) (s : App) :
  SceneOK items mats → 0 ≤ f0 < 18446744073709551616 →
  reachable items mats f0 s → gNumFrameResources ≤ passesDone f0 s →
  mAllRitems s = map (setItemDirty 0) items
  ∧ mMaterials s = map (setMatDirty 0) mats
  ∧ ∀ k fr, mFrameResources s !! k = Some fr →
            ObjectCB fr = objStores items (UploadBuffer_create (Z.of_nat (length items)))
            ∧ MaterialCB fr = matStores mats (UploadBuffer_create (Z.of_nat (length mats))).
Proof.
  intros Hsc Hf Hr Hp.
  destruct (reachable_Inv items mats f0 Hsc Hf s Hr) as [_ H2 H3 [H4 H4'] _ _ _].
  assert (Hd : dirtyAfter (passesDone f0 s) = 0)
    by (unfold dirtyAfter, gNumFrameResources in *; lia).
  rewrite Hd in H2, H3. split; [done|]. split; [done|].
  intros k fr Hk. destruct (H4' _ _ Hk) as [_ Ho Hm _].
  assert (Hk3 : (k < 3)%nat) by (apply lookup_lt_Some in Hk; lia).
  pose proof (firstUse_le k Hk3).
  destruct (Z.leb_spec (firstUse (Z.of_nat k)) (passesDone f0 s));
    [done|unfold gNumFrameResources in *; lia].
Qed.

Lemma length_create {T : Type} (n : nat) :
  length (UploadBuffer_create (T := T) (Z.of_nat n)) = n.
Proof. unfold UploadBuffer_create. by rewrite length_replicate, Nat2Z.id. Qed.

(** *** Scenes whose entities are indexed in container order *)

Lemma objects_converge_seq (items : list RenderItem) (mats : list Material) (f0 : Z) (s : App) :
  SceneOK items mats →
  map ObjCBIndex items = map Z.of_nat (seq 0 (length items)) →
  0 ≤ f0 < 18446744073709551616 →
  reachable items mats f0 s →
  gNumFrameResources ≤ passesDone f0 s →
  ∀ k fr p e,
    mFrameResources s !! k = Some fr → mAllRitems s !! p = Some e →
    ObjCBIndex e = Z.of_nat p
    ∧ NumFramesDirty e = 0
    ∧ ObjectCB fr !! p = Some (Some (objConstants e)).
Proof.
  intros Hsc Hseq Hf Hr Hp k fr p e Hk He.
  destruct (reachable_settled _ _ f0 s Hsc Hf Hr Hp) as (Hi & _ & Hslots).
  destruct (Hslots k fr Hk) as [Ho _].
  rewrite Hi in He. apply list_lookup_fmap_Some in He as (e0 & -> & He0).
  split; [exact (seq_indexed_lookup ObjCBIndex _ _ p e0 Hseq He0)|]. split; [done|].
  rewrite Ho, objConstants_setItemDirty.
  apply (stores_seq_indexed ObjCBIndex objConstants); [done|by rewrite length_create|done].
Qed.

Lemma objects_converge_clash (items : list RenderItem) (mats : list Material) (f0 : Z)
    (s : App) (k : nat) (fr : FrameResource) :
  SceneOK items mats →
  map ObjCBIndex items = map Z.of_nat (seq 0 (length items - 1)) ++ [3] →
  (5 ≤ length items)%nat →
  0 ≤ f0 < 18446744073709551616 →
  reachable items mats f0 s →
  gNumFrameResources ≤ passesDone f0 s →
  mFrameResources s !! k = Some fr →
  let last := (length (mAllRitems s) - 1)%nat in
  (∀ p e, mAllRitems s !! p = Some e → p ≠ 3%nat → p ≠ last →
          ObjCBIndex e = Z.of_nat p ∧ ObjectCB fr !! p = Some (Some (objConstants e)))
  ∧ (∀ e, mAllRitems s !! last = Some e →
          ObjCBIndex e = 3 ∧ ObjectCB fr !! 3%nat = Some (Some (objConstants e)))
  ∧ ObjectCB fr !! last = Some None.
Proof.
  intros Hsc Hlay Hlen Hf Hr Hp Hk last.
  destruct (reachable_settled _ _ f0 s Hsc Hf Hr Hp) as (Hi & _ & Hslots).
  destruct (Hslots k fr Hk) as [Ho _].
  assert (Hlast : last = (length items - 1)%nat)
    by (unfold last; by rewrite Hi, length_map).
  clearbody last. subst last.
  assert (Hidx : ∀ q x, items !! q = Some x →
                        ObjCBIndex x = if (q =? length items - 1)%nat then 3 else Z.of_nat q).
  { intros q x Hq.
    assert (H : map ObjCBIndex items !! q = Some (ObjCBIndex x))
      by (by rewrite list_lookup_fmap, Hq).
    rewrite Hlay in H. pose proof (lookup_lt_Some _ _ _ Hq) as Hlt.
    destruct (Nat.eqb_spec q (length items - 1)) as [->|Hne].
    - rewrite lookup_app_r in H by (rewrite length_map, length_seq; lia).
      rewrite length_map, length_seq, Nat.sub_diag in H. by injection H as <-.
    - rewrite lookup_app_l in H by (rewrite length_map, length_seq; lia).
      rewrite list_lookup_fmap in H.
      destruct (seq 0 (length items - 1) !! q) as [q'|] eqn:Hq'; simpl in H; [|done].
      apply lookup_seq in Hq' as [-> _]. by injection H as <-. }
  split; [|split].
  - intros p e He Hp3 Hpl. rewrite Hi in He.
    apply list_lookup_fmap_Some in He as (e0 & -> & He0).
    pose proof (Hidx p e0 He0) as Hp0.
    destruct (Nat.eqb_spec p (length items - 1)); [done|].
    split; [done|]. rewrite Ho, objConstants_setItemDirty.
    replace p with (Z.to_nat (ObjCBIndex e0)) at 1 by lia.
    apply (stores_lookup_last ObjCBIndex objConstants items _ p e0 He0).
    + intros q x Hq Hlt. rewrite (Hidx q x Hq), Hp0.
      destruct (Nat.eqb_spec q (length items - 1)); lia.
    + rewrite length_create. apply lookup_lt_Some in He0. lia.
  - intros e He. rewrite Hi in He.
    apply list_lookup_fmap_Some in He as (e0 & -> & He0).
    pose proof (Hidx _ e0 He0) as Hp0. rewrite Nat.eqb_refl in Hp0.
    split; [done|]. rewrite Ho, objConstants_setItemDirty.
    change 3%nat with (Z.to_nat 3). rewrite <- Hp0.
    apply (stores_lookup_last ObjCBIndex objConstants items _ _ e0 He0).
    + intros q x Hq Hlt. apply lookup_lt_Some in Hq. lia.
    + rewrite length_create. lia.
  - rewrite Ho. unfold objStores. rewrite stores_other.
    + unfold UploadBuffer_create. rewrite Nat2Z.id. apply lookup_replicate. split; [done|lia].
    + apply Forall_forall. intros x Hx. apply list_elem_of_lookup in Hx as [q Hq].
      rewrite (Hidx q x Hq). pose proof (lookup_lt_Some _ _ _ Hq).
      destruct (Nat.eqb_spec q (length items - 1)); lia.
Qed.

Lemma castle_index_layout (world tex : nat → XMFLOAT4X4) :
  map ObjCBIndex (Castle.BuildRenderItems world tex)
  = map Z.of_nat (seq 0 (length (Castle.BuildRenderItems world tex))).
Proof. vm_compute; reflexivity. Qed.

(** X2.  In the first application, for every authoring: once three refresh
    passes have run, each render item carries its position in [mAllRitems] as
    constant index, its counter is 0, and in each of the three frame
    resources the cell of that index holds the item's constants. *)
Theorem castle_objects_converge (world tex : nat → XMFLOAT4X4) (albedo : string → XMFLOAT4)
    (fresnel : string → XMFLOAT3) (roughness : string → float) (f0 : Z) (s : App) :
  0 ≤ f0 < 18446744073709551616 →
  reachable (Castle.BuildRenderItems world tex)
            (Castle.BuildMaterials albedo fresnel roughness) f0 s →
  gNumFrameResources ≤ passesDone f0 s →
  ∀ k fr p e,
    mFrameResources s !! k = Some fr → mAllRitems s !! p = Some e →
    ObjCBIndex e = Z.of_nat p
    ∧ NumFramesDirty e = 0
    ∧ ObjectCB fr !! p = Some (Some (objConstants e)).
Proof.
  intros Hf Hr Hp.
  exact (objects_converge_seq _ _ f0 s
           (RepositoryScene_OK _ _ (CastleScene world tex albedo fresnel roughness))
           (castle_index_layout world tex) Hf Hr Hp).
Qed.

(** The material indices of either scene are pairwise distinct. *)
Lemma material_indices_distinct (items : list RenderItem) (mats : list Material) :
  RepositoryScene items mats → NoDup (map (λ m, Z.to_nat (MatCBIndex m)) mats).
Proof.
  intros [world tex albedo fresnel roughness|world tex albedo fresnel roughness rand].
  - assert (H : bool_decide (NoDup (map (λ m, Z.to_nat (MatCBIndex m))
                                        (Castle.BuildMaterials albedo fresnel roughness)))
                = true) by (vm_compute; reflexivity).
    by apply bool_decide_eq_true in H.
  - assert (H : bool_decide (NoDup (map (λ m, Z.to_nat (MatCBIndex m))
                                        (Maze.BuildMaterials albedo fresnel roughness)))
                = true) by (vm_compute; reflexivity).
    by apply bool_decide_eq_true in H.
Qed.

(** A scene stays well formed when its materials are walked in another
    order. *)
Lemma SceneOK_order (items : list RenderItem) (mats order : list Material) :
  order ≡ₚ mats → SceneOK items mats → SceneOK items order.
Proof.
  intros Hperm [H1 H2 H3 H4 H5 H6].
  split; try done.
  - by rewrite Hperm.
  - rewrite Hperm. by rewrite (Permutation_length Hperm).
  - by rewrite (Permutation_length Hperm).
Qed.

(** X3.  In both applications, in whatever order [mMaterials] is walked:
    once three refresh passes have run, every material is the material as it
    was built but for its counter, which is 0; in each of the three frame
    resources the cell of its constant index holds the material's constants;
    and no other material has that index. *)
Theorem materials_converge (items : list RenderItem) (mats order : list Material) (f0 : Z)
    (s : App) :
  RepositoryScene items mats →
  order ≡ₚ mats →
  0 ≤ f0 < 18446744073709551616 →
  reachable items order f0 s →
  gNumFrameResources ≤ passesDone f0 s →
  ∀ k fr m,
    mFrameResources s !! k = Some fr → m ∈ mMaterials s →
    (∃ m0, m0 ∈ mats ∧ m = setMatDirty 0 m0)
    ∧ MatNumFramesDirty m = 0
    ∧ MaterialCB fr !! Z.to_nat (MatCBIndex m) = Some (Some (matConstants m))
    ∧ ∀ m', m' ∈ mMaterials s → MatCBIndex m' = MatCBIndex m → m' = m.
Proof.
  intros Hrepo Hperm Hf Hr Hp k fr m Hk Hm.
  pose proof (SceneOK_order items mats order Hperm (RepositoryScene_OK _ _ Hrepo)) as Hsc.
  assert (Hnd : NoDup (map (λ m, Z.to_nat (MatCBIndex m)) order)).
  { change (map ?f ?l) with (f <$> l). rewrite Hperm.
    exact (material_indices_distinct items mats Hrepo). }
  destruct (reachable_settled _ _ f0 s Hsc Hf Hr Hp) as (_ & Hmats & Hslots).
  destruct (Hslots k fr Hk) as [_ Hcb].
  rewrite Hmats in Hm |- *.
  apply list_elem_of_fmap in Hm as (m0 & -> & Hm0).
  split; [exists m0; split; [by rewrite <- Hperm|done]|]. split; [done|]. split.
  - apply list_elem_of_lookup in Hm0 as [p Hp0].
    rewrite Hcb, matConstants_setMatDirty.
    apply (stores_lookup MatCBIndex matConstants order _ p m0 Hnd); [|exact Hp0].
    rewrite length_create. eapply Forall_impl; [apply (mats_range _ _ Hsc)|].
    intros x Hx. cbn in Hx. lia.
  - intros m' Hm' Heq. apply list_elem_of_fmap in Hm' as (m1 & -> & Hm1).
    f_equal. cbn in Heq.
    apply list_elem_of_lookup in Hm0 as [p Hp0].
    apply list_elem_of_lookup in Hm1 as [q Hq1].
    assert (Hpq : p = q).
    { apply (NoDup_lookup _ p q (Z.to_nat (MatCBIndex m0)) Hnd).
      - change (map ?f ?l) with (f <$> l). by rewrite list_lookup_fmap, Hp0.
      - change (map ?f ?l) with (f <$> l). rewrite list_lookup_fmap, Hq1. cbn.
        by rewrite Heq. }
    subst q. rewrite Hp0 in Hq1. by injection Hq1.
Qed.

(** X4.  In the second application, for every authoring and every outcome
    of [rand]: once three refresh passes have run, in each of the three frame
    resources every render item but the fourth and the last finds its own
    constants in its cell; cell 3 holds the constants of the last item, the
    tree sprites; and the last cell has never been written. *)
Theorem maze_objects_converge (world tex : nat → XMFLOAT4X4) (albedo : string → XMFLOAT4)
    (fresnel : string → XMFLOAT3) (roughness : string → float) (rand : nat → Z)
    (f0 : Z) (s : App) (k : nat) (fr : FrameResource) :
  0 ≤ f0 < 18446744073709551616 →
  reachable (Maze.BuildRenderItems world tex rand)
            (Maze.BuildMaterials albedo fresnel roughness) f0 s →
  gNumFrameResources ≤ passesDone f0 s →
  mFrameResources s !! k = Some fr →
  let last := (length (mAllRitems s) - 1)%nat in
  (∀ p e, mAllRitems s !! p = Some e → p ≠ 3%nat → p ≠ last →
          ObjCBIndex e = Z.of_nat p ∧ ObjectCB fr !! p = Some (Some (objConstants e)))
  ∧ (∀ e, mAllRitems s !! last = Some e →
          ObjCBIndex e = 3 ∧ ObjectCB fr !! 3%nat = Some (Some (objConstants e)))
  ∧ ObjectCB fr !! last = Some None.
Proof.
  intros Hf Hr Hp Hk.
  destruct (maze_index_layout world tex rand) as [Hlay Hlen].
  assert (H5 : (5 ≤ length (Maze.BuildRenderItems world tex rand))%nat) by lia.
  exact (objects_converge_clash _ _ f0 s k fr
           (RepositoryScene_OK _ _ (MazeScene world tex albedo fresnel roughness rand))
           Hlay H5 Hf Hr Hp Hk).
Qed.

Lemma castle_objects_converge_witness :
  gNumFrameResources ≤ passesDone 1 (castleAfter threeFrames)
  ∧ ∀ k fr p e,
      mFrameResources (castleAfter threeFrames) !! k = Some fr →
      mAllRitems (castleAfter threeFrames) !! p = Some e →
      ObjCBIndex e = Z.of_nat p
      ∧ NumFramesDirty e = 0
      ∧ ObjectCB fr !! p = Some (Some (objConstants e)).
Proof.
  assert (Hpd : passesDone 1 (castleAfter threeFrames) = 3) by (vm_compute; reflexivity).
  assert (Hp : gNumFrameResources ≤ passesDone 1 (castleAfter threeFrames))
    by (rewrite Hpd; unfold gNumFrameResources; lia).
  assert (Hf : 0 ≤ 1 < 18446744073709551616) by lia.
  assert (Hr : reachable (Castle.BuildRenderItems plainWorld plainWorld)
                         (Castle.BuildMaterials plainAlbedo plainFresnel plainRoughness)
                         1 (castleAfter threeFrames))
    by (apply (run_reachable _ _ _ threeFrames); vm_compute; reflexivity).
  split; [exact Hp|].
  exact (castle_objects_converge plainWorld plainWorld plainAlbedo plainFresnel
           plainRoughness 1 (castleAfter threeFrames) Hf Hr Hp).
Defined.

Lemma materials_converge_witness :
  reverse mazeMats ≡ₚ mazeMats
  ∧ gNumFrameResources ≤ passesDone 1 mazeReversed
  ∧ ∃ fr m,
      mFrameResources mazeReversed !! 0%nat = Some fr
      ∧ mMaterials mazeReversed !! 0%nat = Some m
      ∧ MatCBIndex m = 4
      ∧ MatNumFramesDirty m = 0
      ∧ MaterialCB fr !! 4%nat = Some (Some (matConstants m)).
Proof.
  assert (Hperm : reverse mazeMats ≡ₚ mazeMats) by apply reverse_Permutation.
  assert (Hpd : passesDone 1 mazeReversed = 3) by (vm_compute; reflexivity).
  assert (Hp : gNumFrameResources ≤ passesDone 1 mazeReversed)
    by (rewrite Hpd; unfold gNumFrameResources; lia).
  assert (Hf : 0 ≤ 1 < 18446744073709551616) by lia.
  assert (Hr : reachable mazeItems (reverse mazeMats) 1 mazeReversed)
    by (apply (run_reachable _ _ _ threeFrames); vm_compute; reflexivity).
  assert (Hfr : ∃ fr, mFrameResources mazeReversed !! 0%nat = Some fr)
    by (eexists; vm_compute; reflexivity).
  assert (Hm : ∃ m, mMaterials mazeReversed !! 0%nat = Some m ∧ MatCBIndex m = 4)
    by (eexists; split; vm_compute; reflexivity).
  destruct Hfr as [fr Hfr]. destruct Hm as (m & Hm & Hidx).
  split; [exact Hperm|]. split; [exact Hp|].
  destruct (materials_converge mazeItems mazeMats (reverse mazeMats) 1 mazeReversed
              maze_scene Hperm Hf Hr Hp 0%nat fr m Hfr (list_elem_of_lookup_2 _ _ _ Hm))
    as (_ & Hd & Hcell & _).
  exists fr, m. rewrite Hidx in Hcell.
  split; [exact Hfr|]. split; [exact Hm|]. split; [exact Hidx|]. split; [exact Hd|exact Hcell].
Defined.

Lemma maze_objects_converge_witness :
  mFrameResources (mazeAfter threeFrames) !! 0%nat = Some mazeSettledSlot
  ∧ ObjectCB mazeSettledSlot !! (length (mAllRitems (mazeAfter threeFrames)) - 1)%nat
    = Some None.
Proof.
  assert (Hk : mFrameResources (mazeAfter threeFrames) !! 0%nat = Some mazeSettledSlot)
    by (vm_compute; reflexivity).
  assert (Hp : gNumFrameResources ≤ passesDone 1 (mazeAfter threeFrames))
    by (rewrite maze_three_frames_passes; unfold gNumFrameResources; lia).
  assert (Hf : 0 ≤ 1 < 18446744073709551616) by lia.
  pose proof maze_three_frames_reachable as Hr.
  rewrite mazeItems_unfold, mazeMats_unfold in Hr.
  split; [exact Hk|].
  destruct (maze_objects_converge mazeWorld plainWorld plainAlbedo plainFresnel
              plainRoughness (λ n, Z.of_nat n) 1 (mazeAfter threeFrames) 0 mazeSettledSlot
              Hf Hr Hp Hk) as (_ & _ & H).
  exact H.
Defined.

(** ** The pass constants *)

(** X5.  The refresh step stores the pass constants of the frame in the one
    element of the acquired frame resource's pass buffer, and leaves the two
    other frame resources as they were. *)
Theorem pass_constants_stored (items : list RenderItem) (mats : list Material) (f0 : Z)
    (s s' : App) (mainPassCB : PassConstants) :
  SceneOK items mats → 0 ≤ f0 < 18446744073709551616 →
  reachable items mats f0 s →
  pc s = AtRefresh →
  cpu_step mainPassCB s = Ok s' →
  ∃ k fr',
    mCurrFrameResource s' = Some k
    ∧ mFrameResources s' !! k = Some fr'
    ∧ PassCB fr' = [Some mainPassCB]
    ∧ ∀ k', k' ≠ k → mFrameResources s' !! k' = mFrameResources s !! k'.
Proof.
  intros Hsc Hf Hr Hpc Hstep.
  pose proof (reachable_Inv items mats f0 Hsc Hf s Hr) as HI.
  destruct (step_refresh items mats f0 Hsc s mainPassCB HI Hpc) as (fr & Hcur & _ & Heq).
  destruct (Inv_current items mats f0 s HI) as (fr0 & Hcur0 & Hslot); [by rewrite Hpc|].
  rewrite Hcur in Hcur0. injection Hcur0 as <-.
  apply currFrameResource_Some in Hcur as [Hk Hfr].
  rewrite Heq in Hstep. injection Hstep as <-. cbn.
  exists (slotOf (framesDone f0 s + 1)), (refreshedSlot (dirtyAfter (framesDone f0 s)) items mats
                                                         mainPassCB fr).
  split; [done|]. split; [|split].
  - apply list_lookup_insert_eq. by eapply lookup_lt_Some.
  - cbn. pose proof (slot_pass _ _ _ _ _ _ _ Hslot) as Hlen.
    destruct (PassCB fr) as [|x [|y l]]; simpl in Hlen; try done.
  - intros k' Hne. by apply list_lookup_insert_ne.
Qed.

(** ** Progress *)

Lemma act_cpu (mainPassCB : PassConstants) (s s' : App) :
  cpu_step mainPassCB s = Ok s' →
  (pc s = AtDraw → mCurrentFence s + 1 < 18446744073709551616) →
  act (Cpu mainPassCB) s = Some s'.
Proof.
  intros Hstep Hroom. cbn. rewrite Hstep.
  destruct (pc s) eqn:Hpc; try done.
  destruct (Z.ltb_spec (mCurrentFence s + 1) 18446744073709551616); [done|].
  specialize (Hroom eq_refl). lia.
Qed.

Section Progress.
Variable items0 : list RenderItem.
Variable mats0 : list Material.
Variable f0 : Z.
Hypothesis scene : SceneOK items0 mats0.
Hypothesis f0_range : 0 ≤ f0 < 18446744073709551616.
Variable mainPassCB : PassConstants.

Abbreviation caughtUp' := (caughtUp items0 mats0 f0).

Lemma progress_next (s s' : App) :
  Inv items0 mats0 f0 s → cpu_step mainPassCB s = Ok s' →
  (pc s = AtDraw → mCurrentFence s + 1 < 18446744073709551616) →
  act (Cpu mainPassCB) s = Some s' ∧ Inv items0 mats0 f0 s'.
Proof.
  intros HI Hstep Hroom. split; [by apply act_cpu|].
  eapply (Inv_step items0 mats0 f0 scene f0_range s s' HI).
  by eapply step_cpu.
Qed.

Lemma progress_acquire (s : App) (c : Z) :
  caughtUp' s c AtUpdate →
  ∃ s', act (Cpu mainPassCB) s = Some s' ∧ caughtUp' s' c AtRefresh.
Proof.
  intros (HI & Hpc & Hc & Hm).
  destruct (step_acquire items0 mats0 f0 s mainPassCB HI Hpc) as (fr & _ & Hfence & Heq).
  assert (Hnowait : negb (Fence fr =? 0) && (mFence s <? Fence fr) = false).
  { destruct HI as [H1 _ _ _ _ _ _]. rewrite Hfence. unfold framesDone. zbool; simpl; lia. }
  rewrite Hnowait in Heq.
  destruct (progress_next s _ HI Heq) as [Hact HI']; [by rewrite Hpc|].
  eexists. split; [exact Hact|]. by split.
Qed.

Lemma progress_wake (s : App) (c : Z) :
  caughtUp' s c InWait →
  ∃ s', act (Cpu mainPassCB) s = Some s' ∧ caughtUp' s' c AtRefresh.
Proof.
  intros (HI & Hpc & Hc & Hm).
  destruct (step_wake items0 mats0 f0 s mainPassCB HI Hpc) as (fr & _ & _ & Hle & Heq).
  destruct (Z.leb_spec (Fence fr) (mFence s)); [|lia].
  destruct (progress_next s _ HI Heq) as [Hact HI']; [by rewrite Hpc|].
  eexists. split; [exact Hact|]. by split.
Qed.

Lemma progress_refresh (s : App) (c : Z) :
  caughtUp' s c AtRefresh →
  ∃ s', act (Cpu mainPassCB) s = Some s' ∧ caughtUp' s' c AtDraw.
Proof.
  intros (HI & Hpc & Hc & Hm).
  destruct (step_refresh items0 mats0 f0 scene s mainPassCB HI Hpc) as (fr & _ & _ & Heq).
  destruct (progress_next s _ HI Heq) as [Hact HI']; [by rewrite Hpc|].
  eexists. split; [exact Hact|]. by split.
Qed.

Lemma progress_draw (s : App) (c : Z) :
  caughtUp' s c AtDraw → c + 1 < 18446744073709551616 →
  ∃ s', act (Cpu mainPassCB) s = Some s'
        ∧ Inv items0 mats0 f0 s' ∧ pc s' = AtUpdate
        ∧ mCurrentFence s' = c + 1 ∧ mFence s' = c.
Proof.
  intros (HI & Hpc & Hc & Hm) Hroom.
  destruct (step_draw items0 mats0 f0 s mainPassCB HI Hpc) as (fr & _ & _ & Heq); [lia|].
  destruct (progress_next s _ HI Heq) as [Hact HI']; [lia|].
  eexists. split; [exact Hact|]. split; [exact HI'|]. cbn. by rewrite Hc.
Qed.
End Progress.

(** X6.  The submitting thread cannot get stuck.  From every reachable
    state, once the device has completed what was submitted, the thread
    finishes the frame it is in (or, between frames, a whole frame) without
    waiting and without failing: it is again between frames, one more frame
    is submitted, and only that frame is outstanding. *)
Theorem frame_completes (items : list RenderItem) (mats : list Material) (f0 : Z)
    (s : App) (mainPassCB : PassConstants) :
  SceneOK items mats → 0 ≤ f0 < 18446744073709551616 →
  reachable items mats f0 s →
  mCurrentFence s + 1 < 18446744073709551616 →
  ∃ s', run (finishFrame mainPassCB s) s = Some s'
        ∧ reachable items mats f0 s'
        ∧ pc s' = AtUpdate
        ∧ mCurrentFence s' = mCurrentFence s + 1
        ∧ mFence s' = mCurrentFence s.
Proof.
  intros Hsc Hf Hr Hroom.
  pose proof (reachable_Inv items mats f0 Hsc Hf s Hr) as HI.
  set (c := mCurrentFence s) in *.
  assert (Hgpu : gpu_step c s = Some (withFence c s)).
  { unfold gpu_step. destruct HI as [H1 _ _ _ _ _ _].
    destruct (Z.leb_spec (mFence s) c); [|unfold c in *; lia].
    by rewrite Z.leb_refl. }
  assert (H0 : caughtUp items mats f0 (withFence c s) c (pc s)).
  { split; [|done]. by eapply (Inv_gpu items mats f0 Hf s _ c). }
  assert (Hfin : ∃ s', run (finishFrame mainPassCB s) s = Some s'
                       ∧ pc s' = AtUpdate ∧ mCurrentFence s' = c + 1 ∧ mFence s' = c).
  { unfold finishFrame. fold c.
    destruct (pc s) eqn:Hpc; cbn [run]; change (act (Gpu c) s) with (gpu_step c s);
      rewrite Hgpu; cbn [mbind option_bind].
    - destruct (progress_acquire items mats f0 Hsc Hf mainPassCB _ c H0) as (s1 & -> & H1).
      destruct (progress_refresh items mats f0 Hsc Hf mainPassCB _ c H1) as (s2 & Ha2 & H2).
      destruct (progress_draw items mats f0 Hsc Hf mainPassCB _ c H2 Hroom)
        as (s3 & Ha3 & _ & H3).
      exists s3. cbn [run mbind option_bind]. rewrite Ha2. cbn [run mbind option_bind].
      by rewrite Ha3.
    - destruct (progress_wake items mats f0 Hsc Hf mainPassCB _ c H0) as (s1 & -> & H1).
      destruct (progress_refresh items mats f0 Hsc Hf mainPassCB _ c H1) as (s2 & Ha2 & H2).
      destruct (progress_draw items mats f0 Hsc Hf mainPassCB _ c H2 Hroom)
        as (s3 & Ha3 & _ & H3).
      exists s3. cbn [run mbind option_bind]. rewrite Ha2. cbn [run mbind option_bind].
      by rewrite Ha3.
    - destruct (progress_refresh items mats f0 Hsc Hf mainPassCB _ c H0) as (s2 & -> & H2).
      destruct (progress_draw items mats f0 Hsc Hf mainPassCB _ c H2 Hroom)
        as (s3 & Ha3 & _ & H3).
      exists s3. cbn [run mbind option_bind]. by rewrite Ha3.
    - destruct (progress_draw items mats f0 Hsc Hf mainPassCB _ c H0 Hroom)
        as (s3 & -> & _ & H3).
      by exists s3. }
  destruct Hfin as (s' & Hrun & H).
  exists s'. split; [exact Hrun|]. split; [|exact H].
  unfold reachable in *. etrans; [exact Hr|]. by eapply run_steps.
Qed.

Lemma pass_constants_stored_witness :
  pc castleAcquired = AtRefresh
  ∧ cpu_step plainPass castleAcquired = Ok castleRefreshed
  ∧ ∃ k fr',
      mCurrFrameResource castleRefreshed = Some k
      ∧ mFrameResources castleRefreshed !! k = Some fr'
      ∧ PassCB fr' = [Some plainPass]
      ∧ ∀ k', k' ≠ k →
              mFrameResources castleRefreshed !! k' = mFrameResources castleAcquired !! k'.
Proof.
  assert (Hpc : pc castleAcquired = AtRefresh) by (vm_compute; reflexivity).
  assert (Hstep : cpu_step plainPass castleAcquired = Ok castleRefreshed)
    by (vm_compute; reflexivity).
  assert (Hf : 0 ≤ 1 < 18446744073709551616) by lia.
  assert (Hr : reachable castleItems castleMats 1 castleAcquired)
    by (apply (run_reachable _ _ _ [Cpu plainPass]); vm_compute; reflexivity).
  split; [exact Hpc|]. split; [exact Hstep|].
  exact (pass_constants_stored castleItems castleMats 1 castleAcquired castleRefreshed
           plainPass
           (RepositoryScene_OK _ _
              (CastleScene plainWorld plainWorld plainAlbedo plainFresnel plainRoughness))
           Hf Hr Hpc Hstep).
Defined.

Lemma frame_completes_witness :
  mCurrentFence castleStalled + 1 < 18446744073709551616
  ∧ ∃ s', run (finishFrame plainPass castleStalled) castleStalled = Some s'
          ∧ reachable castleItems castleMats 1 s'
          ∧ pc s' = AtUpdate
          ∧ mCurrentFence s' = mCurrentFence castleStalled + 1
          ∧ mFence s' = mCurrentFence castleStalled.
Proof.
  assert (Hc : mCurrentFence castleStalled + 1 < 18446744073709551616)
    by (vm_compute; reflexivity).
  assert (Hf : 0 ≤ 1 < 18446744073709551616) by lia.
  assert (Hr : reachable castleItems castleMats 1 castleStalled)
    by (apply (run_reachable _ _ _ (stalledSchedule 3 plainPass)); vm_compute; reflexivity).
  split; [exact Hc|].
  exact (frame_completes castleItems castleMats 1 castleStalled plainPass
           (RepositoryScene_OK _ _
              (CastleScene plainWorld plainWorld plainAlbedo plainFresnel plainRoughness))
           Hf Hr Hc).
Defined.

(** ** [AnimateMaterials] *)

Lemma AnimateMaterials_None (tu tv : float) (s : App) :
  Maze.AnimateMaterials tu tv s = None ↔ Forall (λ m, Name m ≠ "water") (mMaterials s).
Proof.
  unfold Maze.AnimateMaterials.
  destruct (list_find (λ m, Name m = "water") (mMaterials s)) as [[p m]|] eqn:Hfind;
    cbn [mbind option_bind].
  - split; [done|]. intros H.
    apply (list_find_None (λ m, Name m = "water")) in H. by rewrite H in Hfind.
  - split; [|done]. intros _.
    by apply (list_find_None (λ m, Name m = "water")) in Hfind.
Qed.

Lemma no_water_reachable (items : list RenderItem) (mats : list Material) (f0 : Z) (s : App) :
  SceneOK items mats → 0 ≤ f0 < 18446744073709551616 →
  Forall (λ m, Name m ≠ "water") mats →
  reachable items mats f0 s →
  Forall (λ m, Name m ≠ "water") (mMaterials s).
Proof.
  intros Hsc Hf Hnames Hr.
  destruct (reachable_Inv items mats f0 Hsc Hf s Hr) as [_ _ H3 _ _ _ _].
  rewrite H3. apply Forall_fmap. eapply Forall_impl; [exact Hnames|]. by intros m.
Qed.

Lemma maze_no_water (albedo : string → XMFLOAT4) (fresnel : string → XMFLOAT3)
    (roughness : string → float) :
  Forall (λ m, Name m ≠ "water") (Maze.BuildMaterials albedo fresnel roughness).
Proof. unfold Maze.BuildMaterials. repeat constructor; discriminate. Qed.

(** X7.  In the second application [AnimateMaterials] cannot run: it looks
    up the material named water, [BuildMaterials] defines none of that name
    and no step of the protocol adds one, so in every reachable state the
    lookup yields a null pointer and the stores through it fail. *)
Theorem maze_animate_materials_fails (world tex : nat → XMFLOAT4X4)
    (albedo : string → XMFLOAT4) (fresnel : string → XMFLOAT3) (roughness : string → float)
    (rand : nat → Z) (f0 : Z) (s : App) (tu tv : float) :
  0 ≤ f0 < 18446744073709551616 →
  reachable (Maze.BuildRenderItems world tex rand)
            (Maze.BuildMaterials albedo fresnel roughness) f0 s →
  Maze.AnimateMaterials tu tv s = None.
Proof.
  intros Hf Hr. apply AnimateMaterials_None.
  exact (no_water_reachable _ _ f0 s
           (RepositoryScene_OK _ _ (MazeScene world tex albedo fresnel roughness rand))
           Hf (maze_no_water albedo fresnel roughness) Hr).
Qed.

(** ** The materials the render items refer to *)

Lemma pushNext_Forall (P : RenderItem → Prop) (world tex : nat → XMFLOAT4X4)
    (mat geo : string) (b : Builder) :
  (∀ w t i, P (authoredItem w t i mat geo)) →
  Forall P b.2 → Forall P (pushNext world tex mat geo b).2.
Proof. intros HP Hb. cbn. apply Forall_app. split; [done|]. by constructor. Qed.

Lemma mazeCells_Forall (P : RenderItem → Prop) (world tex : nat → XMFLOAT4X4)
    (rand : nat → Z) (n : nat) :
  (∀ w t i, P (authoredItem w t i "stone0" "shapeGeo")) →
  ∀ (calls : nat) (b : Builder),
    Forall P b.2 → Forall P (Maze.mazeCells world tex rand n (calls, b)).2.2.
Proof.
  intros HP. induction n as [|n IH]; intros calls b Hb; cbn [Maze.mazeCells]; [done|].
  unfold Maze.mazeCell.
  destruct (1 <? Z.rem (rand calls) 5); destruct (1 <? Z.rem (rand (S calls)) 5);
    apply IH; repeat apply pushNext_Forall; done.
Qed.

Lemma maze_items_Forall (P : RenderItem → Prop) (world tex : nat → XMFLOAT4X4)
    (rand : nat → Z) :
  (∀ w t i, P (authoredItem w t i "stone0" "shapeGeo")) →
  Forall P (Maze.castleAndBorder world tex).2 →
  P Maze.treeSpritesRitem →
  Forall P (Maze.BuildRenderItems world tex rand).
Proof.
  intros HP Hc Ht. unfold Maze.BuildRenderItems. cbv zeta.
  apply Forall_app. split; [by apply mazeCells_Forall|by constructor].
Qed.

Lemma forallb_Forall_true {A : Type} (f : A → bool) (l : list A) :
  forallb f l = true ↔ Forall (λ x, f x = true) l.
Proof. by rewrite forallb_forall, List.Forall_forall. Qed.

Lemma materialDefinedb_correct (mats : list Material) (e : RenderItem) :
  materialDefinedb (map Name mats) e = true →
  ∃ n q m, Mat e = Some n ∧ mats !! q = Some m ∧ Name m = n.
Proof.
  unfold materialDefinedb. destruct (Mat e) as [n|]; [|done].
  intros H%bool_decide_eq_true. apply list_elem_of_fmap in H as (m & -> & Hm).
  apply list_elem_of_lookup in Hm as [q Hq]. by exists (Name m), q, m.
Qed.

Lemma castle_materials_defined (world tex : nat → XMFLOAT4X4) (albedo : string → XMFLOAT4)
    (fresnel : string → XMFLOAT3) (roughness : string → float) :
  forallb (materialDefinedb (map Name (Castle.BuildMaterials albedo fresnel roughness)))
          (Castle.BuildRenderItems world tex) = true.
Proof. vm_compute; reflexivity. Qed.

Lemma maze_materials_defined (world tex : nat → XMFLOAT4X4) (albedo : string → XMFLOAT4)
    (fresnel : string → XMFLOAT3) (roughness : string → float) (rand : nat → Z) :
  forallb (materialDefinedb (map Name (Maze.BuildMaterials albedo fresnel roughness)))
          (Maze.BuildRenderItems world tex rand) = true.
Proof.
  apply forallb_Forall_true.
  apply (maze_items_Forall
           (λ e, materialDefinedb (map Name (Maze.BuildMaterials albedo fresnel roughness)) e
                 = true)).
  - intros w t i. vm_compute; reflexivity.
  - apply forallb_Forall_true. vm_compute; reflexivity.
  - vm_compute; reflexivity.
Qed.

Lemma repository_materials_defined (items : list RenderItem) (mats : list Material) :
  RepositoryScene items mats → forallb (materialDefinedb (map Name mats)) items = true.
Proof.
  intros [world tex albedo fresnel roughness|world tex albedo fresnel roughness rand].
  - apply castle_materials_defined.
  - apply maze_materials_defined.
Qed.

Lemma materials_stay_defined (items : list RenderItem) (mats : list Material) (f0 : Z)
    (s : App) :
  SceneOK items mats → 0 ≤ f0 < 18446744073709551616 →
  forallb (materialDefinedb (map Name mats)) items = true →
  reachable items mats f0 s →
  ∀ p e, mAllRitems s !! p = Some e →
         ∃ n q m, Mat e = Some n ∧ mMaterials s !! q = Some m ∧ Name m = n.
Proof.
  intros Hsc Hf Hdef Hr p e He.
  destruct (reachable_Inv items mats f0 Hsc Hf s Hr) as [_ H2 H3 _ _ _ _].
  rewrite H2 in He. apply list_lookup_fmap_Some in He as (e0 & -> & He0).
  rewrite forallb_Forall_true, Forall_lookup in Hdef.
  destruct (materialDefinedb_correct mats e0 (Hdef p e0 He0)) as (n & q & m & Hn & Hq & Hm).
  exists n, q, (setMatDirty (dirtyAfter (passesDone f0 s)) m).
  split; [done|]. split; [|done]. by rewrite H3, list_lookup_fmap, Hq.
Qed.

(** X9.  In both applications, for every authoring and every outcome of
    [rand]: in every reachable state the material pointer of every render
    item is the key of a material that [mMaterials] holds, so
    [DrawRenderItems] never reads a material through a null pointer. *)
Theorem render_items_name_materials (items : list RenderItem) (mats : list Material) (f0 : Z)
    (s : App) :
  RepositoryScene items mats →
  0 ≤ f0 < 18446744073709551616 →
  reachable items mats f0 s →
  ∀ p e, mAllRitems s !! p = Some e →
         ∃ n q m, Mat e = Some n ∧ mMaterials s !! q = Some m ∧ Name m = n.
Proof.
  intros Hrepo Hf Hr.
  exact (materials_stay_defined items mats f0 s (RepositoryScene_OK _ _ Hrepo) Hf
           (repository_materials_defined items mats Hrepo) Hr).
Qed.

Lemma maze_animate_materials_fails_witness :
  Maze.AnimateMaterials f_one f_zero (mazeAfter threeFrames) = None.
Proof.
  assert (Hf : 0 ≤ 1 < 18446744073709551616) by lia.
  pose proof maze_three_frames_reachable as Hr.
  rewrite mazeItems_unfold, mazeMats_unfold in Hr.
  exact (maze_animate_materials_fails mazeWorld plainWorld plainAlbedo plainFresnel
           plainRoughness (λ n, Z.of_nat n) 1 (mazeAfter threeFrames) f_one f_zero Hf Hr).
Defined.

Lemma render_items_name_materials_witness :
  ∃ e n q m,
    mAllRitems (mazeAfter threeFrames) !! 3%nat = Some e
    ∧ Mat e = Some n
    ∧ mMaterials (mazeAfter threeFrames) !! q = Some m
    ∧ Name m = n.
Proof.
  assert (Hf : 0 ≤ 1 < 18446744073709551616) by lia.
  assert (He : ∃ e, mAllRitems (mazeAfter threeFrames) !! 3%nat = Some e)
    by (eexists; vm_compute; reflexivity).
  destruct He as [e He].
  destruct (render_items_name_materials mazeItems mazeMats 1 (mazeAfter threeFrames)
              maze_scene Hf maze_three_frames_reachable 3%nat e He) as (n & q & m & H1 & H2 & H3).
  exists e, n, q, m. split; [exact He|]. split; [exact H1|]. split; [exact H2|exact H3].
Defined.

(** ** The packed shape geometry *)

Lemma slice_middle {A : Type} (l1 l l2 : list A) :
  slice (Z.of_nat (length l1)) (Z.of_nat (length l)) (l1 ++ l ++ l2) = l.
Proof.
  unfold slice. rewrite !Nat2Z.id, drop_app_length. by rewrite take_app_length.
Qed.

(** The [i]-th of the chunks a buffer is made of. *)
Lemma slice_chunks {A : Type} (chunks : list (list A)) (i : nat) (mid : list A)
    (start count : Z) :
  chunks !! i = Some mid →
  start = Z.of_nat (length (concat (take i chunks))) →
  count = Z.of_nat (length mid) →
  slice start count (concat chunks) = mid.
Proof.
  intros Hi -> ->. rewrite <- (take_drop_middle chunks i mid Hi) at 2.
  rewrite concat_app, concat_cons. apply slice_middle.
Qed.

Lemma toINT_small (z : Z) : 0 ≤ z < 2147483648 → toINT z = z.
Proof.
  intros H. unfold toINT. cbv zeta. rewrite Z.mod_small by lia.
  destruct (Z.ltb_spec z 2147483648); lia.
Qed.

Lemma memoryOf_app {A : Type} (bytesOf : A → list Z) (l1 l2 : list A) :
  memoryOf bytesOf (l1 ++ l2) = memoryOf bytesOf l1 ++ memoryOf bytesOf l2.
Proof. unfold memoryOf. by rewrite map_app, concat_app. Qed.

Lemma memoryOf_length {A : Type} (bytesOf : A → list Z) (w : Z) (l : list A) :
  (∀ a, Z.of_nat (length (bytesOf a)) = w) →
  Z.of_nat (length (memoryOf bytesOf l)) = w * Z.of_nat (length l).
Proof.
  intros Hw. unfold memoryOf. induction l as [|a l IH]; cbn [map concat length]; [lia|].
  rewrite length_app, Nat2Z.inj_add, IH, Hw. lia.
Qed.

Lemma leBytes_length (width : nat) (z : Z) : length (leBytes width z) = width.
Proof. unfold leBytes. by rewrite length_map, length_seq. Qed.

Lemma CopyMemory_all (src : list Z) (n : Z) :
  Z.of_nat (length src) = n → CopyMemory src n = src.
Proof. intros <-. unfold CopyMemory. rewrite Nat2Z.id. apply firstn_all. Qed.

Section ShapeGeometryFacts.
Context {GV V : Type}.
Variable toVertex : GV → V.
Variable GetIndices16 : MeshData GV → list Z.
Variable vertexBytes : V → list Z.
Variable sizeofVertex : Z.
Variables box cylinder diamond cone wedge pyramid torus grid sphere : MeshData GV.

Abbreviation shapes :=
  (BuildShapeGeometry toVertex GetIndices16 vertexBytes sizeofVertex
     box cylinder diamond cone wedge pyramid torus grid sphere).
Abbreviation table :=
  (shapeTable box cylinder diamond cone wedge pyramid torus grid sphere).

(** X10.  [BuildShapeGeometry] packs the nine shapes into one vertex and one
    index blob and registers one submesh per shape.  Let every [Vertex] take
    [sizeof(Vertex)] bytes and [GetIndices16] give the indices of a mesh cut
    to 16 bits.  When the shapes have fewer than 2^31 vertices and the two
    byte sizes, computed as [UINT], do not wrap, the blobs hold all the
    vertices and all the indices, and the submesh of every shape describes
    exactly that shape's part of them: the bytes of its [IndexCount] indices
    from [StartIndexLocation] on are the shape's indices, and the bytes of
    the vertices from [BaseVertexLocation] on are the shape's vertices. *)
Theorem shape_geometry_packing (name : string) (mesh : MeshData GV) :
  0 < sizeofVertex →
  (∀ v, Z.of_nat (length (vertexBytes v)) = sizeofVertex) →
  (∀ m, GetIndices16 m = map (λ i, i mod 65536) (Indices32 m)) →
  totalVertices table.*2 < 2147483648 →
  totalVertices table.*2 * sizeofVertex < 4294967296 →
  totalIndices table.*2 * 2 < 4294967296 →
  (name, mesh) ∈ table →
  VertexBufferByteSize (meshGeometry shapes) = totalVertices table.*2 * sizeofVertex
  ∧ Z.of_nat (length (VertexBufferCPU shapes)) = VertexBufferByteSize (meshGeometry shapes)
  ∧ IndexBufferByteSize (meshGeometry shapes) = totalIndices table.*2 * 2
  ∧ Z.of_nat (length (IndexBufferCPU shapes)) = IndexBufferByteSize (meshGeometry shapes)
  ∧ ∃ sm,
      DrawArgs (meshGeometry shapes) !! name = Some sm
      ∧ IndexCount sm = Z.of_nat (length (Indices32 mesh))
      ∧ slice (2 * StartIndexLocation sm) (2 * IndexCount sm) (IndexBufferCPU shapes)
        = memoryOf (leBytes 2) (map (λ i, i mod 65536) (Indices32 mesh))
      ∧ 0 ≤ BaseVertexLocation sm
      ∧ slice (sizeofVertex * BaseVertexLocation sm)
              (sizeofVertex * Z.of_nat (length (Vertices mesh)))
              (VertexBufferCPU shapes)
        = memoryOf vertexBytes (map toVertex (Vertices mesh)).
Proof.
  intros Hsz Hvb H16 Hn HvB HiB Hin.
  unfold totalVertices, totalIndices, shapeTable in Hn, HvB, HiB |- *.
  cbn [fmap list_fmap snd map concat] in Hn, HvB, HiB |- *.
  rewrite !app_nil_r in Hn, HvB, HiB |- *.
  rewrite !length_app, !Nat2Z.inj_add in Hn, HvB, HiB |- *.
  assert (Hi2 : ∀ i, Z.of_nat (length (leBytes 2 i)) = 2)
    by (intros i; by rewrite leBytes_length).
  assert (Hlen16 : ∀ m, length (GetIndices16 m) = length (Indices32 m))
    by (intros m; by rewrite H16, length_map).
  (* the two blobs hold everything *)
  assert (HV : VertexBufferCPU shapes
               = concat [ memoryOf vertexBytes (map toVertex (Vertices box));
                          memoryOf vertexBytes (map toVertex (Vertices cylinder));
                          memoryOf vertexBytes (map toVertex (Vertices diamond));
                          memoryOf vertexBytes (map toVertex (Vertices cone));
                          memoryOf vertexBytes (map toVertex (Vertices wedge));
                          memoryOf vertexBytes (map toVertex (Vertices pyramid));
                          memoryOf vertexBytes (map toVertex (Vertices torus));
                          memoryOf vertexBytes (map toVertex (Vertices grid));
                          memoryOf vertexBytes (map toVertex (Vertices sphere)) ]).
  { cbn [BuildShapeGeometry VertexBufferCPU concat]. rewrite app_nil_r, <- !memoryOf_app.
    apply CopyMemory_all. rewrite (memoryOf_length _ sizeofVertex) by done.
    unfold sizeUINT, wrapUINT. rewrite !length_app, !length_map, !Nat2Z.inj_add.
    rewrite (Z.mod_small (_ + _) 4294967296) by lia. rewrite Z.mod_small by lia. lia. }
  assert (HI : IndexBufferCPU shapes
               = concat [ memoryOf (leBytes 2) (GetIndices16 box);
                          memoryOf (leBytes 2) (GetIndices16 cylinder);
                          memoryOf (leBytes 2) (GetIndices16 diamond);
                          memoryOf (leBytes 2) (GetIndices16 cone);
                          memoryOf (leBytes 2) (GetIndices16 wedge);
                          memoryOf (leBytes 2) (GetIndices16 pyramid);
                          memoryOf (leBytes 2) (GetIndices16 torus);
                          memoryOf (leBytes 2) (GetIndices16 grid);
                          memoryOf (leBytes 2) (GetIndices16 sphere) ]).
  { cbn [BuildShapeGeometry IndexBufferCPU concat]. rewrite app_nil_r, <- !memoryOf_app.
    apply CopyMemory_all. rewrite (memoryOf_length _ 2) by done.
    unfold sizeUINT, wrapUINT. rewrite !length_app, !Hlen16, !Nat2Z.inj_add.
    rewrite (Z.mod_small (_ + _) 4294967296) by lia. rewrite Z.mod_small by lia. lia. }
  rewrite HV, HI.
  split; [|split; [|split; [|split]]].
  - cbn [BuildShapeGeometry meshGeometry VertexBufferByteSize]. rewrite ?app_nil_r.
    unfold sizeUINT, wrapUINT. rewrite !length_app, !length_map, !Nat2Z.inj_add.
    rewrite (Z.mod_small (_ + _) 4294967296) by lia. rewrite Z.mod_small by lia. lia.
  - cbn [BuildShapeGeometry meshGeometry VertexBufferByteSize concat].
    rewrite app_nil_r, !length_app, !Nat2Z.inj_add,
      !(memoryOf_length vertexBytes sizeofVertex), !length_map by done.
    unfold sizeUINT, wrapUINT. rewrite !length_app, !length_map, !Nat2Z.inj_add.
    rewrite (Z.mod_small (_ + _) 4294967296) by lia. rewrite Z.mod_small by lia. lia.
  - cbn [BuildShapeGeometry meshGeometry IndexBufferByteSize]. rewrite ?app_nil_r.
    unfold sizeUINT, wrapUINT. rewrite !length_app, !Hlen16, !Nat2Z.inj_add.
    rewrite (Z.mod_small (_ + _) 4294967296) by lia. rewrite Z.mod_small by lia. lia.
  - cbn [BuildShapeGeometry meshGeometry IndexBufferByteSize concat].
    rewrite app_nil_r, !length_app, !Nat2Z.inj_add,
      !(memoryOf_length (leBytes 2) 2), !Hlen16 by done.
    unfold sizeUINT, wrapUINT. rewrite !length_app, !Hlen16, !Nat2Z.inj_add.
    rewrite (Z.mod_small (_ + _) 4294967296) by lia. rewrite Z.mod_small by lia. lia.
  - unfold shapeTable in Hin. rewrite !elem_of_cons, elem_of_nil in Hin.
    unfold BuildShapeGeometry. cbv zeta. cbn [meshGeometry DrawArgs].
    unfold sizeUINT, wrapUINT.
    destruct Hin as [H|[H|[H|[H|[H|[H|[H|[H|[H|[]]]]]]]]]]; injection H as -> ->;
      (eexists; split; [by simplify_map_eq|]);
      cbn [IndexCount StartIndexLocation BaseVertexLocation];
      repeat match goal with
             | |- context [?x mod 4294967296] =>
                 lazymatch x with
                 | context [_ mod _] => fail
                 | _ => rewrite (Z.mod_small x 4294967296) by lia
                 end
             end;
      rewrite ?toINT_small by lia;
      (split; [reflexivity|]); (split; [|split; [lia|]]).
    all: rewrite <- ?H16.
    all: first
      [ apply (slice_chunks _ 0); [reflexivity| |]
      | apply (slice_chunks _ 1); [reflexivity| |]
      | apply (slice_chunks _ 2); [reflexivity| |]
      | apply (slice_chunks _ 3); [reflexivity| |]
      | apply (slice_chunks _ 4); [reflexivity| |]
      | apply (slice_chunks _ 5); [reflexivity| |]
      | apply (slice_chunks _ 6); [reflexivity| |]
      | apply (slice_chunks _ 7); [reflexivity| |]
      | apply (slice_chunks _ 8); [reflexivity| |] ].
    all: cbn [take concat]; rewrite ?app_nil_r, ?length_app, ?Nat2Z.inj_add;
      rewrite ?(memoryOf_length vertexBytes sizeofVertex),
              ?(memoryOf_length (leBytes 2) 2), ?length_map, ?Hlen16 by done;
      cbn [length]; lia.
Qed.
End ShapeGeometryFacts.

Lemma shape_geometry_packing_witness :
  ∃ sm,
    DrawArgs (meshGeometry
                (BuildShapeGeometry id sampleIndices16 sampleVertexBytes 32
                   (sampleMesh 24 12) (sampleMesh 8 4) (sampleMesh 6 8) (sampleMesh 5 6)
                   (sampleMesh 6 8) (sampleMesh 5 6) (sampleMesh 16 32) (sampleMesh 4 2)
                   (sampleMesh 12 20))) !! "torus" = Some sm
    ∧ IndexCount sm = 96
    ∧ StartIndexLocation sm = 132
    ∧ BaseVertexLocation sm = 54
    ∧ slice (2 * StartIndexLocation sm) (2 * IndexCount sm)
            (IndexBufferCPU
               (BuildShapeGeometry id sampleIndices16 sampleVertexBytes 32
                  (sampleMesh 24 12) (sampleMesh 8 4) (sampleMesh 6 8) (sampleMesh 5 6)
                  (sampleMesh 6 8) (sampleMesh 5 6) (sampleMesh 16 32) (sampleMesh 4 2)
                  (sampleMesh 12 20)))
      = memoryOf (leBytes 2) (map (λ i, i mod 65536) (Indices32 (sampleMesh 16 32))).
Proof.
  destruct (shape_geometry_packing id sampleIndices16 sampleVertexBytes 32
              (sampleMesh 24 12) (sampleMesh 8 4) (sampleMesh 6 8) (sampleMesh 5 6)
              (sampleMesh 6 8) (sampleMesh 5 6) (sampleMesh 16 32) (sampleMesh 4 2)
              (sampleMesh 12 20) "torus" (sampleMesh 16 32))
    as (_ & _ & _ & _ & sm & Hsm & Hcount & Hidx & _).
  - lia.
  - intros v. unfold sampleVertexBytes. by rewrite leBytes_length.
  - intros m. reflexivity.
  - vm_compute. reflexivity.
  - vm_compute. reflexivity.
  - vm_compute. reflexivity.
  - apply (list_elem_of_lookup_2 _ 6%nat). reflexivity.
  - exists sm. split; [exact Hsm|].
    assert (Hsm' := Hsm). vm_compute in Hsm'. injection Hsm' as <-.
    split; [reflexivity|]. split; [reflexivity|]. split; [reflexivity|]. exact Hidx.
Defined.

(** ** Building the render items with their draw arguments *)

Lemma positionsFrom_app (start : nat) (l : RenderLayer) (t1 t2 : list (option RenderLayer)) :
  positionsFrom start l (t1 ++ t2)
  = positionsFrom start l t1 ++ positionsFrom (start + length t1) l t2.
Proof.
  revert start. induction t1 as [|t t1 IH]; intros start; cbn [app positionsFrom length].
  - by rewrite Nat.add_0_r.
  - rewrite IH, <- app_assoc. do 3 f_equal. lia.
Qed.

Lemma SceneInv_empty (G : Geometries) : SceneInv G emptyScene (0, []) [].
Proof. split; first [done | constructor]. Qed.

Lemma SceneInv_setObjCBIndex (G : Geometries) (sc : Scene) (b : Builder)
    (tags : list (option RenderLayer)) (n : Z) :
  SceneInv G sc b tags → SceneInv G (setObjCBIndex n sc) (n, b.2) tags.
Proof. intros [H1 H2 H3 H4]. split; cbn; try done. by rewrite H1. Qed.

Section BuildRules.
Variable G : Geometries.

Lemma Builds_place (layer : option RenderLayer) (geo submesh : string)
    (topology : D3D_PRIMITIVE_TOPOLOGY) (push : Builder → Builder) :
  hasSubmeshes G geo [submesh] →
  (topology = D3D11_PRIMITIVE_TOPOLOGY_POINTLIST ↔ geo = "treeSpritesGeo") →
  (∀ b, ∃ e, (push b).2 = b.2 ++ [e] ∧ Geo e = Some geo) →
  Builds G (place G layer geo submesh topology push) push [layer].
Proof.
  intros (g & Hg & Hkeys) Htopo Hpush sc b tags [H1 H2 H3 H4].
  apply Forall_singleton in Hkeys as [sm Hsm].
  unfold place, loadDrawArguments. rewrite Hg. cbn [mbind option_bind].
  rewrite Hsm. cbn [default].
  eexists. split; [reflexivity|].
  destruct (Hpush b) as (e & Hpb & Hgeo).
  split; cbn [sBuilder sDrawArgs mRitemLayer].
  - by rewrite H1.
  - rewrite Hpb, !length_app. cbn. lia.
  - rewrite Hpb. apply Forall2_app; [done|]. constructor; [|constructor].
    exists geo, submesh. split; [done|]. split; [|done]. by exists g, sm.
  - intros l. rewrite positionsFrom_app. cbn [positionsFrom]. rewrite app_nil_r, Nat.add_0_l.
    unfold pushLayer. rewrite H1, <- H2. destruct layer as [l0|].
    + rewrite H4. destruct (decide (l = l0)) as [->|Hne].
      * by rewrite decide_True.
      * rewrite decide_False by congruence. by rewrite app_nil_r.
    + rewrite decide_False by done. by rewrite app_nil_r, H4.
Qed.

Lemma Builds_id : Builds G Some id [].
Proof. intros sc b tags H. exists sc. split; [done|]. by rewrite app_nil_r. Qed.

Lemma Builds_bind (f1 f2 : Scene → option Scene) (fb1 fb2 : Builder → Builder)
    (ts1 ts2 : list (option RenderLayer)) :
  Builds G f1 fb1 ts1 → Builds G f2 fb2 ts2 →
  Builds G (λ sc, sc' ← f1 sc; f2 sc') (λ b, fb2 (fb1 b)) (ts1 ++ ts2).
Proof.
  intros B1 B2 sc b tags H.
  destruct (B1 sc b tags H) as (sc1 & -> & H1).
  destruct (B2 sc1 _ _ H1) as (sc2 & Hf2 & H2).
  exists sc2. split; [done|]. by rewrite app_assoc.
Qed.

Lemma Builds_timesM (f : Scene → option Scene) (fb : Builder → Builder)
    (ts : list (option RenderLayer)) (n : nat) :
  Builds G f fb ts →
  Builds G (timesM n f) (times n fb) (concat (replicate n ts)).
Proof.
  intros B. induction n as [|n IH]; intros sc b tags H; cbn [timesM times replicate concat].
  - exists sc. split; [done|]. by rewrite app_nil_r.
  - destruct (B sc b tags H) as (sc1 & -> & H1).
    destruct (IH sc1 _ _ H1) as (sc2 & Hf2 & H2).
    exists sc2. split; [done|]. by rewrite app_assoc.
Qed.

Lemma Builds_blocks_cons (f : Scene → option Scene) (fs : list (Scene → option Scene))
    (fb fbs : Builder → Builder) (ts tss : list (option RenderLayer)) :
  Builds G f fb ts → Builds G (blocks fs) fbs tss →
  Builds G (blocks (f :: fs)) (λ b, fbs (fb b)) (ts ++ tss).
Proof. intros B1 B2. by apply (Builds_bind f (blocks fs)). Qed.

Lemma Builds_blocks_nil : Builds G (blocks []) id [].
Proof. apply Builds_id. Qed.

Lemma Builds_setObjCBIndex (n : Z) (f : Scene → option Scene) (fb : Builder → Builder)
    (ts : list (option RenderLayer)) :
  Builds G f fb ts →
  Builds G (λ sc, f (setObjCBIndex n sc)) (λ b, fb (n, b.2)) ts.
Proof.
  intros B sc b tags H. apply (B (setObjCBIndex n sc)). by apply SceneInv_setObjCBIndex.
Qed.

Section Authored.
Variable world tex : nat → XMFLOAT4X4.

Lemma hasSubmeshes_key (geo : string) (keys : list string) (k : string) :
  hasSubmeshes G geo keys → k ∈ keys → hasSubmeshes G geo [k].
Proof.
  intros (g & Hg & Hall) Hk. exists g. split; [done|].
  rewrite Forall_forall in Hall. apply Forall_singleton. by apply Hall.
Qed.

Lemma Builds_placeFixed (layer : option RenderLayer) (objCBIndex : Z)
    (mat geo submesh : string) :
  hasSubmeshes G geo [submesh] → geo ≠ "treeSpritesGeo" →
  Builds G (placeFixed world tex G layer objCBIndex mat geo submesh)
         (pushFixed world tex objCBIndex mat geo) [layer].
Proof.
  intros H Hne. apply Builds_place; [done|split; [done|by intros ->]|].
  intros b. by eexists.
Qed.

Lemma Builds_placeNext (layer : option RenderLayer) (mat geo submesh : string) :
  hasSubmeshes G geo [submesh] → geo ≠ "treeSpritesGeo" →
  Builds G (placeNext world tex G layer mat geo submesh)
         (pushNext world tex mat geo) [layer].
Proof.
  intros H Hne. apply Builds_place; [done|split; [done|by intros ->]|].
  intros b. by eexists.
Qed.
End Authored.
End BuildRules.

Lemma positionsFrom_same (start k : nat) (l : RenderLayer) :
  positionsFrom start l (replicate k (Some l)) = seq start k.
Proof.
  revert start. induction k as [|k IH]; intros start; cbn [replicate positionsFrom seq]; [done|].
  rewrite decide_True by done. by rewrite IH.
Qed.

Lemma positionsFrom_other (start k : nat) (l : RenderLayer) (t : option RenderLayer) :
  t ≠ Some l → positionsFrom start l (replicate k t) = [].
Proof.
  intros Hne. revert start.
  induction k as [|k IH]; intros start; cbn [replicate positionsFrom]; [done|].
  rewrite decide_False by done. by rewrite IH.
Qed.

Lemma Builds_ext (G : Geometries) (f f' : Scene → option Scene) (fb fb' : Builder → Builder)
    (ts ts' : list (option RenderLayer)) :
  Builds G f fb ts → (∀ sc, f' sc = f sc) → (∀ b, fb' b = fb b) → ts' = ts →
  Builds G f' fb' ts'.
Proof.
  intros B Hf Hfb -> sc b tags H. rewrite Hf, Hfb. by apply B.
Qed.

Lemma times_add (n m : nat) (f : Builder → Builder) (b : Builder) :
  times (n + m) f b = times m f (times n f b).
Proof. revert b. induction n as [|n IH]; intros b; cbn [times Nat.add]; [done|apply IH]. Qed.

(** The blocks both applications share: the pyramids and the towers. *)
Section SharedBlocks.
Variable world tex : nat → XMFLOAT4X4.
Variable G : Geometries.
Hypothesis shapes_registered : hasSubmeshes G "shapeGeo" shapeKeys.

Lemma shape_key (k : string) : k ∈ shapeKeys → hasSubmeshes G "shapeGeo" [k].
Proof. apply hasSubmeshes_key, shapes_registered. Qed.

Lemma Builds_shape (layer : option RenderLayer) (mat submesh : string) :
  submesh ∈ shapeKeys →
  Builds G (placeNext world tex G layer mat "shapeGeo" submesh)
         (pushNext world tex mat "shapeGeo") [layer].
Proof. intros Hk. apply Builds_placeNext; [by apply shape_key|done]. Qed.

Lemma Builds_fixed_shape (layer : option RenderLayer) (objCBIndex : Z) (mat submesh : string) :
  submesh ∈ shapeKeys →
  Builds G (placeFixed world tex G layer objCBIndex mat "shapeGeo" submesh)
         (pushFixed world tex objCBIndex mat "shapeGeo") [layer].
Proof. intros Hk. apply Builds_placeFixed; [by apply shape_key|done]. Qed.

Lemma Builds_pyramidRow (layer : option RenderLayer) (mat : string) :
  Builds G (pyramidRowDraw world tex G layer mat) (pyramidRow world tex mat)
         (replicate 4 layer).
Proof.
  eapply Builds_ext.
  - apply (Builds_timesM G (placeNext world tex G layer mat "shapeGeo" "pyramid")
        (pushNext world tex mat "shapeGeo") [layer] 4).
      apply (Builds_shape layer mat "pyramid").
    apply (bool_decide_unpack _); vm_compute; exact I.
  - intros sc. reflexivity.
  - intros b. reflexivity.
  - reflexivity.
Qed.

Lemma Builds_towerPair (layer : option RenderLayer) (mat : string) :
  Builds G (towerPairDraw world tex G layer mat) (towerPair world tex mat)
         (replicate 26 layer).
Proof.
  eapply Builds_ext.
  - eapply Builds_bind.
    + apply (Builds_timesM G (placeNext world tex G layer mat "shapeGeo" "wedge")
        (pushNext world tex mat "shapeGeo") [layer] 8).
      apply (Builds_shape layer mat "wedge"). apply (bool_decide_unpack _); vm_compute; exact I.
    + eapply Builds_bind.
      * apply (Builds_timesM G (placeNext world tex G layer mat "shapeGeo" "box")
          (pushNext world tex mat "shapeGeo") [layer] 16).
        apply (Builds_shape layer mat "box"). apply (bool_decide_unpack _); vm_compute; exact I.
      * apply (Builds_timesM G (placeNext world tex G layer mat "shapeGeo" "cylinder")
          (pushNext world tex mat "shapeGeo") [layer] 2).
        apply (Builds_shape layer mat "cylinder"). apply (bool_decide_unpack _); vm_compute; exact I.
  - intros sc. reflexivity.
  - intros b. unfold towerPair. change 26%nat with (8 + (16 + 2))%nat.
    by rewrite !times_add.
  - reflexivity.
Qed.
End SharedBlocks.

Ltac fixed_blocks Hshapes Hskull :=
  repeat (eapply Builds_blocks_cons;
          [first [ apply Builds_fixed_shape; [exact Hshapes|apply (bool_decide_unpack _); vm_compute; exact I]
                 | apply Builds_placeFixed; [exact Hskull|done] ]|]);
  apply Builds_blocks_nil.

(** [BuildRenderItems] of the first application on a table that holds the
    shapes and the skull. *)
Lemma castle_build_ok (world tex : nat → XMFLOAT4X4) (G : Geometries) :
  hasSubmeshes G "shapeGeo" shapeKeys →
  hasSubmeshes G "skullGeo" ["skull"] →
  ∃ sc,
    CastleDraw.BuildRenderItems world tex G
    = Some (sc, seq 0 (length (Castle.BuildRenderItems world tex)))
    ∧ (sBuilder sc).2 = Castle.BuildRenderItems world tex
    ∧ Forall2 (drawsSubmesh G) (Castle.BuildRenderItems world tex) (sDrawArgs sc).
Proof.
  intros Hshapes Hskull.
  unfold CastleDraw.BuildRenderItems. cbv zeta.
  match goal with
  | |- context [blocks ?l emptyScene] => eassert (B1 : Builds G (blocks l) _ _)
  end.
  { fixed_blocks Hshapes Hskull. }
  destruct (B1 emptyScene (0, []) [] (SceneInv_empty G)) as (sc1 & Hsc1 & H1).
  rewrite Hsc1. cbn [mbind option_bind].
  destruct (Builds_timesM G _ _ _ 8 (Builds_pyramidRow world tex G Hshapes None "bricks0")
              _ _ _ (SceneInv_setObjCBIndex G _ _ _ 12 H1)) as (sc2 & Hsc2 & H2).
  rewrite Hsc2. cbn [mbind option_bind].
  destruct (Builds_timesM G _ _ _ 2 (Builds_towerPair world tex G Hshapes None "bricks0")
              _ _ _ (SceneInv_setObjCBIndex G _ _ _ 44 H2)) as (sc3 & Hsc3 & H3).
  rewrite Hsc3. cbn [mbind option_bind].
  destruct H3 as [Hb Htags Hargs _].
  match type of Hb with
  | _ = ?b => assert (Hfb : b.2 = Castle.BuildRenderItems world tex) by (vm_compute; reflexivity)
  end.
  rewrite Hfb in Hargs. exists sc3. rewrite Hb, Hfb.
  split; [done|]. split; [done|exact Hargs].
Qed.

Lemma castle_geometries_named (world tex : nat → XMFLOAT4X4) :
  Forall (λ e, Geo e ≠ Some "treeSpritesGeo") (Castle.BuildRenderItems world tex).
Proof.
  assert (Hb : forallb (λ e, bool_decide (Geo e ≠ Some "treeSpritesGeo"))
                       (Castle.BuildRenderItems world tex) = true)
    by (vm_compute; reflexivity).
  apply forallb_Forall_true in Hb. eapply Forall_impl; [exact Hb|].
  intros x Hx. by apply bool_decide_eq_true in Hx.
Qed.

Lemma castle_items_length (world tex : nat → XMFLOAT4X4) :
  length (Castle.BuildRenderItems world tex) = 96%nat.
Proof. vm_compute; reflexivity. Qed.

(** X11.  [BuildRenderItems] of the first application, on a geometry table
    that holds the nine shapes and the skull: it succeeds; the 96 render
    items are those of [mAllRitems]; the draw arguments of every render item
    are the three numbers of one submesh of the geometry the item points to,
    and its topology is the triangle list; and [mOpaqueRitems] points to
    every render item, in the order of [mAllRitems]. *)
Theorem castle_build_render_items (world tex : nat → XMFLOAT4X4) (G : Geometries) :
  hasSubmeshes G "shapeGeo" shapeKeys →
  hasSubmeshes G "skullGeo" ["skull"] →
  ∃ sc,
    CastleDraw.BuildRenderItems world tex G = Some (sc, seq 0 96)
    ∧ (sBuilder sc).2 = Castle.BuildRenderItems world tex
    ∧ length (sDrawArgs sc) = 96%nat
    ∧ Forall2 (drawsSubmesh G) (Castle.BuildRenderItems world tex) (sDrawArgs sc)
    ∧ Forall (λ a, PrimitiveType a = D3D11_PRIMITIVE_TOPOLOGY_TRIANGLELIST) (sDrawArgs sc).
Proof.
  intros Hshapes Hskull.
  destruct (castle_build_ok world tex G Hshapes Hskull) as (sc & Hrun & Hb & Hargs).
  pose proof (castle_items_length world tex) as Hlen.
  pose proof (castle_geometries_named world tex) as Hall.
  rewrite Hlen in Hrun.
  exists sc. split; [exact Hrun|]. split; [exact Hb|].
  split; [by rewrite <- (Forall2_length _ _ _ Hargs)|]. split; [exact Hargs|].
  revert Hargs Hall. generalize (Castle.BuildRenderItems world tex) (sDrawArgs sc).
  intros items args Hargs Hall.
  apply Forall_forall. intros a Ha.
  apply list_elem_of_lookup in Ha as [i Hi].
  destruct (Forall2_lookup_r _ _ _ _ _ Hargs Hi) as (e & He & geo & sm & Hgeo & _ & Htopo).
  destruct (PrimitiveType a); [|done].
  assert (Hg : geo = "treeSpritesGeo") by (by apply Htopo). subst geo.
  rewrite Forall_forall in Hall. exfalso. apply (Hall e); [|done].
  by apply list_elem_of_lookup_2 in He.
Qed.

(** The nested loop of the maze: every wall it pushes is opaque, and it
    pushes at most two for each cell. *)
Lemma Builds_mazeCells (world tex : nat → XMFLOAT4X4) (rand : nat → Z) (G : Geometries)
    (n : nat) :
  hasSubmeshes G "shapeGeo" shapeKeys →
  ∀ calls sc b tags,
    SceneInv G sc b tags →
    ∃ sc' k,
      MazeDraw.mazeCellsDraw world tex rand G n (calls, sc)
      = Some ((Maze.mazeCells world tex rand n (calls, b)).1, sc')
      ∧ SceneInv G sc' (Maze.mazeCells world tex rand n (calls, b)).2
                 (tags ++ replicate k (Some Opaque))
      ∧ (k ≤ 2 * n)%nat.
Proof.
  intros Hshapes.
  assert (Bw : Builds G (MazeDraw.wall world tex G)
                      (pushNext world tex "stone0" "shapeGeo") [Some Opaque]).
  { apply Builds_shape; [exact Hshapes|apply (bool_decide_unpack _); vm_compute; exact I]. }
  induction n as [|n IH]; intros calls sc b tags H.
  - exists sc, 0%nat. cbn [MazeDraw.mazeCellsDraw Maze.mazeCells replicate fst snd].
    rewrite app_nil_r. split; [done|]. split; [done|lia].
  - cbn [MazeDraw.mazeCellsDraw Maze.mazeCells].
    unfold MazeDraw.mazeCellDraw, Maze.mazeCell.
    destruct (1 <? Z.rem (rand calls) 5), (1 <? Z.rem (rand (S calls)) 5).
    + destruct (Bw sc b tags H) as (sc1 & -> & H1). cbn [mbind option_bind].
      destruct (Bw sc1 _ _ H1) as (sc2 & -> & H2). cbn [mbind option_bind].
      destruct (IH (S (S calls)) sc2 _ _ H2) as (sc' & k & Hrun & Hinv & Hk).
      exists sc', (2 + k)%nat. split; [exact Hrun|]. split; [|lia].
      rewrite <- !app_assoc in Hinv. exact Hinv.
    + destruct (Bw sc b tags H) as (sc1 & -> & H1). cbn [mbind option_bind].
      destruct (IH (S (S calls)) sc1 _ _ H1) as (sc' & k & Hrun & Hinv & Hk).
      exists sc', (1 + k)%nat. split; [exact Hrun|]. split; [|lia].
      rewrite <- !app_assoc in Hinv. exact Hinv.
    + cbn [mbind option_bind].
      destruct (Bw sc b tags H) as (sc1 & -> & H1). cbn [mbind option_bind].
      destruct (IH (S (S calls)) sc1 _ _ H1) as (sc' & k & Hrun & Hinv & Hk).
      exists sc', (1 + k)%nat. split; [exact Hrun|]. split; [|lia].
      rewrite <- !app_assoc in Hinv. exact Hinv.
    + cbn [mbind option_bind].
      destruct (IH (S (S calls)) sc _ _ H) as (sc' & k & Hrun & Hinv & Hk).
      exists sc', k. split; [exact Hrun|]. split; [exact Hinv|lia].
Qed.

Lemma Builds_borderPair (world tex : nat → XMFLOAT4X4) (G : Geometries) :
  hasSubmeshes G "shapeGeo" shapeKeys →
  Builds G (MazeDraw.borderPairDraw world tex G) (Maze.borderPair world tex)
         (replicate 2 (Some Opaque)).
Proof.
  intros Hshapes. eapply Builds_ext.
  - apply (Builds_timesM G (MazeDraw.wall world tex G)
             (pushNext world tex "stone0" "shapeGeo") [Some Opaque] 2).
    apply Builds_shape; [exact Hshapes|apply (bool_decide_unpack _); vm_compute; exact I].
  - intros sc. reflexivity.
  - intros b. reflexivity.
  - reflexivity.
Qed.

Lemma Builds_treeSprites (G : Geometries) :
  hasSubmeshes G "treeSpritesGeo" ["points"] →
  Builds G (MazeDraw.treeSprites G) (λ b, (b.1, b.2 ++ [Maze.treeSpritesRitem]))
         [Some AlphaTestedTreeSprites].
Proof.
  intros Htree. apply Builds_place; [exact Htree|done|].
  intros b. by eexists.
Qed.

(** The layers of the second application, from the tags of its items: 120
    authored items, [k] walls of the maze, and the tree sprites. *)
Lemma maze_layers (k : nat) (l : RenderLayer) :
  positionsFrom 0 l
    ((([Some Opaque] ++ [Some AlphaTested] ++ replicate 118 (Some Opaque))
      ++ replicate k (Some Opaque)) ++ [Some AlphaTestedTreeSprites])
  = match l with
    | Opaque => 0%nat :: seq 2 (118 + k)
    | AlphaTested => [1%nat]
    | AlphaTestedTreeSprites => [(120 + k)%nat]
    | Transparent => []
    end.
Proof.
  set (T := [Some Opaque] ++ [Some AlphaTested] ++ replicate 118 (Some Opaque)).
  assert (HT : length T = 120%nat) by reflexivity.
  assert (HO : positionsFrom 0 Opaque T = 0%nat :: seq 2 118) by (vm_compute; reflexivity).
  assert (HA : positionsFrom 0 AlphaTested T = [1%nat]) by (vm_compute; reflexivity).
  assert (HS : positionsFrom 0 AlphaTestedTreeSprites T = []) by (vm_compute; reflexivity).
  assert (HR : positionsFrom 0 Transparent T = []) by (vm_compute; reflexivity).
  clearbody T.
  rewrite !positionsFrom_app, length_app, length_replicate, HT.
  cbn [positionsFrom]. rewrite app_nil_r.
  replace (0 + (120 + k))%nat with (120 + k)%nat by lia.
  replace (0 + 120)%nat with 120%nat by lia.
  destruct l.
  - rewrite HO, positionsFrom_same, decide_False by done.
    rewrite app_nil_r. rewrite seq_app. reflexivity.
  - rewrite HR, positionsFrom_other, decide_False by done. reflexivity.
  - rewrite HA, positionsFrom_other, decide_False by done. reflexivity.
  - rewrite HS, positionsFrom_other, decide_True by done. reflexivity.
Qed.

Lemma maze_items_unfold (world tex : nat → XMFLOAT4X4) (rand : nat → Z) :
  Maze.BuildRenderItems world tex rand
  = (Maze.mazeCells world tex rand (6 * 6) (0%nat, Maze.castleAndBorder world tex)).2.2
    ++ [Maze.treeSpritesRitem].
Proof. reflexivity. Qed.

(** The nested loop and the tree sprites, on a scene under construction. *)
Lemma maze_tail (world tex : nat → XMFLOAT4X4) (rand : nat → Z) (G : Geometries) (n : nat) :
  hasSubmeshes G "shapeGeo" shapeKeys →
  hasSubmeshes G "treeSpritesGeo" ["points"] →
  ∀ sc5 b5 T,
    SceneInv G sc5 b5 T →
    ∃ sc7 k,
      (st6 ← MazeDraw.mazeCellsDraw world tex rand G n (O, sc5);
       MazeDraw.treeSprites G (setObjCBIndex (wrapUINT ((sBuilder st6.2).1 + 1)) st6.2))
      = Some sc7
      ∧ (sBuilder sc7).2
        = (Maze.mazeCells world tex rand n (O, b5)).2.2 ++ [Maze.treeSpritesRitem]
      ∧ Forall2 (drawsSubmesh G)
                ((Maze.mazeCells world tex rand n (O, b5)).2.2 ++ [Maze.treeSpritesRitem])
                (sDrawArgs sc7)
      ∧ length ((Maze.mazeCells world tex rand n (O, b5)).2.2 ++ [Maze.treeSpritesRitem])
        = (length T + k + 1)%nat
      ∧ ∀ l, mRitemLayer sc7 l
             = positionsFrom 0 l ((T ++ replicate k (Some Opaque))
                                  ++ [Some AlphaTestedTreeSprites]).
Proof.
  intros Hshapes Htree sc5 b5 T H5.
  destruct (Builds_mazeCells world tex rand G n Hshapes O sc5 _ _ H5)
    as (sc6 & k & Hsc6 & H6 & Hk).
  rewrite Hsc6. cbn [mbind option_bind snd].
  pose proof (inv_builder _ _ _ _ H6) as Hb6. rewrite Hb6.
  destruct (Builds_treeSprites G Htree _ _ _
              (SceneInv_setObjCBIndex G _ _ _
                 (wrapUINT ((Maze.mazeCells world tex rand n (O, b5)).2.1 + 1)) H6))
    as (sc7 & Hsc7 & [Hb Htags Hargs Hlayers]).
  exists sc7, k. split; [exact Hsc7|].
  cbn [fst snd] in Hb, Htags, Hargs.
  split; [by rewrite Hb|]. split; [exact Hargs|]. split; [|exact Hlayers].
  rewrite <- Htags, !length_app, !length_replicate. reflexivity.
Qed.

(** [BuildRenderItems] of the second application on a table that holds the
    shapes, the skull and the tree sprites; [k] is the number of walls the
    nested loop pushes. *)
Lemma maze_build_ok (world tex : nat → XMFLOAT4X4) (rand : nat → Z) (G : Geometries) :
  hasSubmeshes G "shapeGeo" shapeKeys →
  hasSubmeshes G "skullGeo" ["skull"] →
  hasSubmeshes G "treeSpritesGeo" ["points"] →
  ∃ sc k,
    MazeDraw.BuildRenderItems world tex rand G = Some sc
    ∧ (sBuilder sc).2 = Maze.BuildRenderItems world tex rand
    ∧ Forall2 (drawsSubmesh G) (Maze.BuildRenderItems world tex rand) (sDrawArgs sc)
    ∧ length (Maze.BuildRenderItems world tex rand) = (121 + k)%nat
    ∧ mRitemLayer sc Opaque = 0%nat :: seq 2 (118 + k)
    ∧ mRitemLayer sc AlphaTested = [1%nat]
    ∧ mRitemLayer sc AlphaTestedTreeSprites = [(120 + k)%nat]
    ∧ mRitemLayer sc Transparent = [].
Proof.
  intros Hshapes Hskull Htree.
  unfold MazeDraw.BuildRenderItems. cbv zeta.
  match goal with
  | |- context [blocks ?l emptyScene] => eassert (B1 : Builds G (blocks l) _ _)
  end.
  { fixed_blocks Hshapes Hskull. }
  destruct (B1 emptyScene (0, []) [] (SceneInv_empty G)) as (sc1 & Hsc1 & H1).
  rewrite Hsc1. cbn [mbind option_bind].
  destruct (Builds_timesM G _ _ _ 8
              (Builds_pyramidRow world tex G Hshapes (Some Opaque) "stone0")
              _ _ _ (SceneInv_setObjCBIndex G _ _ _ 12 H1)) as (sc2 & Hsc2 & H2).
  rewrite Hsc2. cbn [mbind option_bind].
  destruct (Builds_timesM G _ _ _ 2
              (Builds_towerPair world tex G Hshapes (Some Opaque) "stone0")
              _ _ _ (SceneInv_setObjCBIndex G _ _ _ 44 H2)) as (sc3 & Hsc3 & H3).
  rewrite Hsc3. cbn [mbind option_bind].
  destruct (Builds_timesM G _ _ _ 6 (Builds_borderPair world tex G Hshapes)
              _ _ _ (SceneInv_setObjCBIndex G _ _ _ (44 + 52) H3)) as (sc4 & Hsc4 & H4).
  rewrite Hsc4. cbn [mbind option_bind].
  destruct (Builds_timesM G _ _ _ 6 (Builds_borderPair world tex G Hshapes)
              _ _ _ H4) as (sc5 & Hsc5 & H5).
  rewrite Hsc5. cbn [mbind option_bind].
  match type of H5 with
  | SceneInv _ _ ?b ?ts =>
      assert (Hb5 : b = Maze.castleAndBorder world tex) by (vm_compute; reflexivity);
      assert (Hts5 : ts = [Some Opaque] ++ [Some AlphaTested] ++ replicate 118 (Some Opaque))
        by (vm_compute; reflexivity);
      rewrite Hb5, Hts5 in H5
  end.
  clear Hb5 Hts5.
  destruct (maze_tail world tex rand G (6 * 6) Hshapes Htree sc5 _ _ H5)
    as (sc7 & k & Hrun & Hb & Hargs & Hlen & Hlayers).
  rewrite Hrun. exists sc7, k. split; [reflexivity|].
  rewrite <- maze_items_unfold in Hb, Hargs, Hlen.
  split; [exact Hb|]. split; [exact Hargs|].
  rewrite !Hlayers, !maze_layers, Hlen.
  replace (length ([Some Opaque] ++ [Some AlphaTested] ++ replicate 118 (Some Opaque)))
    with 120%nat by reflexivity.
  split; [lia|]. repeat split; reflexivity.
Qed.

(** X12.  [BuildRenderItems] of the second application, on a geometry table
    that holds the nine shapes, the skull and the tree sprites, for every
    outcome of [rand]: it succeeds; the render items are those of
    [mAllRitems], each with its draw arguments, the three numbers of one
    submesh of the geometry the item points to; the opaque layer holds every
    render item but the second and the last, in the order of [mAllRitems];
    the alpha-tested layer holds the second alone; the layer of the tree
    sprites holds the last alone; and the transparent layer is empty. *)
Theorem maze_build_render_items (world tex : nat → XMFLOAT4X4) (rand : nat → Z)
    (G : Geometries) :
  hasSubmeshes G "shapeGeo" shapeKeys →
  hasSubmeshes G "skullGeo" ["skull"] →
  hasSubmeshes G "treeSpritesGeo" ["points"] →
  ∃ sc n,
    MazeDraw.BuildRenderItems world tex rand G = Some sc
    ∧ (sBuilder sc).2 = Maze.BuildRenderItems world tex rand
    ∧ length (Maze.BuildRenderItems world tex rand) = n
    ∧ length (sDrawArgs sc) = n
    ∧ Forall2 (drawsSubmesh G) (Maze.BuildRenderItems world tex rand) (sDrawArgs sc)
    ∧ mRitemLayer sc Opaque = 0%nat :: seq 2 (n - 3)
    ∧ mRitemLayer sc AlphaTested = [1%nat]
    ∧ mRitemLayer sc AlphaTestedTreeSprites = [(n - 1)%nat]
    ∧ mRitemLayer sc Transparent = [].
Proof.
  intros Hshapes Hskull Htree.
  destruct (maze_build_ok world tex rand G Hshapes Hskull Htree)
    as (sc & k & Hrun & Hb & Hargs & Hlen & HO & HA & HS & HT).
  exists sc, (121 + k)%nat.
  split; [exact Hrun|]. split; [exact Hb|]. split; [exact Hlen|].
  split; [by rewrite <- (Forall2_length _ _ _ Hargs)|]. split; [exact Hargs|].
  rewrite HO, HA, HS, HT.
  replace (121 + k - 3)%nat with (118 + k)%nat by lia.
  replace (121 + k - 1)%nat with (120 + k)%nat by lia.
  done.
Qed.

(** ** The geometry table [Initialize] fills *)

Section InitializedGeometries.
Context {GV V TV : Type}.
Variable toVertex : GV → V.
Variable GetIndices16 : MeshData GV → list Z.
Variable vertexBytes : V → list Z.
Variable sizeofVertex : Z.
Variable treeVertexBytes : TV → list Z.
Variable sizeofTreeSpriteVertex : Z.
Variables box cylinder diamond cone wedge pyramid torus grid sphere : MeshData GV.
Variable treeVertex : nat → TV.

Abbreviation castleTable :=
  (castleGeometries toVertex GetIndices16 vertexBytes sizeofVertex
     box cylinder diamond cone wedge pyramid torus grid sphere).
Abbreviation mazeTable :=
  (λ fin, mazeGeometries toVertex GetIndices16 vertexBytes sizeofVertex
            treeVertexBytes sizeofTreeSpriteVertex
            box cylinder diamond cone wedge pyramid torus grid sphere fin treeVertex).

Lemma shapes_keys :
  Forall (λ k, is_Some (DrawArgs (meshGeometry
            (BuildShapeGeometry toVertex GetIndices16 vertexBytes sizeofVertex
               box cylinder diamond cone wedge pyramid torus grid sphere)) !! k)) shapeKeys.
Proof.
  unfold BuildShapeGeometry. cbv zeta. cbn [meshGeometry DrawArgs].
  unfold shapeKeys. repeat (constructor; [eexists; by simplify_map_eq|]). constructor.
Qed.

(** Without the file the table holds the shapes alone. *)
Lemma castleTable_no_file :
  ∃ G, castleTable None = Some G
       ∧ hasSubmeshes G "shapeGeo" shapeKeys ∧ G !! "skullGeo" = None.
Proof.
  eexists. split; [reflexivity|]. cbn [fst]. unfold registerShapes. split.
  - eexists. split; [apply lookup_insert_eq|exact shapes_keys].
  - rewrite lookup_insert_ne by done. apply lookup_empty.
Qed.

(** With a file whose indices fit their vector it holds the shapes and the
    skull. *)
Lemma castleTable_file (f : SkullFile V) :
  3 * wrapUINT (tcount f) < 4294967296 →
  ∃ G, castleTable (Some f) = Some G
       ∧ hasSubmeshes G "shapeGeo" shapeKeys ∧ hasSubmeshes G "skullGeo" ["skull"].
Proof.
  intros Hfit. unfold castleGeometries, BuildSkullGeometry. cbv zeta.
  destruct (Z.ltb_spec (3 * wrapUINT (tcount f)) 4294967296); [|lia].
  cbn [mbind option_bind fst]. eexists. split; [reflexivity|]. unfold registerShapes. split.
  - eexists. split; [|exact shapes_keys].
    rewrite lookup_insert_ne by done. apply lookup_insert_eq.
  - eexists. split; [apply lookup_insert_eq|].
    cbn [DrawArgs]. constructor; [|constructor]. rewrite lookup_insert_eq. by eexists.
Qed.

(** [BuildTreeSpritesGeometry] adds the tree sprites and keeps the rest. *)
Lemma mazeTable_of (fin : option (SkullFile V)) (G : Geometries) :
  castleTable fin = Some G →
  ∃ G', mazeTable fin = Some G'
        ∧ hasSubmeshes G' "treeSpritesGeo" ["points"]
        ∧ ∀ geo, geo ≠ "treeSpritesGeo" → G' !! geo = G !! geo.
Proof.
  intros HG. unfold mazeGeometries. rewrite HG. cbn [mbind option_bind].
  eexists. split; [reflexivity|]. unfold BuildTreeSpritesGeometry. cbv zeta. cbn [fst]. split.
  - eexists. split; [apply lookup_insert_eq|].
    cbn [DrawArgs]. constructor; [|constructor]. rewrite lookup_insert_eq. by eexists.
  - intros geo Hne. by rewrite lookup_insert_ne.
Qed.
End InitializedGeometries.

Lemma hasSubmeshes_same (G G' : Geometries) (geo : string) (keys : list string) :
  G' !! geo = G !! geo → hasSubmeshes G geo keys → hasSubmeshes G' geo keys.
Proof. intros Heq (g & Hg & Hkeys). exists g. split; [by rewrite Heq|done]. Qed.

(** ** A block whose geometry is missing *)

Lemma place_missing (G : Geometries) (layer : option RenderLayer) (geo submesh : string)
    (topology : D3D_PRIMITIVE_TOPOLOGY) (push : Builder → Builder) (sc : Scene) :
  G !! geo = None → place G layer geo submesh topology push sc = None.
Proof. intros H. unfold place, loadDrawArguments. by rewrite H. Qed.

Lemma place_found (G : Geometries) (layer : option RenderLayer) (geo submesh : string)
    (topology : D3D_PRIMITIVE_TOPOLOGY) (push : Builder → Builder) (sc : Scene) :
  is_Some (G !! geo) → is_Some (place G layer geo submesh topology push sc).
Proof. intros [g H]. unfold place, loadDrawArguments. rewrite H. by eexists. Qed.

Ltac run_fixed_blocks Hshape Hskull :=
  cbn [blocks];
  repeat match goal with
         | |- context [placeFixed ?w ?t ?G ?l ?i ?m "shapeGeo" ?k ?sc] =>
             let sc' := fresh "sc" in
             let H := fresh "H" in
             destruct (place_found G l "shapeGeo" k D3D11_PRIMITIVE_TOPOLOGY_TRIANGLELIST
                         (pushFixed w t i m "shapeGeo") sc Hshape) as [sc' H];
             change (place G l "shapeGeo" k D3D11_PRIMITIVE_TOPOLOGY_TRIANGLELIST
                       (pushFixed w t i m "shapeGeo") sc)
               with (placeFixed w t G l i m "shapeGeo" k sc) in H;
             rewrite H; cbn [mbind option_bind]; clear H
         end;
  unfold placeFixed; rewrite (place_missing _ _ "skullGeo" _ _ _ _ Hskull); reflexivity.

Lemma castle_build_missing_skull (world tex : nat → XMFLOAT4X4) (G : Geometries) :
  G !! "skullGeo" = None → CastleDraw.BuildRenderItems world tex G = None.
Proof.
  intros Hskull. unfold CastleDraw.BuildRenderItems. cbv zeta.
  destruct (G !! "shapeGeo") as [g|] eqn:Hshape.
  - assert (Hs : is_Some (G !! "shapeGeo")) by (by eexists).
    run_fixed_blocks Hs Hskull.
  - cbn [blocks]. unfold placeFixed.
    by rewrite (place_missing G _ "shapeGeo" _ _ _ _ Hshape).
Qed.

Lemma maze_build_missing_skull (world tex : nat → XMFLOAT4X4) (rand : nat → Z)
    (G : Geometries) :
  G !! "skullGeo" = None → MazeDraw.BuildRenderItems world tex rand G = None.
Proof.
  intros Hskull. unfold MazeDraw.BuildRenderItems. cbv zeta.
  destruct (G !! "shapeGeo") as [g|] eqn:Hshape.
  - assert (Hs : is_Some (G !! "shapeGeo")) by (by eexists).
    run_fixed_blocks Hs Hskull.
  - cbn [blocks]. unfold placeFixed.
    by rewrite (place_missing G _ "shapeGeo" _ _ _ _ Hshape).
Qed.

(** X13.  Whether the scene can be built is decided by the file of the
    skull.  [Initialize] fills the geometry table and then calls
    [BuildRenderItems].  When [BuildSkullGeometry] cannot open
    [Models/skull.txt] it returns without registering the skull: the pointer
    of the twelfth render item is then null and the loads through it fail, in
    both applications and whatever the meshes are.  When it can, and the
    indices of the file fit their vector, [BuildRenderItems] succeeds in both
    applications. *)
Theorem skull_file_decides {GV V TV : Type} (toVertex : GV → V)
    (GetIndices16 : MeshData GV → list Z) (vertexBytes : V → list Z) (sizeofVertex : Z)
    (treeVertexBytes : TV → list Z) (sizeofTreeSpriteVertex : Z)
    (box cylinder diamond cone wedge pyramid torus grid sphere : MeshData GV)
    (treeVertex : nat → TV) (world tex : nat → XMFLOAT4X4) (rand : nat → Z)
    (f : SkullFile V) :
  3 * wrapUINT (tcount f) < 4294967296 →
  (∃ G G',
     castleGeometries toVertex GetIndices16 vertexBytes sizeofVertex
       box cylinder diamond cone wedge pyramid torus grid sphere None = Some G
     ∧ mazeGeometries toVertex GetIndices16 vertexBytes sizeofVertex
         treeVertexBytes sizeofTreeSpriteVertex
         box cylinder diamond cone wedge pyramid torus grid sphere None treeVertex = Some G'
     ∧ CastleDraw.BuildRenderItems world tex G = None
     ∧ MazeDraw.BuildRenderItems world tex rand G' = None)
  ∧ (∃ G G',
       castleGeometries toVertex GetIndices16 vertexBytes sizeofVertex
         box cylinder diamond cone wedge pyramid torus grid sphere (Some f) = Some G
       ∧ mazeGeometries toVertex GetIndices16 vertexBytes sizeofVertex
           treeVertexBytes sizeofTreeSpriteVertex
           box cylinder diamond cone wedge pyramid torus grid sphere (Some f) treeVertex
         = Some G'
       ∧ is_Some (CastleDraw.BuildRenderItems world tex G)
       ∧ is_Some (MazeDraw.BuildRenderItems world tex rand G')).
Proof.
  intros Hfit. split.
  - destruct (castleTable_no_file toVertex GetIndices16 vertexBytes sizeofVertex
                box cylinder diamond cone wedge pyramid torus grid sphere)
      as (G & HG & _ & Hno).
    destruct (mazeTable_of toVertex GetIndices16 vertexBytes sizeofVertex
                treeVertexBytes sizeofTreeSpriteVertex
                box cylinder diamond cone wedge pyramid torus grid sphere treeVertex
                None G HG) as (G' & HG' & _ & Hsame).
    exists G, G'. split; [exact HG|]. split; [exact HG'|]. split.
    + by apply castle_build_missing_skull.
    + apply maze_build_missing_skull. by rewrite Hsame.
  - destruct (castleTable_file toVertex GetIndices16 vertexBytes sizeofVertex
                box cylinder diamond cone wedge pyramid torus grid sphere f Hfit)
      as (G & HG & Hshapes & Hskull).
    destruct (mazeTable_of toVertex GetIndices16 vertexBytes sizeofVertex
                treeVertexBytes sizeofTreeSpriteVertex
                box cylinder diamond cone wedge pyramid torus grid sphere treeVertex
                (Some f) G HG) as (G' & HG' & Htree & Hsame).
    exists G, G'. split; [exact HG|]. split; [exact HG'|]. split.
    + destruct (castle_build_ok world tex G Hshapes Hskull) as (sc & Hrun & _).
      rewrite Hrun. eexists; reflexivity.
    + destruct (maze_build_ok world tex rand G'
                  (hasSubmeshes_same G G' "shapeGeo" shapeKeys (Hsame "shapeGeo" ltac:(done)) Hshapes)
                  (hasSubmeshes_same G G' "skullGeo" ["skull"] (Hsame "skullGeo" ltac:(done)) Hskull)
                  Htree) as (sc & k & Hrun & _).
      rewrite Hrun. eexists; reflexivity.
Qed.

Lemma sample_castle_table :
  hasSubmeshes sampleCastleGeometries "shapeGeo" shapeKeys
  ∧ hasSubmeshes sampleCastleGeometries "skullGeo" ["skull"].
Proof.
  destruct (castleTable_file id sampleIndices16 sampleVertexBytes 32
              (sampleMesh 24 12) (sampleMesh 8 4) (sampleMesh 6 8) (sampleMesh 5 6)
              (sampleMesh 6 8) (sampleMesh 5 6) (sampleMesh 16 32) (sampleMesh 4 2)
              (sampleMesh 12 20) sampleSkull) as (G & HG & H1 & H2);
    [vm_compute; reflexivity|].
  unfold sampleCastleGeometries. rewrite HG. by split.
Qed.

Lemma sample_maze_table :
  hasSubmeshes sampleMazeGeometries "shapeGeo" shapeKeys
  ∧ hasSubmeshes sampleMazeGeometries "skullGeo" ["skull"]
  ∧ hasSubmeshes sampleMazeGeometries "treeSpritesGeo" ["points"].
Proof.
  destruct (castleTable_file id sampleIndices16 sampleVertexBytes 32
              (sampleMesh 24 12) (sampleMesh 8 4) (sampleMesh 6 8) (sampleMesh 5 6)
              (sampleMesh 6 8) (sampleMesh 5 6) (sampleMesh 16 32) (sampleMesh 4 2)
              (sampleMesh 12 20) sampleSkull) as (G & HG & H1 & H2);
    [vm_compute; reflexivity|].
  destruct (mazeTable_of id sampleIndices16 sampleVertexBytes 32 (leBytes 20) 20
              (sampleMesh 24 12) (sampleMesh 8 4) (sampleMesh 6 8) (sampleMesh 5 6)
              (sampleMesh 6 8) (sampleMesh 5 6) (sampleMesh 16 32) (sampleMesh 4 2)
              (sampleMesh 12 20) Z.of_nat (Some sampleSkull) G HG) as (G' & HG' & H3 & Hsame).
  unfold sampleMazeGeometries. rewrite HG'. cbn [default].
  split; [|split; [|exact H3]].
  - by apply (hasSubmeshes_same G); [apply Hsame|].
  - by apply (hasSubmeshes_same G); [apply Hsame|].
Qed.

Lemma castle_build_render_items_witness :
  ∃ sc,
    CastleDraw.BuildRenderItems plainWorld plainWorld sampleCastleGeometries
    = Some (sc, seq 0 96)
    ∧ (sBuilder sc).2 = Castle.BuildRenderItems plainWorld plainWorld
    ∧ length (sDrawArgs sc) = 96%nat
    ∧ Forall2 (drawsSubmesh sampleCastleGeometries)
              (Castle.BuildRenderItems plainWorld plainWorld) (sDrawArgs sc)
    ∧ Forall (λ a, PrimitiveType a = D3D11_PRIMITIVE_TOPOLOGY_TRIANGLELIST) (sDrawArgs sc).
Proof.
  destruct sample_castle_table as [H1 H2].
  exact (castle_build_render_items plainWorld plainWorld sampleCastleGeometries H1 H2).
Defined.

Lemma maze_build_render_items_witness :
  ∃ sc n,
    MazeDraw.BuildRenderItems mazeWorld plainWorld (λ n, Z.of_nat n) sampleMazeGeometries
    = Some sc
    ∧ (sBuilder sc).2 = Maze.BuildRenderItems mazeWorld plainWorld (λ n, Z.of_nat n)
    ∧ length (Maze.BuildRenderItems mazeWorld plainWorld (λ n, Z.of_nat n)) = n
    ∧ length (sDrawArgs sc) = n
    ∧ Forall2 (drawsSubmesh sampleMazeGeometries)
              (Maze.BuildRenderItems mazeWorld plainWorld (λ n, Z.of_nat n)) (sDrawArgs sc)
    ∧ mRitemLayer sc Opaque = 0%nat :: seq 2 (n - 3)
    ∧ mRitemLayer sc AlphaTested = [1%nat]
    ∧ mRitemLayer sc AlphaTestedTreeSprites = [(n - 1)%nat]
    ∧ mRitemLayer sc Transparent = [].
Proof.
  destruct sample_maze_table as (H1 & H2 & H3).
  exact (maze_build_render_items mazeWorld plainWorld (λ n, Z.of_nat n) sampleMazeGeometries
           H1 H2 H3).
Defined.

Lemma skull_file_decides_witness :
  3 * wrapUINT (tcount sampleSkull) < 4294967296
  ∧ ∃ G G',
      castleGeometries id sampleIndices16 sampleVertexBytes 32
        (sampleMesh 24 12) (sampleMesh 8 4) (sampleMesh 6 8) (sampleMesh 5 6)
        (sampleMesh 6 8) (sampleMesh 5 6) (sampleMesh 16 32) (sampleMesh 4 2)
        (sampleMesh 12 20) None = Some G
      ∧ mazeGeometries id sampleIndices16 sampleVertexBytes 32 (leBytes 20) 20
          (sampleMesh 24 12) (sampleMesh 8 4) (sampleMesh 6 8) (sampleMesh 5 6)
          (sampleMesh 6 8) (sampleMesh 5 6) (sampleMesh 16 32) (sampleMesh 4 2)
          (sampleMesh 12 20) None Z.of_nat = Some G'
      ∧ CastleDraw.BuildRenderItems plainWorld plainWorld G = None
      ∧ MazeDraw.BuildRenderItems mazeWorld plainWorld (λ n, Z.of_nat n) G' = None.
Proof.
  assert (Hfit : 3 * wrapUINT (tcount sampleSkull) < 4294967296) by (vm_compute; reflexivity).
  split; [exact Hfit|].
  destruct (skull_file_decides id sampleIndices16 sampleVertexBytes 32 (leBytes 20) 20
              (sampleMesh 24 12) (sampleMesh 8 4) (sampleMesh 6 8) (sampleMesh 5 6)
              (sampleMesh 6 8) (sampleMesh 5 6) (sampleMesh 16 32) (sampleMesh 4 2)
              (sampleMesh 12 20) Z.of_nat plainWorld plainWorld (λ n, Z.of_nat n)
              sampleSkull Hfit) as [(G & G' & HG & HG' & Hc & _) _].
  destruct (skull_file_decides id sampleIndices16 sampleVertexBytes 32 (leBytes 20) 20
              (sampleMesh 24 12) (sampleMesh 8 4) (sampleMesh 6 8) (sampleMesh 5 6)
              (sampleMesh 6 8) (sampleMesh 5 6) (sampleMesh 16 32) (sampleMesh 4 2)
              (sampleMesh 12 20) Z.of_nat mazeWorld plainWorld (λ n, Z.of_nat n)
              sampleSkull Hfit) as [(G1 & G1' & HG1 & HG1' & _ & Hm) _].
  rewrite HG in HG1. injection HG1 as <-. rewrite HG' in HG1'. injection HG1' as <-.
  exists G, G'. split; [exact HG|]. split; [exact HG'|]. split; [exact Hc|exact Hm].
Defined.

(** ** The command list of a frame *)

Lemma drawsAndSwitches_app (c1 c2 : list Command) :
  drawsAndSwitches (c1 ++ c2) = drawsAndSwitches c1 ++ drawsAndSwitches c2.
Proof. apply List.filter_app. Qed.

Lemma argumentsAt_app (drawArgs : list DrawArguments) (r1 r2 : list nat) :
  argumentsAt drawArgs (r1 ++ r2) = argumentsAt drawArgs r1 ++ argumentsAt drawArgs r2.
Proof. apply omap_app. Qed.

Lemma argumentsAt_cons (drawArgs : list DrawArguments) (p : nat) (r : list nat)
    (a : DrawArguments) :
  drawArgs !! p = Some a → argumentsAt drawArgs (p :: r) = a :: argumentsAt drawArgs r.
Proof. intros H. unfold argumentsAt. cbn. by rewrite H. Qed.

Lemma argumentsAt_seq (pre l : list DrawArguments) :
  argumentsAt (pre ++ l) (seq (length pre) (length l)) = l.
Proof.
  revert pre. induction l as [|a l IH]; intros pre; [done|].
  cbn [length seq]. rewrite (argumentsAt_cons _ _ _ a) by (by apply list_lookup_middle).
  f_equal. specialize (IH (pre ++ [a])).
  rewrite length_app, Nat.add_1_r, <- app_assoc in IH. exact IH.
Qed.


Lemma forEachItem_draws (body : nat → option (list Command))
    (drawArgs : list DrawArguments) (ritems : list nat) :
  Forall (λ p, ∃ a cs, drawArgs !! p = Some a ∧ body p = Some cs
                       ∧ drawsAndSwitches cs = [drawCallOf a]) ritems →
  ∃ cmds, forEachItem body ritems = Some cmds
          ∧ drawsAndSwitches cmds = map drawCallOf (argumentsAt drawArgs ritems).
Proof.
  induction 1 as [|p r (a & cs & Ha & Hcs & Hd) _ (cmds & Hrun & Hdraws)].
  - by exists [].
  - exists (cs ++ cmds). cbn [forEachItem]. rewrite Hcs, Hrun. cbn [mbind option_bind].
    split; [done|]. rewrite drawsAndSwitches_app, Hd, Hdraws.
    by rewrite (argumentsAt_cons _ _ _ a Ha).
Qed.

Lemma materialOf_defined (s : App) (e : RenderItem) :
  (∃ n q m, Mat e = Some n ∧ mMaterials s !! q = Some m ∧ Name m = n) →
  is_Some (materialOf s e).
Proof.
  intros (n & q & m & Hn & Hq & Hm). unfold materialOf. rewrite Hn. cbn [mbind option_bind].
  destruct (list_find_elem_of (λ m, Name m = n) (mMaterials s) m) as [[i x] Hx];
    [by apply list_elem_of_lookup_2 in Hq|done|].
  rewrite Hx. by eexists.
Qed.

(** The keys the render items look their materials up with are defined in
    whatever order the materials are held. *)
Lemma materials_defined_order (items : list RenderItem) (mats order : list Material) :
  order ≡ₚ mats →
  forallb (materialDefinedb (map Name mats)) items = true →
  forallb (materialDefinedb (map Name order)) items = true.
Proof.
  intros Hperm. rewrite !forallb_Forall_true. intros H.
  eapply Forall_impl; [exact H|]. clear H. intros e.
  unfold materialDefinedb. destruct (Mat e) as [n|]; [|done].
  intros H%bool_decide_eq_true. apply bool_decide_eq_true.
  change (map ?f ?l) with (f <$> l) in *. by rewrite Hperm.
Qed.

Section DrawFacts.
Variable G : Geometries.
Variable items : list RenderItem.
Variable mats : list Material.
Variable f0 : Z.
Variable s : App.
Variable drawArgs : list DrawArguments.
Variable objectCBAddress matCBAddress passCBAddress : nat → Z.
Variable objCBByteSize matCBByteSize : Z.
Variable srvHeapStart mCbvSrvDescriptorSize : Z.
Hypothesis scene_ok : SceneOK items mats.
Hypothesis f0_range : 0 ≤ f0 < 18446744073709551616.
Hypothesis s_reachable : reachable items mats f0 s.
Hypothesis mats_defined : forallb (materialDefinedb (map Name mats)) items = true.
Hypothesis args_built : Forall2 (drawsSubmesh G) items drawArgs.

Lemma state_items_length : length (mAllRitems s) = length drawArgs.
Proof.
  destruct (reachable_Inv items mats f0 scene_ok f0_range s s_reachable) as [_ H2 _ _ _ _ _].
  rewrite H2, length_map. exact (Forall2_length _ _ _ args_built).
Qed.

Lemma state_item (p : nat) :
  (p < length drawArgs)%nat →
  ∃ ri a geo mat,
    mAllRitems s !! p = Some ri ∧ drawArgs !! p = Some a
    ∧ Geo ri = Some geo ∧ materialOf s ri = Some mat.
Proof.
  intros Hp.
  destruct (lookup_lt_is_Some_2 drawArgs p Hp) as [a Ha].
  destruct (Forall2_lookup_r _ _ _ _ _ args_built Ha) as (e & He & geo & sm & Hgeo & _).
  pose proof (reachable_Inv items mats f0 scene_ok f0_range s s_reachable) as HI.
  destruct HI as [_ H2 _ _ _ _ _].
  assert (Hri : mAllRitems s !! p
                = Some (setItemDirty (dirtyAfter (passesDone f0 s)) e)).
  { rewrite H2. change (map ?f ?l) with (f <$> l). by rewrite list_lookup_fmap, He. }
  destruct (materialOf_defined s _
              (materials_stay_defined items mats f0 s scene_ok f0_range mats_defined
                 s_reachable p _ Hri)) as [mat Hmat].
  by exists (setItemDirty (dirtyAfter (passesDone f0 s)) e), a, geo, mat.
Qed.

Lemma castle_item_draws (k p : nat) :
  (p < length drawArgs)%nat →
  ∃ a cs,
    drawArgs !! p = Some a
    ∧ CastleCommands.DrawRenderItem objectCBAddress matCBAddress objCBByteSize matCBByteSize
        drawArgs s k p = Some cs
    ∧ drawsAndSwitches cs = [drawCallOf a].
Proof.
  intros Hp. destruct (state_item p Hp) as (ri & a & geo & mat & Hri & Ha & Hgeo & Hmat).
  exists a. eexists. split; [exact Ha|].
  unfold CastleCommands.DrawRenderItem. rewrite Hri, Ha. cbn [mbind option_bind].
  rewrite Hgeo. cbn [mbind option_bind]. rewrite Hmat. cbn [mbind option_bind].
  split; reflexivity.
Qed.


Lemma drawing_slot :
  pc s = AtDraw → ∃ k fr, currFrameResource s = Some (k, fr).
Proof.
  intros Hpc.
  destruct (Inv_current items mats f0 s
              (reachable_Inv items mats f0 scene_ok f0_range s s_reachable))
    as (fr & Hfr & _); [by rewrite Hpc|].
  by eexists _, fr.
Qed.

Lemma castle_draws (mOpaqueRitems : list nat) :
  pc s = AtDraw →
  Forall (λ p, (p < length drawArgs)%nat) mOpaqueRitems →
  ∃ cmds,
    CastleCommands.DrawCommands objectCBAddress matCBAddress passCBAddress
      objCBByteSize matCBByteSize drawArgs mOpaqueRitems s = Some cmds
    ∧ drawsAndSwitches cmds = map drawCallOf (argumentsAt drawArgs mOpaqueRitems).
Proof.
  intros Hpc Hin. destruct (drawing_slot Hpc) as (k & fr & Hcur).
  destruct (forEachItem_draws
              (CastleCommands.DrawRenderItem objectCBAddress matCBAddress objCBByteSize
                 matCBByteSize drawArgs s k) drawArgs mOpaqueRitems) as (draws & Hrun & Hd).
  { eapply Forall_impl; [exact Hin|]. intros p Hp. by apply castle_item_draws. }
  unfold CastleCommands.DrawCommands, CastleCommands.DrawRenderItems.
  rewrite Hcur. cbn [mbind option_bind]. rewrite Hrun. cbn [mbind option_bind].
  eexists. split; [reflexivity|].
  rewrite !drawsAndSwitches_app, Hd. cbn. by rewrite app_nil_r.
Qed.

End DrawFacts.

(** X14.  [Draw] of the first application, in every reachable state in
    which it runs, on the scene [BuildRenderItems] builds from a geometry
    table that holds the shapes and the skull, in whatever order
    [mMaterials] holds the materials: no pointer it reads through is null,
    and the command list it records holds one draw call for each render item,
    in the order of [mAllRitems], each with the draw arguments of that render
    item, and no switch of the pipeline state. *)
Theorem castle_draw_commands (world tex : nat → XMFLOAT4X4) (albedo : string → XMFLOAT4)
    (fresnel : string → XMFLOAT3) (roughness : string → float) (order : list Material)
    (G : Geometries) (f0 : Z) (s : App)
    (objectCBAddress matCBAddress passCBAddress : nat → Z)
    (objCBByteSize matCBByteSize : Z) :
  hasSubmeshes G "shapeGeo" shapeKeys →
  hasSubmeshes G "skullGeo" ["skull"] →
  order ≡ₚ Castle.BuildMaterials albedo fresnel roughness →
  0 ≤ f0 < 18446744073709551616 →
  reachable (Castle.BuildRenderItems world tex) order f0 s →
  pc s = AtDraw →
  ∃ sc mOpaqueRitems cmds,
    CastleDraw.BuildRenderItems world tex G = Some (sc, mOpaqueRitems)
    ∧ CastleCommands.DrawCommands objectCBAddress matCBAddress passCBAddress
        objCBByteSize matCBByteSize (sDrawArgs sc) mOpaqueRitems s = Some cmds
    ∧ drawsAndSwitches cmds = map drawCallOf (sDrawArgs sc)
    ∧ length (sDrawArgs sc) = length (mAllRitems s).
Proof.
  intros Hshapes Hskull Hperm Hf Hr Hpc.
  destruct (castle_build_ok world tex G Hshapes Hskull) as (sc & Hrun & _ & Hargs).
  pose proof (SceneOK_order _ _ order Hperm
                (RepositoryScene_OK _ _ (CastleScene world tex albedo fresnel roughness)))
    as Hsc.
  pose proof (materials_defined_order _ _ order Hperm
                (castle_materials_defined world tex albedo fresnel roughness)) as Hdef.
  clear Hperm. revert Hrun Hargs Hsc Hdef Hr.
  generalize (Castle.BuildRenderItems world tex). revert order.
  intros mats items Hrun Hargs Hsc Hdef Hr.
  pose proof (Forall2_length _ _ _ Hargs) as Hlen.
  destruct (castle_draws G items mats f0 s (sDrawArgs sc)
              objectCBAddress matCBAddress passCBAddress objCBByteSize matCBByteSize
              Hsc Hf Hr Hdef Hargs (seq 0 (length items)) Hpc) as (cmds & Hcmds & Hdraws).
  { apply Forall_seq. intros p Hp. lia. }
  exists sc, (seq 0 (length items)), cmds.
  split; [exact Hrun|]. split; [exact Hcmds|]. split.
  - rewrite Hdraws, Hlen. f_equal. exact (argumentsAt_seq [] (sDrawArgs sc)).
  - symmetry. exact (state_items_length G items mats f0 s (sDrawArgs sc) Hsc Hf Hr Hargs).
Qed.


Lemma castle_draw_commands_witness :
  pc castleRefreshed = AtDraw
  ∧ ∃ sc mOpaqueRitems cmds,
      CastleDraw.BuildRenderItems plainWorld plainWorld sampleCastleGeometries
      = Some (sc, mOpaqueRitems)
      ∧ CastleCommands.DrawCommands (sampleAddress 0) (sampleAddress 1048576)
          (sampleAddress 2097152) 256 256 (sDrawArgs sc) mOpaqueRitems castleRefreshed
        = Some cmds
      ∧ drawsAndSwitches cmds = map drawCallOf (sDrawArgs sc)
      ∧ length (sDrawArgs sc) = length (mAllRitems castleRefreshed).
Proof.
  assert (Hpc : pc castleRefreshed = AtDraw) by (vm_compute; reflexivity).
  assert (Hf : 0 ≤ 1 < 18446744073709551616) by lia.
  assert (Hr : reachable (Castle.BuildRenderItems plainWorld plainWorld)
                         (Castle.BuildMaterials plainAlbedo plainFresnel plainRoughness)
                         1 castleRefreshed)
    by (apply (run_reachable _ _ _ [Cpu plainPass; Cpu plainPass]); vm_compute; reflexivity).
  destruct sample_castle_table as [H1 H2].
  split; [exact Hpc|].
  exact (castle_draw_commands plainWorld plainWorld plainAlbedo plainFresnel plainRoughness
           (Castle.BuildMaterials plainAlbedo plainFresnel plainRoughness)
           sampleCastleGeometries 1 castleRefreshed (sampleAddress 0) (sampleAddress 1048576)
           (sampleAddress 2097152) 256 256
           H1 H2 (reflexivity _) Hf Hr Hpc).
Defined.

